(** * rss_news_reader: the article-enrichment pipeline

    A shallow embedding of [rss_parser/web_parser/data_checkers.py],
    [rss_parser/web_parser/web_parser.py], [rss_parser/news_object.py] and
    of [ParserNewsFormer] in [rss_parser/parser_management.py], with the
    properties of the enrichment pipeline stated and proved over it.

    A Python [str] is the [string] of the bytes of its UTF-8 encoding;
    [None] is [option]; a raised exception is
    the [Raise] case of [Res]; the class attributes of
    [ImageDuplicateChecker] are an explicit shared state threaded through
    every check; the worker threads of [form_news] are a pool of small-step
    machines run under a schedule; [requests], [urllib], [dateutil] and the
    text extraction of BeautifulSoup are the fields of a [World]. *)

From Stdlib Require Import Ascii String.
From stdpp Require Import base option list gmap strings pretty sorting.

Local Open Scope string_scope.

(** ** Python values: exceptions, results, string operations *)

Inductive exn : Type :=
  | AttributeError
  | TypeError
  | KeyError
  | ValueError (msg : string)
  | ParserError
  | MissingSchema
  | InvalidSchema
  | ConnectionError
  | RequestException.

Inductive Res (A : Type) : Type :=
  | Ok (a : A)
  | Raise (e : exn).
Arguments Ok {A} a.
Arguments Raise {A} e.

Definition res_bind {A B} (r : Res A) (k : A → Res B) : Res B :=
  match r with
  | Ok a => k a
  | Raise e => Raise e
  end.

(** [sub in s] *)
Fixpoint contains (sub s : string) : bool :=
  String.prefix sub s ||
  match s with
  | EmptyString => false
  | String _ t => contains sub t
  end.

(** [s.endswith(suf)] *)
Fixpoint endswith (suf s : string) : bool :=
  String.eqb s suf ||
  match s with
  | EmptyString => false
  | String _ t => endswith suf t
  end.

(** [s.endswith((suf1, suf2, ...))] *)
Definition endswith_any (sufs : list string) (s : string) : bool :=
  existsb (λ suf, endswith suf s) sufs.

(** Truthiness of an optional string: [None] and [""] are falsy. *)
Definition truthy (o : option string) : bool :=
  match o with
  | Some (String _ _) => true
  | _ => false
  end.

Definition newline : string := String (ascii_of_nat 10) EmptyString.

(** ** [re.sub("<.*?>", "", s)]

    At a ["<"] the lazy [.*?] takes the shortest run of characters other
    than a line break that is followed by [">"]; [scan_tag] looks for that
    [">"] and returns what follows it. *)

Fixpoint scan_tag (s : string) : option string :=
  match s with
  | EmptyString => None
  | String c t =>
      if Ascii.eqb c ">" then Some t
      else if Ascii.eqb c (ascii_of_nat 10) then None
      else scan_tag t
  end.

Fixpoint re_sub_tags_fuel (fuel : nat) (s : string) : string :=
  match fuel with
  | 0 => s
  | S fuel' =>
      match s with
      | EmptyString => EmptyString
      | String c t =>
          if Ascii.eqb c "<" then
            match scan_tag t with
            | Some rest => re_sub_tags_fuel fuel' rest
            | None => String c (re_sub_tags_fuel fuel' t)
            end
          else String c (re_sub_tags_fuel fuel' t)
      end
  end.

Definition re_sub_tags (s : string) : string :=
  re_sub_tags_fuel (String.length s) s.

(** ** [re.search(r"\d0{1,2}(:|x)\d{1,2}0", s)]

    A [str] is held as the bytes of its UTF-8 encoding. The literal
    characters of the pattern are one byte each; [\d] matches every decimal
    digit of Unicode (category Nd), whose encoding takes up to four
    bytes. *)

(** A byte [10xxxxxx] and its six bits. *)
Definition utf8_continuation (c : ascii) : option N :=
  let n := N_of_ascii c in
  if ((128 <=? n) && (n <? 192))%N then Some (n - 128)%N else None.

(** The code point that [s] starts with, and what follows its encoding. *)
Definition utf8_head (s : string) : option (N * string) :=
  match s with
  | EmptyString => None
  | String b0 t0 =>
      let n0 := N_of_ascii b0 in
      if (n0 <? 128)%N then Some (n0, t0)
      else if (n0 <? 192)%N then None
      else if (n0 <? 224)%N then
        match t0 with
        | String b1 t1 =>
            match utf8_continuation b1 with
            | Some n1 => Some (((n0 - 192) * 64 + n1)%N, t1)
            | None => None
            end
        | EmptyString => None
        end
      else if (n0 <? 240)%N then
        match t0 with
        | String b1 (String b2 t2) =>
            match utf8_continuation b1, utf8_continuation b2 with
            | Some n1, Some n2 => Some ((((n0 - 224) * 64 + n1) * 64 + n2)%N, t2)
            | _, _ => None
            end
        | _ => None
        end
      else if (n0 <? 248)%N then
        match t0 with
        | String b1 (String b2 (String b3 t3)) =>
            match utf8_continuation b1, utf8_continuation b2, utf8_continuation b3 with
            | Some n1, Some n2, Some n3 =>
                Some (((((n0 - 240) * 64 + n1) * 64 + n2) * 64 + n3)%N, t3)
            | _, _, _ => None
            end
        | _ => None
        end
      else None
  end.

(** The digit zero of every script of Unicode 14.0 that has decimal
    digits; the digits one to nine of the script follow it. *)
Definition decimal_zeros : list N :=
  [
    48; 1632; 1776; 1984; 2406; 2534; 2662; 2790;
    2918; 3046; 3174; 3302; 3430; 3558; 3664; 3792;
    3872; 4160; 4240; 6112; 6160; 6470; 6608; 6784;
    6800; 6992; 7088; 7232; 7248; 42528; 43216; 43264;
    43472; 43504; 43600; 44016; 65296; 66720; 68912; 69734;
    69872; 69942; 70096; 70384; 70736; 70864; 71248; 71360;
    71472; 71904; 72016; 72784; 73040; 73120; 92768; 92864;
    93008; 120782; 120792; 120802; 120812; 120822; 123200; 123632;
    125264; 130032
  ]%N.

(** The code point is a decimal digit (category Nd). *)
Definition is_decimal (cp : N) : bool :=
  existsb (λ zero, (zero <=? cp) && (cp <? zero + 10))%N decimal_zeros.

(** [\d] at the start of [s]: what follows the digit. *)
Definition re_digit (s : string) : option string :=
  match utf8_head s with
  | Some (cp, rest) => if is_decimal cp then Some rest else None
  | None => None
  end.

(** The character [0] at the start of [s]. *)
Definition starts_with_zero (s : string) : bool :=
  match s with
  | String c _ => Ascii.eqb c "0"
  | EmptyString => false
  end.

(** The part of the pattern after [0{1,2}]: [(:|x)\d{1,2}0]. *)
Definition icons_tail (s : string) : bool :=
  match s with
  | String sep t =>
      (Ascii.eqb sep ":" || Ascii.eqb sep "x") &&
      match re_digit t with
      | Some t1 =>
          starts_with_zero t1 ||
          match re_digit t1 with
          | Some t2 => starts_with_zero t2
          | None => false
          end
      | None => false
      end
  | EmptyString => false
  end.

(** The whole pattern, anchored at the start of [s]. *)
Definition icons_here (s : string) : bool :=
  match re_digit s with
  | Some (String z r) =>
      Ascii.eqb z "0" &&
      (icons_tail r ||
       match r with
       | String z2 r2 => Ascii.eqb z2 "0" && icons_tail r2
       | EmptyString => false
       end)
  | _ => false
  end.

(** The search tries every position; at a byte inside the encoding of a
    character nothing matches. *)
Fixpoint re_search_icons (s : string) : bool :=
  icons_here s ||
  match s with
  | EmptyString => false
  | String _ t => re_search_icons t
  end.

(** ** Tags of a parsed page (BeautifulSoup) *)

Record Tag : Type := {
  tag_name : string;
  tag_attrs : gmap string string;
  tag_parent : string;            (* [tag.findParent().name] *)
  tag_string : option string;     (* [tag.string] *)
  tag_text : string;              (* [tag.text] *)
}.

(** [tag.get(key)] *)
Definition tag_get (tag : Tag) (key : string) : option string :=
  tag_attrs tag !! key.

(** ** The class attributes of [ImageDuplicateChecker]

    [instance] and [duplicates] belong to the class, not to an object:
    every check of every page scan reads and writes the same two cells.
    The flag is the identity of the [WebParser] that runs the scan. *)

Record DupState : Type := {
  instance : option nat;
  duplicates : gset (option string);
}.

Definition dup_initial : DupState :=
  {| instance := None; duplicates := ∅ |}.

(** State and exception monad of the checkers. *)
Definition M (A : Type) : Type := DupState → Res A * DupState.

Definition ret {A} (a : A) : M A := λ st, (Ok a, st).
Definition bind {A B} (m : M A) (k : A → M B) : M B :=
  λ st, match m st with
        | (Ok a, st') => k a st'
        | (Raise e, st') => (Raise e, st')
        end.
Definition lift {A} (r : Res A) : M A := λ st, (r, st).

Notation "'let!' x ':=' m 'in' k" := (bind m (λ x, k))
  (at level 10, x name, m at level 100, k at level 200, only parsing).

(** ** The checkers of data_checkers.py *)

Inductive CheckerClass : Type :=
  | NoImageExistenceChecker
  | ImageExtensionChecker
  | NewsPageLogoChecker
  | ImageDuplicateChecker
  | ImageDoubleColon
  | ImageBBCComNotSrc
  | StatsResearchLinks
  | Icons.

Global Instance CheckerClass_eq_dec : EqDecision CheckerClass.
Proof. solve_decision. Defined.

Definition prohibited_extensions : list string := ["gif"; "svg"].

Definition statistics_collection_sites : list string :=
  ["stats"; "scorecardresearch"; "noscript"; "top-fwz1"; "mc.yandex.ru"].

(** A string method or [in] on the image source; on [None] Python raises. *)
Definition on_src {A} (e : exn) (image : option string) (f : string → A) : Res A :=
  match image with
  | Some s => Ok (f s)
  | None => Raise e
  end.

Definition NoImageExistenceChecker_check (tag : Tag) : bool :=
  negb (truthy (tag_get tag "src")).

Definition ImageExtensionChecker_check (tag : Tag) : Res bool :=
  on_src AttributeError (tag_get tag "src") (endswith_any prohibited_extensions).

Definition NewsPageLogoChecker_check (tag : Tag) : bool :=
  String.eqb (tag_parent tag) "a".

(** Lines 172-174: the reset keyed by the instance flag. *)
Definition dup_reset (instance_flag : nat) (st : DupState) : DupState :=
  if bool_decide (instance st = Some instance_flag) then st
  else {| instance := Some instance_flag; duplicates := ∅ |}.

(** Lines 176-179: the membership test and the insertion. *)
Definition dup_test_add (image : option string) (st : DupState) : bool * DupState :=
  if bool_decide (image ∈ duplicates st) then (true, st)
  else (false, {| instance := instance st; duplicates := {[image]} ∪ duplicates st |}).

Definition ImageDuplicateChecker_check (tag : Tag) (instance_flag : nat) : M bool :=
  λ st,
    let image := tag_get tag "src" in
    let '(b, st') := dup_test_add image (dup_reset instance_flag st) in
    (Ok b, st').

Definition ImageDoubleColon_check (tag : Tag) : Res bool :=
  on_src TypeError (tag_get tag "src") (contains "::").

Definition ImageBBCComNotSrc_check (tag : Tag) : Res bool :=
  on_src TypeError (tag_get tag "src") (λ image,
    if contains "bbc" image then
      match tag_get tag "srcset" with
      | None => true
      | Some _ => contains "line" image
      end
    else false).

Definition StatsResearchLinks_check (tag : Tag) : Res bool :=
  on_src TypeError (tag_get tag "src") (λ image,
    existsb (λ site, contains site image) statistics_collection_sites).

Definition Icons_check (tag : Tag) : Res bool :=
  on_src TypeError (tag_get tag "src") re_search_icons.

Definition CaptionHrefChecker_check (tag : Tag) : bool :=
  let caption := tag_get tag "alt" in
  if truthy caption then
    match caption with
    | Some c => contains "href" c
    | None => false
    end
  else false.

(** [class_name().check(tag, instance_flag)] *)
Definition check (c : CheckerClass) (tag : Tag) (instance_flag : nat) : M bool :=
  match c with
  | NoImageExistenceChecker => ret (NoImageExistenceChecker_check tag)
  | ImageExtensionChecker => lift (ImageExtensionChecker_check tag)
  | NewsPageLogoChecker => ret (NewsPageLogoChecker_check tag)
  | ImageDuplicateChecker => ImageDuplicateChecker_check tag instance_flag
  | ImageDoubleColon => lift (ImageDoubleColon_check tag)
  | ImageBBCComNotSrc => lift (ImageBBCComNotSrc_check tag)
  | StatsResearchLinks => lift (StatsResearchLinks_check tag)
  | Icons => lift (Icons_check tag)
  end.

(** The loop [for class_name in classes: if check: return False] and the
    final [return True]. *)
Fixpoint run_checkers (classes : list CheckerClass) (tag : Tag) (instance_flag : nat)
  : M bool :=
  match classes with
  | [] => ret true
  | c :: rest =>
      let! fired := check c tag instance_flag in
      if fired then ret false else run_checkers rest tag instance_flag
  end.

Definition classes_to_check : list CheckerClass :=
  [ NoImageExistenceChecker; ImageExtensionChecker; NewsPageLogoChecker;
    ImageDuplicateChecker; ImageDoubleColon; ImageBBCComNotSrc;
    StatsResearchLinks; Icons ].

Definition html_image_checker (tag : Tag) (instance_flag : nat) : M bool :=
  run_checkers classes_to_check tag instance_flag.

Definition html_caption_checker (tag : Tag) (instance_flag : nat) : M bool :=
  ret (negb (CaptionHrefChecker_check tag)).

Definition html_data_checker (tag : Tag) (instance_flag : nat) : M bool :=
  let! ok := html_image_checker tag instance_flag in
  if negb ok then ret false
  else
    let! ok' := html_caption_checker tag instance_flag in
    if negb ok' then ret false else ret true.

(** ** The outside world: requests, urllib, dateutil, BeautifulSoup *)

Record Soup : Type := {
  soup_tags : list Tag;           (* every tag of the page, in document order *)
}.

Record Response : Type := {
  status_code : nat;
  content : Soup;                 (* [BeautifulSoup(page.content, features=...)] *)
}.

(** [str(datetime)] needs the six fields and the microseconds. *)
Record datetime : Type := {
  year : nat; month : nat; day : nat;
  hour : nat; minute : nat; second : nat; microsecond : nat;
}.

Class World : Type := {
  requests_get : string → Res Response;
  (** [urlparse(url)]: the scheme and the netloc *)
  urlparse : string → string * string;
  (** [dateutil_parser.parse(s, ignoretz=True)]; [None] when it raises *)
  dateutil_parse : string → option datetime;
  (** [BeautifulSoup(s, "lxml").get_text()] *)
  soup_get_text : string → string;
}.

(** ** web_parser.py *)

(** [soup.findAll(name)] *)
Definition findAll (soup : Soup) (name : string) : list Tag :=
  filter (λ t, tag_name t = name) (soup_tags soup).

(** [soup.find(name, ...)] with a further test on the tag *)
Definition find (soup : Soup) (name : string) (test : Tag → bool) : option Tag :=
  head (filter (λ t, test t = true) (findAll soup name)).

Definition description_header_two (soup : Soup) : option string :=
  t ← find soup "h2" (λ _, true); tag_string t.

Definition description_title (soup : Soup) : option string :=
  t ← find soup "title" (λ _, true); tag_string t.

Definition description_property_og (soup : Soup) : option string :=
  t ← find soup "meta" (λ t, bool_decide (tag_get t "property" = Some "og:description"));
  description ← tag_get t "content";
  Some (re_sub_tags description).

Definition description_tag_p_class_lead (soup : Soup) : option string :=
  t ← find soup "p" (λ t,
         match tag_get t "class" with
         | Some cls => bool_decide ("lead" ∈ String.words cls)
         | None => false
         end);
  Some (tag_text t).

Definition description_meta_tag (soup : Soup) : option string :=
  t ← find soup "meta" (λ t, bool_decide (tag_get t "name" = Some "description"));
  tag_get t "content".

Definition description_formers : list (Soup → option string) :=
  [ description_meta_tag; description_tag_p_class_lead; description_property_og;
    description_title; description_header_two ].

Record WebParser : Type := {
  self_id : nat;                  (* the identity of the object: the instance flag *)
  url : string;
  soup : Soup;
}.

(** [requests.get(url)]; a url that is [None] has no scheme. *)
Definition requests_get_opt `{World} (u : option string) : Res Response :=
  match u with
  | Some s => requests_get s
  | None => Raise MissingSchema
  end.

(** [WebParser(url=u, parser_mode="lxml")]; [id] is the identity of the
    new object. *)
Definition WebParser_init `{World} (id : nat) (u : option string) : Res WebParser :=
  res_bind (requests_get_opt u) (λ page,
    Ok {| self_id := id; url := default "" u; soup := content page |}).

Fixpoint first_description (formers : list (Soup → option string)) (sp : Soup)
  : option string :=
  match formers with
  | [] => None
  | f :: rest =>
      let description := f sp in
      if truthy description then description else first_description rest sp
  end.

Definition form_description (self : WebParser) : Res (option string) :=
  match first_description description_formers (soup self) with
  | Some description => Ok (Some description)
  | None =>
      match find (soup self) "title" (λ _, true) with
      | Some t => Ok (tag_string t)
      | None => Raise AttributeError
      end
  end.

Definition get_nested_url `{World} (tag : Tag) (page_url : string)
  : Res (option string) :=
  let '(scheme, netloc) := urlparse page_url in
  res_bind (on_src TypeError (tag_get tag "src")
              (λ image_url, scheme +:+ "://" +:+ netloc +:+ "/" +:+ image_url))
    (λ nested_url,
       res_bind (requests_get nested_url) (λ resp,
         Ok (if bool_decide (status_code resp = 404) then None else Some nested_url))).

(** The part of [get_img_data] that runs once the checkers accepted the
    tag: the nested url and the reachability probe. *)
Definition probe_img_data `{World} (tag : Tag) (page_url : string)
  : Res (option string * option string) :=
  let image_url := tag_get tag "src" in
  let caption := tag_get tag "alt" in
  res_bind (get_nested_url tag page_url) (λ nested_url,
    let image_url :=
      match nested_url with
      | Some n => if endswith_any ["jpg"; "png"] n then Some n else image_url
      | None => image_url
      end in
    match requests_get_opt image_url with
    | Raise MissingSchema | Raise InvalidSchema | Raise ConnectionError =>
        Ok (None, None)
    | Raise e => Raise e
    | Ok _ => Ok (image_url, caption)
    end).

Definition get_img_data `{World} (tag : Tag) (instance_flag : nat) (page_url : string)
  : M (option string * option string) :=
  let! accepted := html_data_checker tag instance_flag in
  if accepted then lift (probe_img_data tag page_url)
  else ret (None, None).

(** An entry of the image container: the url and the caption. *)
Definition ImgData : Type := string * option string.

Definition append_img (images_container : list ImgData)
    (d : option string * option string) : list ImgData :=
  match d with
  | (Some (String c u), caption) => (images_container ++ [(String c u, caption)])%list
  | _ => images_container
  end.

Fixpoint collect_img_loop `{World} (self : WebParser) (collected_tags : list Tag)
    (images_container : list ImgData) : M (list ImgData) :=
  match collected_tags with
  | [] => ret images_container
  | collected_tag :: rest =>
      let! d := get_img_data collected_tag (self_id self) (url self) in
      collect_img_loop self rest (append_img images_container d)
  end.

Definition _collect_img_tag_images `{World} (self : WebParser) : M (list ImgData) :=
  collect_img_loop self (findAll (soup self) "img") [].

Definition _collect_a_href_tag_images (self : WebParser) : list ImgData :=
  omap (λ link,
          match tag_get link "href" with
          | Some a_href =>
              if truthy (Some a_href) && endswith_any [".jpg"; ".png"] a_href
              then Some (a_href, Some "")
              else None
          | None => None
          end)
       (findAll (soup self) "a").

Definition form_img_data `{World} (self : WebParser) : M (list ImgData) :=
  let! img_tag_images := _collect_img_tag_images self in
  ret ([] ++ img_tag_images ++ _collect_a_href_tag_images self)%list.

(** ** Dates: [str(date)] and [str(datetime)] *)

Fixpoint zeros (k : nat) : string :=
  match k with
  | 0 => ""
  | S k' => String "0" (zeros k')
  end.

(** ["%0{w}d" % n] *)
Definition pad0 (w n : nat) : string :=
  let digits := pretty n in
  zeros (w - String.length digits) +:+ digits.

(** [str(dt.date())] *)
Definition str_date (dt : datetime) : string :=
  pad0 4 (year dt) +:+ "-" +:+ pad0 2 (month dt) +:+ "-" +:+ pad0 2 (day dt).

(** [str(dt.replace(tzinfo=None))] *)
Definition str_datetime (dt : datetime) : string :=
  str_date dt +:+ " " +:+
  pad0 2 (hour dt) +:+ ":" +:+ pad0 2 (minute dt) +:+ ":" +:+ pad0 2 (second dt) +:+
  (if bool_decide (microsecond dt = 0) then "" else "." +:+ pad0 6 (microsecond dt)).

(** [dateutil_parser.parse(s, ignoretz=True)] on a value that may be [None] *)
Definition parse_date `{World} (s : option string) : Res datetime :=
  match s with
  | None => Raise TypeError
  | Some text =>
      match dateutil_parse text with
      | Some dt => Ok dt
      | None => Raise ParserError
      end
  end.

(** ** news_object.py *)

(** A child tag of an rss item: [None] when the tag is missing, [Some None]
    when the tag is there and its [.string] is [None]. *)
Definition Child : Type := option (option string).

(** [item.child.string] *)
Definition dot_string (c : Child) : Res (option string) :=
  match c with
  | Some s => Ok s
  | None => Raise AttributeError
  end.

Record Item : Type := {
  item_title : Child;
  item_pubDate : Child;
  item_link : Child;
  item_description : Child;
}.

Record NewsObject : Type := {
  _title : string;
  _certain_rss_news : Item;
  _img_data_container : option (list ImgData);
  _html_url : option string;      (* [None]: the attribute was never set *)
  _parser : option WebParser;     (* [None]: the attribute was never set *)
}.

(** [a + b] where [a] may be [None] *)
Definition str_add (a : option string) (b : string) : Res string :=
  match a with
  | Some s => Ok (s +:+ b)
  | None => Raise TypeError
  end.

(** [NewsObject.__init__] with [_collect_img_data] inlined up to the call
    of the parser. *)
Definition NewsObject_init `{World} (id : nat) (title : string) (certain_rss_news : Item)
  : M NewsObject :=
  match dot_string (item_link certain_rss_news) with
  | Raise _ =>
      ret {| _title := title; _certain_rss_news := certain_rss_news;
             _img_data_container := None; _html_url := None; _parser := None |}
  | Ok html_url =>
      let! parser := lift (WebParser_init id html_url) in
      let! images := form_img_data parser in
      ret {| _title := title; _certain_rss_news := certain_rss_news;
             _img_data_container := Some images; _html_url := html_url;
             _parser := Some parser |}
  end.

Definition NewsObject_date `{World} (self : NewsObject) : Res string :=
  res_bind (dot_string (item_pubDate (_certain_rss_news self))) (λ date_time_str,
  res_bind (parse_date date_time_str) (λ date_time_obj,
    Ok (str_datetime date_time_obj))).

Definition no_link_sentinel : string := "Rss news doesn't provide link".

Record Header : Type := {
  h_feed : string;
  h_title : option string;
  h_date : string;
  h_link : string;
}.

Definition _form_header `{World} (self : NewsObject) : Res Header :=
  let feed := _title self +:+ newline in
  res_bind (dot_string (item_title (_certain_rss_news self))) (λ title,
  res_bind (NewsObject_date self) (λ date,
  res_bind (match _img_data_container self with
            | Some _ => dot_string (item_link (_certain_rss_news self))
            | None => Ok (Some no_link_sentinel)
            end) (λ news_link,
  res_bind (str_add news_link newline) (λ link,
    Ok {| h_feed := feed; h_title := title; h_date := date; h_link := link |})))).

(** [f"[image {counter}: {caption}][{counter}]"] *)
Definition image_marker (counter : nat) (caption : option string) : string :=
  let caption := if truthy caption then default "" caption else "no description" in
  "[image " +:+ pretty counter +:+ ": " +:+ caption +:+ "][" +:+ pretty counter +:+ "]".

Fixpoint description_loop (images : list ImgData) (description : string) (counter : nat)
  : string :=
  match images with
  | [] => description
  | (_image_url, caption) :: rest =>
      description_loop rest (description +:+ image_marker counter caption) (S counter)
  end.

(** [self._parser.form_description() + "\n"] *)
Definition parser_description (self : NewsObject) : Res string :=
  match _parser self with
  | None => Raise AttributeError
  | Some parser => res_bind (form_description parser) (λ d, str_add d newline)
  end.

Definition _form_description `{World} (self : NewsObject) : Res string :=
  let description := "" in
  let counter := 2 in
  let description :=
    match _img_data_container self with
    | Some images => description_loop images description counter
    | None => description
    end in
  res_bind
    (match dot_string (item_description (_certain_rss_news self)) with
     | Raise _ => parser_description self
     | Ok (Some rss_description) => Ok (re_sub_tags rss_description +:+ newline)
     | Ok None => parser_description self
     end)
    (λ tail, Ok (soup_get_text (description +:+ tail))).

(** A Python [dict] with string keys, in insertion order. *)
Definition Dict : Type := list (string * string).

(** [d.update({k: v})] *)
Fixpoint dict_update (d : Dict) (k v : string) : Dict :=
  match d with
  | [] => [(k, v)]
  | (k', v') :: rest =>
      if String.eqb k' k then (k', v) :: rest else (k', v') :: dict_update rest k v
  end.

Fixpoint links_loop (images : list ImgData) (links : Dict) (counter : nat) : Dict :=
  match images with
  | [] => links
  | (image_url, _caption) :: rest =>
      links_loop rest
        (dict_update links ("[" +:+ pretty counter +:+ "]") (image_url +:+ " (image)"))
        (S counter)
  end.

Definition _form_links (self : NewsObject) : Res Dict :=
  let links := [] in
  match _img_data_container self with
  | Some images =>
      res_bind (match _html_url self with
                | Some u => Ok (u +:+ " (link)")
                | None => Raise AttributeError
                end) (λ first,
        let links := dict_update links "[1]" first in
        let counter := 2 in
        Ok (links_loop images links counter))
  | None => Ok (dict_update links "[1]" no_link_sentinel)
  end.

(** The filled [news_container]. *)
Record ArticleRecord : Type := {
  feed : string;
  title : option string;
  date : string;
  link : string;
  description : string;
  links : Dict;
}.

Definition NewsObject_form_news `{World} (self : NewsObject) : Res ArticleRecord :=
  res_bind (_form_header self) (λ h,
  res_bind (_form_description self) (λ d,
  res_bind (_form_links self) (λ l,
    Ok {| feed := h_feed h; title := h_title h; date := h_date h; link := h_link h;
          description := d; links := l |}))).

(** ** parser_management.py: [ParserNewsFormer] *)

Record ParserNewsFormer : Type := {
  _rss_items : list Item;         (* [self._rss_page.find_all("item")] *)
  _former_title : string;         (* [self._rss_page.title.string] *)
  _news_limit : option Z;
  _news_date : option string;
}.

(** [lst[:stop]] *)
Definition slice_to {A} (lst : list A) (stop : Z) : list A :=
  if (0 <=? stop)%Z then take (Z.to_nat stop) lst
  else take (Z.to_nat (Z.of_nat (length lst) + stop)) lst.

Definition _form_news_limit (self : ParserNewsFormer) (list_of_news : list Item) : Z :=
  let news_on_page := Z.of_nat (length list_of_news) in
  (* [int(l) if l else l]: the limit itself, for a limit that is a number *)
  let news_limit := _news_limit self in
  match news_limit with
  | None => news_on_page
  | Some l => if (l >? news_on_page)%Z then news_on_page else l
  end.

(** [[f(x) for x in xs]], stopping at the first exception *)
Fixpoint map_res {A B} (f : A → Res B) (xs : list A) : Res (list B) :=
  match xs with
  | [] => Ok []
  | x :: rest =>
      res_bind (f x) (λ y, res_bind (map_res f rest) (λ ys, Ok (y :: ys)))
  end.

(** [str(dateutil_parser.parse(news.pubDate.string, ignoretz=True).date())] *)
Definition publication_date `{World} (news : Item) : Res string :=
  res_bind (dot_string (item_pubDate news)) (λ s,
  res_bind (parse_date s) (λ dt, Ok (str_date dt))).

Definition no_news_for_date : exn :=
  ValueError "error: no news for the specified date".

(** The loop over [enumerate(list_of_publication_dates)]. *)
Fixpoint suitable_date_loop (reformatted_date : string)
    (list_of_publication_dates : list string) (list_of_all_news : list Item)
  : list Item :=
  match list_of_publication_dates, list_of_all_news with
  | date :: dates, news :: rest =>
      if String.eqb reformatted_date date
      then news :: suitable_date_loop reformatted_date dates rest
      else suitable_date_loop reformatted_date dates rest
  | _, _ => []
  end.

Definition _form_news_list_by_date `{World} (self : ParserNewsFormer)
    (news_date : string) (list_of_all_news : list Item) : Res (list Item) :=
  res_bind (parse_date (Some news_date)) (λ dt,
    let reformatted_date := str_date dt in
    res_bind (map_res publication_date list_of_all_news)
      (λ list_of_publication_dates,
         if existsb (String.eqb reformatted_date) list_of_publication_dates then
           let list_of_all_news_with_suitable_date :=
             suitable_date_loop reformatted_date list_of_publication_dates
               list_of_all_news in
           let news_limit := _form_news_limit self list_of_all_news_with_suitable_date in
           Ok (slice_to list_of_all_news_with_suitable_date news_limit)
         else Raise no_news_for_date)).

Definition _form_news_list `{World} (self : ParserNewsFormer) : Res (list Item) :=
  let list_of_all_news := _rss_items self in
  match _news_date self with
  | None =>
      let news_limit := _form_news_limit self list_of_all_news in
      Ok (slice_to list_of_all_news news_limit)
  | Some news_date => _form_news_list_by_date self news_date list_of_all_news
  end.

(** ** The thread pool of [form_news]

    Each submitted call [NewsObject(title, item, WebParser, "lxml")] runs in
    a worker thread. The threads share the class attributes of
    [ImageDuplicateChecker] and nothing else, so a thread is cut into
    steps at its accesses to them: the reset of lines 172-174 is one
    step, the membership test and insertion of lines 176-179 start the
    next. A schedule names the thread that takes each step. *)

Inductive Thread : Type :=
  | Submitted (certain_rss_news : Item)
  | Scanning (parser : WebParser) (certain_rss_news : Item)
      (collected_tags : list Tag) (images_container : list ImgData)
  | Checking (parser : WebParser) (certain_rss_news : Item) (tag : Tag)
      (collected_tags : list Tag) (images_container : list ImgData)
  | Finished (r : Res NewsObject).

Definition checkers_before_duplicates : list CheckerClass :=
  [ NoImageExistenceChecker; ImageExtensionChecker; NewsPageLogoChecker ].

Definition checkers_after_duplicates : list CheckerClass :=
  [ ImageDoubleColon; ImageBBCComNotSrc; StatsResearchLinks; Icons ].

(** What is left of [get_img_data] once the duplicate check has passed. *)
Definition after_duplicates `{World} (tag : Tag) (instance_flag : nat) (page_url : string)
  : M (option string * option string) :=
  let! ok := run_checkers checkers_after_duplicates tag instance_flag in
  if negb ok then ret (None, None)
  else
    let! ok' := html_caption_checker tag instance_flag in
    if negb ok' then ret (None, None)
    else lift (probe_img_data tag page_url).

Definition thread_step `{World} (id : nat) (title : string) (th : Thread) (st : DupState)
  : Thread * DupState :=
  match th with
  | Submitted item =>
      match dot_string (item_link item) with
      | Raise _ =>
          (Finished (Ok {| _title := title; _certain_rss_news := item;
                           _img_data_container := None; _html_url := None;
                           _parser := None |}), st)
      | Ok html_url =>
          match WebParser_init id html_url with
          | Raise e => (Finished (Raise e), st)
          | Ok parser => (Scanning parser item (findAll (soup parser) "img") [], st)
          end
      end
  | Scanning parser item [] images =>
      (Finished (Ok {| _title := title; _certain_rss_news := item;
                       _img_data_container :=
                         Some ([] ++ images ++ _collect_a_href_tag_images parser)%list;
                       _html_url := Some (url parser);
                       _parser := Some parser |}), st)
  | Scanning parser item (tag :: rest) images =>
      match run_checkers checkers_before_duplicates tag (self_id parser) st with
      | (Raise e, st') => (Finished (Raise e), st')
      | (Ok false, st') => (Scanning parser item rest images, st')
      | (Ok true, st') => (Checking parser item tag rest images, dup_reset (self_id parser) st')
      end
  | Checking parser item tag rest images =>
      let '(duplicate, st') := dup_test_add (tag_get tag "src") st in
      if duplicate then (Scanning parser item rest images, st')
      else
        match after_duplicates tag (self_id parser) (url parser) st' with
        | (Raise e, st'') => (Finished (Raise e), st'')
        | (Ok d, st'') => (Scanning parser item rest (append_img images d), st'')
        end
  | Finished r => (Finished r, st)
  end.

(** The pool: the futures in submission order, and the shared state. *)
Definition Pool : Type := list Thread * DupState.

(** One step of thread [k]; its index is the identity of its parser. *)
Definition pool_step `{World} (title : string) (k : nat) (p : Pool) : Pool :=
  match fst p !! k with
  | Some th =>
      let '(th', st') := thread_step k title th (snd p) in
      (<[k := th']> (fst p), st')
  | None => p
  end.

Definition run_pool `{World} (title : string) (schedule : list nat) (p : Pool) : Pool :=
  foldl (λ p k, pool_step title k p) p schedule.

(** [future.result()] once the thread is done *)
Definition future_result (th : Thread) : option (Res NewsObject) :=
  match th with
  | Finished r => Some r
  | _ => None
  end.

(** The loop over [executor_pool]: [result()], [form_news()], [append]. *)
Fixpoint gather `{World} (results : list (Res NewsObject))
    (news_storage : list ArticleRecord) : Res (list ArticleRecord) :=
  match results with
  | [] => Ok news_storage
  | Ok news_object :: rest =>
      res_bind (NewsObject_form_news news_object) (λ news_container,
        gather rest (news_storage ++ [news_container])%list)
  | Raise e :: rest => Raise e
  end.

(** [ParserNewsFormer.form_news] under a schedule of the worker threads;
    [None] when the schedule leaves a worker unfinished, so that the
    executor is still waiting for it. The calls of [form_news()] on the
    finished objects read nothing that a worker writes, so the loop over
    the futures is run once the workers are done. *)
Definition form_news `{World} (self : ParserNewsFormer) (schedule : list nat)
  : option (Res (list ArticleRecord)) :=
  let news_storage := [] in
  match _form_news_list self with
  | Raise e => Some (Raise e)
  | Ok news_list =>
      let executor_pool := (Submitted <$> news_list, dup_initial) in
      let '(threads, _) := run_pool (_former_title self) schedule executor_pool in
      match mapM future_result threads with
      | Some results => Some (gather results news_storage)
      | None => None
      end
  end.

(** ** Threads on their own and threads of a pool *)

(** [n] steps of one thread with no other thread in between. *)
Fixpoint thread_steps `{World} (id : nat) (title : string) (n : nat)
    (p : Thread * DupState) : Thread * DupState :=
  match n with
  | 0 => p
  | S n' => thread_steps id title n' (thread_step id title (fst p) (snd p))
  end.

(** The object a scan ends in, from the outcome of the loop over the
    image tags. *)
Definition finish_scan (title : string) (parser : WebParser) (item : Item)
    (r : Res (list ImgData)) : Res NewsObject :=
  res_bind r (λ images,
    Ok {| _title := title; _certain_rss_news := item;
          _img_data_container :=
            Some ([] ++ images ++ _collect_a_href_tag_images parser)%list;
          _html_url := Some (url parser);
          _parser := Some parser |}).

(** The thread works on this item for the feed of this title. *)
Definition thread_for (title : string) (item : Item) (th : Thread) : Prop :=
  match th with
  | Submitted it | Scanning _ it _ _ | Checking _ it _ _ _ => it = item
  | Finished (Ok news_object) =>
      _certain_rss_news news_object = item ∧ _title news_object = title
  | Finished (Raise _) => True
  end.

(** Two scans, each with its own flag, see the shared state alike: either
    neither owns it, so that the next duplicate check of either resets it,
    or each owns it in its own run with the same seen-set. *)
Definition same_session (f1 f2 : nat) (st1 st2 : DupState) : Prop :=
  (instance st1 ≠ Some f1 ∧ instance st2 ≠ Some f2) ∨
  (instance st1 = Some f1 ∧ instance st2 = Some f2 ∧ duplicates st1 = duplicates st2).

(** The images a finished worker accepted. *)
Definition images_of (th : Thread) : option (list ImgData) :=
  match th with
  | Finished (Ok news_object) => _img_data_container news_object
  | _ => None
  end.

(** ** A small world for the examples *)

Definition mk_tag (name parent : string) (attrs : list (string * string)) : Tag :=
  {| tag_name := name; tag_attrs := list_to_map attrs; tag_parent := parent;
     tag_string := None; tag_text := "" |}.

Definition demo_page : Soup :=
  {| soup_tags :=
       [ {| tag_name := "title"; tag_attrs := ∅; tag_parent := "head";
            tag_string := Some "Demo page"; tag_text := "Demo page" |};
         mk_tag "img" "div" [("src", "http://img.example/photo.jpg"); ("alt", "a photo")];
         mk_tag "img" "div" [("src", "http://img.example/anim.gif")];
         mk_tag "a" "div" [("href", "http://img.example/photo.jpg")] ] |}.

(** A page with one image and no hyperlink. *)
Definition chart_page : Soup :=
  {| soup_tags :=
       [ mk_tag "img" "div" [("src", "http://img.example/chart.png"); ("alt", "chart")] ] |}.

Definition empty_page : Soup := {| soup_tags := [] |}.

Definition demo_get (u : string) : Res Response :=
  if String.eqb u "http://news.example/a" then Ok {| status_code := 200; content := demo_page |}
  else if String.eqb u "http://news.example/b" then Ok {| status_code := 200; content := chart_page |}
  else if String.prefix "http://down.example/" u then Raise ConnectionError
  else if String.prefix "http://img.example/" u then Ok {| status_code := 200; content := empty_page |}
  else Ok {| status_code := 404; content := empty_page |}.

Definition demo_parse (s : string) : option datetime :=
  if String.eqb s "Mon, 01 Mar 2021 10:05:00 +0300" then
    Some {| year := 2021; month := 3; day := 1; hour := 10; minute := 5; second := 0;
            microsecond := 0 |}
  else if String.eqb s "Tue, 02 Mar 2021 23:59:59 GMT" then
    Some {| year := 2021; month := 3; day := 2; hour := 23; minute := 59; second := 59;
            microsecond := 0 |}
  else if String.eqb s "2021-03-01" then
    Some {| year := 2021; month := 3; day := 1; hour := 0; minute := 0; second := 0;
            microsecond := 0 |}
  else if String.eqb s "2021-03-05" then
    Some {| year := 2021; month := 3; day := 5; hour := 0; minute := 0; second := 0;
            microsecond := 0 |}
  else None.

Definition demo_world : World :=
  {| requests_get := demo_get;
     urlparse := λ _, ("http", "news.example");
     dateutil_parse := demo_parse;
     soup_get_text := λ s, s |}.

Definition demo_item (link : Child) (pub : string) (descr : Child) : Item :=
  {| item_title := Some (Some "A title"); item_pubDate := Some (Some pub);
     item_link := link; item_description := descr |}.

Definition demo_former (items : list Item) (limit : option Z) (date : option string)
  : ParserNewsFormer :=
  {| _rss_items := items; _former_title := "Demo feed"; _news_limit := limit;
     _news_date := date |}.

Definition item_with_page : Item :=
  demo_item (Some (Some "http://news.example/a")) "Mon, 01 Mar 2021 10:05:00 +0300"
    (Some (Some "<p>Hello <b>world</b></p>")).

Definition item_with_chart : Item :=
  demo_item (Some (Some "http://news.example/b")) "Mon, 01 Mar 2021 10:05:00 +0300"
    (Some (Some "A chart")).

Definition item_without_link : Item :=
  demo_item None "Tue, 02 Mar 2021 23:59:59 GMT" (Some (Some "plain <i>text</i>")).

Definition item_without_link_and_description : Item :=
  demo_item None "Tue, 02 Mar 2021 23:59:59 GMT" None.

Definition item_with_dead_link : Item :=
  demo_item (Some (Some "http://down.example/x")) "Tue, 02 Mar 2021 23:59:59 GMT"
    (Some (Some "unreachable")).

Definition demo_parser (id : nat) : WebParser :=
  {| self_id := id; url := "http://news.example/a"; soup := demo_page |}.

Definition chart_parser (id : nat) : WebParser :=
  {| self_id := id; url := "http://news.example/b"; soup := chart_page |}.

(** A batch of two items, its second worker scheduled first. *)
Definition demo_batch : ParserNewsFormer :=
  demo_former [item_with_page; item_without_link] None None.

Definition demo_schedule : list nat := [1; 0; 0; 0; 0; 0; 0].

Definition demo_records : list ArticleRecord :=
  Eval vm_compute in
    match @form_news demo_world demo_batch demo_schedule with
    | Some (Ok out) => out
    | _ => []
    end.

(** A batch with a limit and a date. *)
Definition dated_batch : ParserNewsFormer :=
  demo_former [item_with_page; item_without_link; item_with_chart] (Some 5%Z)
    (Some "2021-03-01").

Definition dated_schedule : list nat := [0; 0; 0; 0; 0; 0; 1; 1; 1; 1].

Definition dated_records : list ArticleRecord :=
  Eval vm_compute in
    match @form_news demo_world dated_batch dated_schedule with
    | Some (Ok out) => out
    | _ => []
    end.

(** The object of a worker that scanned the demo page. *)
Definition demo_object : NewsObject :=
  {| _title := "Demo feed"; _certain_rss_news := item_with_page;
     _img_data_container :=
       Some [("http://img.example/photo.jpg", Some "a photo");
             ("http://img.example/photo.jpg", Some "")];
     _html_url := Some "http://news.example/a";
     _parser := Some (demo_parser 0) |}.

Definition demo_object_record : option ArticleRecord :=
  Eval vm_compute in
    match @NewsObject_form_news demo_world demo_object with
    | Ok r => Some r
    | Raise _ => None
    end.

(** A shared state left behind by some earlier scan. *)
Definition stale_state : DupState :=
  {| instance := Some 7; duplicates := {[ Some "http://img.example/chart.png" ]} |}.

(** ** Reading a printed date back *)

(** One of the ten digits that [str] prints a number with. *)
Definition is_digit (c : ascii) : bool :=
  ((48 <=? nat_of_ascii c)%nat && (nat_of_ascii c <=? 57)%nat)%bool.

Definition digit_value (c : ascii) : N := N.of_nat (nat_of_ascii c - 48).

(** The number spelled by the leading digits of [s], and what follows. *)
Fixpoint read_number (s : string) (acc : N) : N * string :=
  match s with
  | EmptyString => (acc, EmptyString)
  | String c t =>
      if is_digit c then read_number t (10 * acc + digit_value c)%N
      else (acc, s)
  end.

(** Year, month and day of a text "Y-M-D". *)
Definition decode_date (s : string) : N * N * N :=
  let '(y, r1) := read_number s 0 in
  match r1 with
  | String _ r1' =>
      let '(m, r2) := read_number r1' 0 in
      match r2 with
      | String _ r2' => (y, m, fst (read_number r2' 0))
      | EmptyString => (y, m, 0%N)
      end
  | EmptyString => (y, 0%N, 0%N)
  end.

(** [dt.date()] *)
Definition date_of (dt : datetime) : nat * nat * nat := (year dt, month dt, day dt).

(** ** The numbering of a record, as the specification words it *)

(** The bracketed label [[n]]. *)
Definition reference_label (n : nat) : string := "[" +:+ pretty n +:+ "]".

(** The marker of the image numbered [n]: its caption, then its label. *)
Definition marker_text (n : nat) (caption : option string) : string :=
  "[image " +:+ pretty n +:+ ": " +:+
  match caption with
  | Some (String c t) => String c t
  | _ => "no description"
  end +:+ "]" +:+ reference_label n.

Definition join (parts : list string) : string := foldr String.app "" parts.

(** One marker per image, numbered from 2, in the order of the images. *)
Definition caption_markers (images : list ImgData) : string :=
  join (imap (λ i img, marker_text (2 + i) (snd img)) images).


(** ** The selection, as the specification words it *)

(** The item was published on the day of [target], whatever the time of
    day and the time zone. *)
Definition published_on `{World} (target : datetime) (news : Item) : bool :=
  match item_pubDate news with
  | Some (Some s) =>
      match dateutil_parse s with
      | Some dt => bool_decide (date_of dt = date_of target)
      | None => false
      end
  | _ => false
  end.

Definition count_after_date_filter `{World} (self : ParserNewsFormer) : nat :=
  match _news_date self with
  | None => length (_rss_items self)
  | Some news_date =>
      match dateutil_parse news_date with
      | Some target => length (List.filter (published_on target) (_rss_items self))
      | None => 0
      end
  end.

(** [min(limit, count_after_date_filter)] with a limit, the count without. *)
Definition selection_size `{World} (self : ParserNewsFormer) : nat :=
  match _news_limit self with
  | Some limit => Z.to_nat (Z.min limit (Z.of_nat (count_after_date_filter self)))
  | None => count_after_date_filter self
  end.

(** ** The rejection rules, as the specification words them

    Rule by rule, what must hold of a candidate for it to be rejected; a
    rule about the source url does not hold of a candidate without one. *)

Definition rejection_rule (c : CheckerClass) (tag : Tag) (instance_flag : nat)
    (st : DupState) : bool :=
  let src := tag_get tag "src" in
  match c with
  | NoImageExistenceChecker =>
      match src with None => true | Some s => String.eqb s "" end
  | ImageExtensionChecker =>
      match src with Some s => endswith "gif" s || endswith "svg" s | None => false end
  | NewsPageLogoChecker => String.eqb (tag_parent tag) "a"
  | ImageDuplicateChecker =>
      bool_decide (instance st = Some instance_flag ∧ src ∈ duplicates st)
  | ImageDoubleColon =>
      match src with Some s => contains "::" s | None => false end
  | ImageBBCComNotSrc =>
      match src with
      | Some s =>
          contains "bbc" s &&
          (bool_decide (tag_get tag "srcset" = None) || contains "line" s)
      | None => false
      end
  | StatsResearchLinks =>
      match src with
      | Some s =>
          contains "stats" s || contains "scorecardresearch" s ||
          contains "noscript" s || contains "top-fwz1" s || contains "mc.yandex.ru" s
      | None => false
      end
  | Icons =>
      match src with Some s => re_search_icons s | None => false end
  end.

(** ** One scan session over several tags *)

(** The shared state after the tags have gone through [get_img_data] with
    one flag, whatever each call returned. *)
Definition after_tags `{World} (instance_flag : nat) (page_url : string)
    (tags : list Tag) (st : DupState) : DupState :=
  foldl (λ st tag, snd (get_img_data tag instance_flag page_url st)) st tags.

(** ** The url that [get_nested_url] asks for *)

Definition nested_url_of `{World} (page_url image_url : string) : string :=
  let '(scheme, netloc) := urlparse page_url in
  scheme +:+ "://" +:+ netloc +:+ "/" +:+ image_url.

(** ** Text with a tag left in it *)

(** Some ["<"] of [s] is followed on its line by a [">"]: the pattern
    ["<.*?>"] has a match in [s]. *)
Fixpoint has_tag (s : string) : bool :=
  match s with
  | EmptyString => false
  | String c t =>
      (Ascii.eqb c "<" && match scan_tag t with Some _ => true | None => false end)
      || has_tag t
  end.

(** ** The items a dated or undated run chooses from *)

Definition candidates `{World} (self : ParserNewsFormer) : list Item :=
  match _news_date self with
  | None => _rss_items self
  | Some news_date =>
      match dateutil_parse news_date with
      | Some target => List.filter (published_on target) (_rss_items self)
      | None => []
      end
  end.

(** The four fields that [_form_header] fills. *)
Definition header_of (r : ArticleRecord) : string * option string * string * string :=
  (feed r, title r, date r, link r).

(** A finished worker has images exactly when its item has a link. *)
Definition thread_linked (th : Thread) : Prop :=
  match th with
  | Submitted _ => True
  | Scanning _ it _ _ | Checking _ it _ _ _ => item_link it ≠ None
  | Finished (Ok news_object) =>
      _img_data_container news_object = None ↔
      item_link (_certain_rss_news news_object) = None
  | Finished (Raise _) => True
  end.

(** A scanning worker carries the parser that was built with its index. *)
Definition thread_owner (id : nat) (th : Thread) : Prop :=
  match th with
  | Scanning parser _ _ _ | Checking parser _ _ _ _ => self_id parser = id
  | _ => True
  end.

(** A schedule in which the workers run one after another: each block
    names a worker and the number of steps it takes in a row. *)
Definition serial_schedule (blocks : list (nat * nat)) : list nat :=
  flat_map (λ block, replicate block.2 block.1) blocks.

(** The objects that the constructor builds for the items of a selection,
    each from a state that no scan has touched. *)
Definition constructed_alone `{World} (title : string) (selection : list Item)
  : list (Res NewsObject) :=
  imap (λ i item, fst (NewsObject_init i title item dup_initial)) selection.

(** ** news_storage.py *)

(** [datetime.strptime(s, "%Y-%m-%d %H:%M:%S").strftime("%Y%m%d")], with
    the exception that [strptime] raises on a string of another form. *)
Class Strptime : Type := {
  strptime_strftime : string → Res string;
}.

(** One dict of the file: its keys in insertion order, each with the news
    stored under it. *)
Definition DateDict : Type := list (string * list ArticleRecord).

Record NewsStorage : Type := {
  storage_limit : option Z;               (* [self._news_limit] *)
  storage_file : option (list DateDict);  (* the file at [self.path]; [None]: no file *)
}.

(** [dict.get(key)] *)
Fixpoint dict_get (d : DateDict) (key : string) : option (list ArticleRecord) :=
  match d with
  | [] => None
  | (k, v) :: rest => if String.eqb k key then Some v else dict_get rest key
  end.

Definition no_storage_file : exn :=
  ValueError
    "error: news storage file doesn't exist, run program with the 'source' argument first".

(** Lines 97-101: the value of the first dict that has news under the date. *)
Fixpoint _get_news_by_date (data_from_file : list DateDict) (news_date : string)
  : Res (list ArticleRecord) :=
  match data_from_file with
  | [] => Raise no_news_for_date
  | news :: rest =>
      match dict_get news news_date with
      | Some (r :: found) => Ok (r :: found)
      | _ => _get_news_by_date rest news_date
      end
  end.

(** Lines 103-107 *)
Definition _get_all_news (data_from_file : list DateDict) : list ArticleRecord :=
  flat_map (λ news : DateDict, concat news.*2) data_from_file.

(** Lines 109-112 *)
Definition _get_reformatted_date `{Strptime} (date_to_reformat : string) : Res string :=
  strptime_strftime date_to_reformat.

(** [sorted(news, key=lambda news: news["date"])]: the sort is stable, so
    a record goes in front of the first record whose date is not before
    its own. *)
Fixpoint insert_by_date (x : ArticleRecord) (l : list ArticleRecord)
  : list ArticleRecord :=
  match l with
  | [] => [x]
  | y :: rest =>
      if String.leb (date x) (date y) then x :: y :: rest
      else y :: insert_by_date x rest
  end.

Definition sorted_by_date (news : list ArticleRecord) : list ArticleRecord :=
  foldr insert_by_date [] news.

(** [itertools.groupby] on records paired with their keys: a group is a
    run of records with the same key. *)
Fixpoint groupby (keyed : list (string * ArticleRecord))
  : list (string * list ArticleRecord) :=
  match keyed with
  | [] => []
  | (k, x) :: rest =>
      match groupby rest with
      | (k', group) :: groups =>
          if String.eqb k k' then (k, x :: group) :: groups
          else (k, [x]) :: (k', group) :: groups
      | [] => [(k, [x])]
      end
  end.

(** Lines 114-117 *)
Definition _group_news_by_date `{Strptime} (news_to_safe : list ArticleRecord)
  : Res (list DateDict) :=
  let news_sorted_by_date := sorted_by_date news_to_safe in
  res_bind (map_res (λ news, _get_reformatted_date (date news)) news_sorted_by_date)
    (λ keys,
       Ok ((λ group : string * list ArticleRecord, [group]) <$>
             groupby (zip keys news_sorted_by_date))).

(** Lines 44-55: the file is opened once the news are grouped. *)
Definition save_news_to_file `{Strptime} (self : NewsStorage)
    (news_to_save : list ArticleRecord) : Res unit * NewsStorage :=
  match _group_news_by_date news_to_save with
  | Raise e => (Raise e, self)
  | Ok grouped =>
      (Ok (), {| storage_limit := storage_limit self; storage_file := Some grouped |})
  end.

(** Lines 84-87: the news of one date, or all of them. *)
Definition news_of_file (data_from_file : list DateDict) (news_date : option string)
  : Res (list ArticleRecord) :=
  match news_date with
  | Some d => _get_news_by_date data_from_file d
  | None => Ok (_get_all_news data_from_file)
  end.

(** Lines 57-95 *)
Definition get_news_from_file (self : NewsStorage) (news_date : option string)
  : Res (list ArticleRecord) * NewsStorage :=
  match storage_file self with
  | None => (Raise no_storage_file, self)
  | Some data_from_file =>
      match news_of_file data_from_file news_date with
      | Raise e => (Raise e, self)
      | Ok news_from_file =>
          let len_of_news_from_file := Z.of_nat (length news_from_file) in
          let news_limit :=
            match storage_limit self with
            | Some limit =>
                if negb (limit =? 0)%Z && (len_of_news_from_file <? limit)%Z
                then Some len_of_news_from_file else Some limit
            | None => None
            end in
          (Ok (match news_limit with
               | Some limit => slice_to news_from_file limit
               | None => news_from_file
               end),
           {| storage_limit := news_limit; storage_file := storage_file self |})
      end
  end.

(** [ParserManager.start_processing], lines 270-272, for a manager that has
    an rss page: the news are formed, saved, and read back. The storage is
    built with the limit of the former and read with its date. *)
Definition news_from_file `{World} `{Strptime} (news_former : ParserNewsFormer)
    (schedule : list nat) (news_storage : NewsStorage)
  : option (Res (list ArticleRecord) * NewsStorage) :=
  match form_news news_former schedule with
  | None => None
  | Some (Raise e) => Some (Raise e, news_storage)
  | Some (Ok formed) =>
      match save_news_to_file news_storage formed with
      | (Raise e, news_storage') => Some (Raise e, news_storage')
      | (Ok _, news_storage') =>
          Some (get_news_from_file news_storage' (_news_date news_former))
      end
  end.

(** The order of [sorted]: by the date string. *)
Definition date_le (a b : ArticleRecord) : Prop := String.leb (date a) (date b) = true.

(** ** More of the small world *)

Definition photo_tag : Tag :=
  mk_tag "img" "div" [("src", "http://img.example/photo.jpg"); ("alt", "a photo")].

Definition gif_tag : Tag :=
  mk_tag "img" "div" [("src", "http://img.example/anim.gif")].

Definition chart_tag : Tag :=
  mk_tag "img" "div" [("src", "http://img.example/chart.png"); ("alt", "chart")].

(** An image whose caption carries a hyperlink. *)
Definition linked_caption_tag : Tag :=
  mk_tag "img" "div"
    [("src", "http://img.example/photo.jpg"); ("alt", "see <a href=x>here</a>")].

(** An object whose page has no tag at all and whose item has no
    description. *)
Definition bare_object : NewsObject :=
  {| _title := "Demo feed";
     _certain_rss_news :=
       demo_item (Some (Some "http://img.example/page")) "Tue, 02 Mar 2021 23:59:59 GMT"
         None;
     _img_data_container := Some [];
     _html_url := Some "http://img.example/page";
     _parser := Some {| self_id := 0; url := "http://img.example/page";
                        soup := empty_page |} |}.

Definition item_with_bad_date : Item :=
  demo_item None "the day before yesterday" (Some (Some "undated")).

(** Two items that link to the same page. *)
Definition twin_batch : ParserNewsFormer :=
  demo_former [item_with_page; item_with_page] None None.

Definition twin_blocks : list (nat * nat) := [(1, 6); (0, 6)].

Definition twin_interleaved : list nat := [0; 1; 0; 1; 0; 1; 0; 1; 0; 1].

Definition twin_records_serial : list ArticleRecord :=
  Eval vm_compute in
    match @form_news demo_world twin_batch (serial_schedule twin_blocks) with
    | Some (Ok out) => out
    | _ => []
    end.

Definition twin_records_interleaved : list ArticleRecord :=
  Eval vm_compute in
    match @form_news demo_world twin_batch twin_interleaved with
    | Some (Ok out) => out
    | _ => []
    end.

(** A stand-in for [strptime] and [strftime] on printed dates of nineteen
    characters. *)
Definition demo_strptime : Strptime :=
  {| strptime_strftime := λ s,
       if Nat.eqb (String.length s) 19
       then Ok (substring 0 4 s +:+ substring 5 2 s +:+ substring 8 2 s)
       else Raise (ValueError "unconverted data remains") |}.

Definition empty_storage (limit : option Z) : NewsStorage :=
  {| storage_limit := limit; storage_file := None |}.

Definition demo_storage : NewsStorage :=
  {| storage_limit := Some 5%Z;
     storage_file := Some [[("20210301", dated_records)]; [("20210302", demo_records)]] |}.

(** An image tag that has no source. *)
Definition sourceless_tag : Tag := mk_tag "img" "div" [("alt", "a drawing")].

(** The eight checkers with the first two exchanged. *)
Definition extension_first : list CheckerClass :=
  [ ImageExtensionChecker; NoImageExistenceChecker; NewsPageLogoChecker;
    ImageDuplicateChecker; ImageDoubleColon; ImageBBCComNotSrc;
    StatsResearchLinks; Icons ].





(** * Properties *)

(** ** Strings *)

Lemma endswith_refl s : endswith s s = true.
Proof. destruct s; cbn [endswith]; rewrite String.eqb_refl; reflexivity. Qed.

Lemma endswith_shorter c suf s :
  endswith (String c suf) s = true → endswith suf s = true.
Proof.
  induction s as [|c' s IH]; cbn [endswith].
  - rewrite orb_false_r. intros H%String.eqb_eq. discriminate.
  - intros [H|H]%orb_true_iff; apply orb_true_iff; right.
    + apply String.eqb_eq in H. injection H as -> ->. apply endswith_refl.
    + apply IH, H.
Qed.

Lemma prefix_split p s : String.prefix p s = true → ∃ r, s = p +:+ r.
Proof.
  revert s. induction p as [|a p IH]; intros s.
  - intros _. exists s. reflexivity.
  - destruct s as [|b s]; simpl; [discriminate|].
    destruct (ascii_dec a b) as [->|]; [|discriminate].
    intros [r ->]%IH. exists r. reflexivity.
Qed.

Lemma contains_icon_size s : contains "200x200" s = true → re_search_icons s = true.
Proof.
  induction s as [|c s IH].
  - simpl. discriminate.
  - intros H. change (contains "200x200" (String c s)) with
      (String.prefix "200x200" (String c s) || contains "200x200" s) in H.
    apply orb_true_iff in H as [H|H].
    + apply prefix_split in H as [r Hr]. rewrite Hr. reflexivity.
    + change (re_search_icons (String c s)) with
        (icons_here (String c s) || re_search_icons s).
      rewrite (IH H). apply orb_true_r.
Qed.

(** ** The acceptance filter *)

Section filter.
Context (tag : Tag) (instance_flag : nat).

Lemma check_rule c st s :
  tag_get tag "src" = Some s →
  check c tag instance_flag st =
    (Ok (rejection_rule c tag instance_flag st),
     if decide (c = ImageDuplicateChecker)
     then snd (dup_test_add (Some s) (dup_reset instance_flag st))
     else st).
Proof.
  intros Hsrc. destruct c; simpl;
    unfold ret, lift, NoImageExistenceChecker_check, ImageExtensionChecker_check,
      NewsPageLogoChecker_check, ImageDoubleColon_check, ImageBBCComNotSrc_check,
      StatsResearchLinks_check, Icons_check, ImageDuplicateChecker_check,
      rejection_rule, on_src; rewrite ?Hsrc; simpl.
  - destruct s; reflexivity.
  - rewrite orb_false_r. reflexivity.
  - reflexivity.
  - unfold dup_test_add, dup_reset.
    destruct (decide (instance st = Some instance_flag)) as [Hi|Hi].
    + rewrite (bool_decide_eq_true_2 _ Hi).
      destruct (decide (Some s ∈ duplicates st)) as [Hd|Hd].
      * rewrite (bool_decide_eq_true_2 _ Hd).
        rewrite bool_decide_eq_true_2 by done. reflexivity.
      * rewrite (bool_decide_eq_false_2 _ Hd).
        rewrite bool_decide_eq_false_2 by tauto. reflexivity.
    + rewrite (bool_decide_eq_false_2 _ Hi). simpl.
      rewrite bool_decide_eq_false_2 by set_solver.
      rewrite bool_decide_eq_false_2 by tauto. reflexivity.
  - reflexivity.
  - destruct (contains "bbc" s); simpl; [|reflexivity].
    destruct (tag_get tag "srcset"); reflexivity.
  - rewrite orb_false_r, !orb_assoc. reflexivity.
  - reflexivity.
Qed.

(** The rules other than the duplicate rule do not look at the state. *)
Lemma rejection_rule_state c st st' :
  c ≠ ImageDuplicateChecker →
  rejection_rule c tag instance_flag st = rejection_rule c tag instance_flag st'.
Proof. destruct c; intros Hc; try reflexivity. congruence. Qed.

Lemma run_checkers_stateless classes st st0 s :
  tag_get tag "src" = Some s →
  ImageDuplicateChecker ∉ classes →
  run_checkers classes tag instance_flag st =
    (Ok (negb (existsb (λ c, rejection_rule c tag instance_flag st0) classes)), st).
Proof.
  intros Hsrc. induction classes as [|c rest IH]; intros Hnot; simpl; [reflexivity|].
  unfold bind. rewrite (check_rule _ _ _ Hsrc).
  destruct (decide (c = ImageDuplicateChecker)) as [->|Hc]; [set_solver|].
  rewrite (rejection_rule_state c st st0 Hc).
  destruct (rejection_rule c tag instance_flag st0); simpl; [reflexivity|].
  apply IH. set_solver.
Qed.

Lemma run_checkers_rules classes st s :
  tag_get tag "src" = Some s →
  NoDup classes →
  fst (run_checkers classes tag instance_flag st) =
    Ok (negb (existsb (λ c, rejection_rule c tag instance_flag st) classes)).
Proof.
  intros Hsrc Hnd. revert st. induction Hnd as [|c rest Hc Hnd IH]; intros st; simpl;
    [reflexivity|].
  unfold bind. rewrite (check_rule _ _ _ Hsrc).
  destruct (rejection_rule c tag instance_flag st) eqn:Hrule; simpl; [reflexivity|].
  destruct (decide (c = ImageDuplicateChecker)) as [->|Hne].
  - rewrite (run_checkers_stateless rest _ st s Hsrc Hc). reflexivity.
  - apply IH.
Qed.

Lemma classes_to_check_NoDup : NoDup classes_to_check.
Proof. apply (bool_decide_unpack (NoDup classes_to_check)). vm_compute. exact I. Qed.

Lemma existsb_Permutation {A} (f : A → bool) (l l' : list A) :
  l ≡ₚ l' → existsb f l = existsb f l'.
Proof.
  induction 1; simpl; try congruence.
  destruct (f x), (f y); reflexivity.
Qed.

(** Without a source the first checker fires and nothing else is run. *)
Lemma html_image_checker_no_src st :
  tag_get tag "src" = None →
  html_image_checker tag instance_flag st = (Ok false, st).
Proof.
  intros Hsrc. unfold html_image_checker, classes_to_check. simpl.
  unfold bind, ret, NoImageExistenceChecker_check. rewrite Hsrc. reflexivity.
Qed.

Lemma html_image_checker_rules st :
  fst (html_image_checker tag instance_flag st) =
    Ok (negb (existsb (λ c, rejection_rule c tag instance_flag st) classes_to_check)).
Proof.
  destruct (tag_get tag "src") as [s|] eqn:Hsrc.
  - apply (run_checkers_rules _ _ s Hsrc classes_to_check_NoDup).
  - rewrite (html_image_checker_no_src _ Hsrc).
    unfold classes_to_check, existsb, rejection_rule. rewrite Hsrc. reflexivity.
Qed.

Lemma run_checkers_cons c rest st s :
  tag_get tag "src" = Some s →
  run_checkers (c :: rest) tag instance_flag st =
    let st' := if decide (c = ImageDuplicateChecker)
               then snd (dup_test_add (Some s) (dup_reset instance_flag st))
               else st in
    if rejection_rule c tag instance_flag st then (Ok false, st')
    else run_checkers rest tag instance_flag st'.
Proof.
  intros Hsrc. cbn [run_checkers]. unfold bind. rewrite (check_rule _ _ _ Hsrc).
  cbv zeta. destruct (rejection_rule c tag instance_flag st); reflexivity.
Qed.

(** Short-circuit: a rule placed before the duplicate rule rejects
    without the seen-set being consulted. *)
Lemma html_image_checker_short_circuit st :
  existsb (λ c, rejection_rule c tag instance_flag st) checkers_before_duplicates = true →
  html_image_checker tag instance_flag st = (Ok false, st).
Proof.
  destruct (tag_get tag "src") as [s|] eqn:Hsrc;
    [|intros _; apply html_image_checker_no_src, Hsrc].
  unfold html_image_checker, classes_to_check, checkers_before_duplicates.
  cbn [existsb].
  do 3 (rewrite (run_checkers_cons _ _ _ _ Hsrc); cbv zeta;
        match goal with |- context [decide (?a = ?b)] =>
          destruct (decide (a = b)) as [?|_]; [discriminate|] end;
        match goal with |- context [rejection_rule ?c tag instance_flag st] =>
          destruct (rejection_rule c tag instance_flag st); [reflexivity|] end).
  discriminate.
Qed.
(** Without a source a reordered list of checkers still cannot accept:
    the existence checker fires when its turn comes, unless a checker
    placed before it has raised on the missing source. *)
Lemma run_checkers_no_src classes st :
  tag_get tag "src" = None →
  NoImageExistenceChecker ∈ classes →
  fst (run_checkers classes tag instance_flag st) = Ok false ∨
  fst (run_checkers classes tag instance_flag st) = Raise AttributeError ∨
  fst (run_checkers classes tag instance_flag st) = Raise TypeError.
Proof.
  intros Hsrc. revert st. induction classes as [|c rest IH]; intros st Hin.
  - set_solver.
  - cbn [run_checkers]. unfold bind.
    destruct c; cbn [check];
      unfold ret, lift, NoImageExistenceChecker_check, ImageExtensionChecker_check,
        ImageDoubleColon_check, ImageBBCComNotSrc_check, StatsResearchLinks_check,
        Icons_check, ImageDuplicateChecker_check, on_src; rewrite ?Hsrc;
      cbn [truthy negb fst]; eauto.
    + destruct (NewsPageLogoChecker_check tag); [by left|].
      apply IH. by apply elem_of_cons in Hin as [?|?].
    + destruct (dup_test_add None (dup_reset instance_flag st)) as [[] st']; [by left|].
      apply IH. by apply elem_of_cons in Hin as [?|?].
Qed.

(** Without a source a run that starts with a checker of the source
    string raises at once. *)
Lemma run_checkers_no_src_raises c rest st :
  tag_get tag "src" = None →
  c ∈ [ImageExtensionChecker; ImageDoubleColon; ImageBBCComNotSrc; StatsResearchLinks;
       Icons] →
  fst (run_checkers (c :: rest) tag instance_flag st) =
    Raise (if decide (c = ImageExtensionChecker) then AttributeError else TypeError).
Proof.
  intros Hsrc Hc. cbn [run_checkers]. unfold bind.
  repeat (apply elem_of_cons in Hc as [->|Hc]);
    [| | | | |by apply elem_of_nil in Hc];
    cbn [check]; unfold lift, ImageExtensionChecker_check, ImageDoubleColon_check,
      ImageBBCComNotSrc_check, StatsResearchLinks_check, Icons_check, on_src;
    by rewrite Hsrc.
Qed.
End filter.

(** C7, as the code has it. The acceptance filter returns [False] exactly
    when at least one of the eight rejection rules holds of the candidate;
    it runs the rules in the fixed order and stops at the first that holds
    (a rule placed before the duplicate rule rejects without the seen-set
    being touched). For a candidate that has a source the verdict is the
    same under every reordering of the eight checkers. For a candidate
    without a source the fixed order rejects, the existence check being
    first; a reordered run never accepts, but it raises instead of
    rejecting when a checker of the source string comes first. A source
    ending in ".gif" is rejected, and so is a source containing
    "200x200". *)
Theorem C7_acceptance_filter (tag : Tag) (instance_flag : nat) (st : DupState) :
  (∃ accepted,
     fst (html_image_checker tag instance_flag st) = Ok accepted ∧
     (accepted = false ↔
      ∃ c, c ∈ classes_to_check ∧ rejection_rule c tag instance_flag st = true)) ∧
  (existsb (λ c, rejection_rule c tag instance_flag st) checkers_before_duplicates = true →
   html_image_checker tag instance_flag st = (Ok false, st)) ∧
  (∀ s classes,
     tag_get tag "src" = Some s →
     classes ≡ₚ classes_to_check →
     fst (run_checkers classes tag instance_flag st) =
       fst (html_image_checker tag instance_flag st)) ∧
  (tag_get tag "src" = None →
   html_image_checker tag instance_flag st = (Ok false, st) ∧
   (∀ classes,
      classes ≡ₚ classes_to_check →
      fst (run_checkers classes tag instance_flag st) = Ok false ∨
      fst (run_checkers classes tag instance_flag st) = Raise AttributeError ∨
      fst (run_checkers classes tag instance_flag st) = Raise TypeError) ∧
   (∀ c rest,
      c ∈ [ImageExtensionChecker; ImageDoubleColon; ImageBBCComNotSrc;
           StatsResearchLinks; Icons] →
      fst (run_checkers (c :: rest) tag instance_flag st) =
        Raise (if decide (c = ImageExtensionChecker) then AttributeError
               else TypeError))) ∧
  (∀ s, tag_get tag "src" = Some s → endswith ".gif" s = true →
        fst (html_image_checker tag instance_flag st) = Ok false) ∧
  (∀ s, tag_get tag "src" = Some s → contains "200x200" s = true →
        fst (html_image_checker tag instance_flag st) = Ok false).
Proof.
  pose proof (html_image_checker_rules tag instance_flag st) as Hrules.
  split; [|split; [|split; [|split; [|split]]]].
  - eexists. split; [exact Hrules|].
    rewrite negb_false_iff, existsb_exists.
    split; intros (c & Hc & Hr); exists c; split; try done;
      by apply list_elem_of_In.
  - apply html_image_checker_short_circuit.
  - intros s classes Hsrc Hperm. rewrite Hrules.
    rewrite (run_checkers_rules tag instance_flag classes st s Hsrc).
    + by rewrite (existsb_Permutation _ _ _ Hperm).
    + rewrite Hperm. apply classes_to_check_NoDup.
  - intros Hsrc. split; [by apply html_image_checker_no_src|]. split.
    + intros classes Hperm. apply run_checkers_no_src; [done|].
      rewrite Hperm. apply elem_of_cons. by left.
    + intros c rest Hc. by apply run_checkers_no_src_raises.
  - intros s Hsrc Hgif. rewrite Hrules. f_equal. apply negb_false_iff.
    apply existsb_exists. exists ImageExtensionChecker. split.
    + apply list_elem_of_In. set_solver.
    + unfold rejection_rule. rewrite Hsrc.
      by rewrite (endswith_shorter _ _ _ Hgif).
  - intros s Hsrc Hicon. rewrite Hrules. f_equal. apply negb_false_iff.
    apply existsb_exists. exists Icons. split.
    + apply list_elem_of_In. set_solver.
    + unfold rejection_rule. rewrite Hsrc. by apply contains_icon_size.
Qed.

(** ** Dates: [str(date)] can be read back *)

Lemma string_app_cons c (s r : string) : String c s +:+ r = String c (s +:+ r).
Proof. reflexivity. Qed.

Lemma string_app_nil_l (r : string) : "" +:+ r = r.
Proof. reflexivity. Qed.

Lemma string_app_nil_r (s : string) : s +:+ "" = s.
Proof. induction s; [done|]. rewrite string_app_cons. congruence. Qed.

Lemma string_app_assoc (a b c : string) : (a +:+ b) +:+ c = a +:+ (b +:+ c).
Proof. induction a; [done|]. rewrite !string_app_cons. congruence. Qed.

Lemma pretty_N_go_app x s r : pretty_N_go x s +:+ r = pretty_N_go x (s +:+ r).
Proof.
  revert s. induction (N.lt_wf_0 x) as [x _ IH]; intros s.
  destruct (decide (x = 0)%N) as [->|Hx]; [by rewrite !pretty_N_go_0|].
  rewrite (pretty_N_go_step x s), (pretty_N_go_step x (s +:+ r)) by lia.
  rewrite IH by (apply N.div_lt; lia). reflexivity.
Qed.

Lemma is_digit_pretty_N_char d :
  (d < 10)%N →
  is_digit (pretty_N_char d) = true ∧ digit_value (pretty_N_char d) = d.
Proof.
  intros Hd.
  assert (d = 0 ∨ d = 1 ∨ d = 2 ∨ d = 3 ∨ d = 4 ∨ d = 5 ∨ d = 6 ∨ d = 7 ∨ d = 8 ∨
          d = 9)%N as Hcases by lia.
  repeat (destruct Hcases as [->|Hcases]; [by vm_compute|]).
  subst d. by vm_compute.
Qed.

Lemma read_number_pretty_go x s :
  read_number (pretty_N_go x s) 0 = read_number s x.
Proof.
  revert s. induction (N.lt_wf_0 x) as [x _ IH]; intros s.
  destruct (decide (x = 0)%N) as [->|Hx]; [by rewrite pretty_N_go_0|].
  rewrite pretty_N_go_step by lia.
  rewrite IH by (apply N.div_lt; lia).
  cbn [read_number].
  destruct (is_digit_pretty_N_char (x `mod` 10)%N) as [-> ->];
    [apply N.mod_lt; lia|].
  f_equal. rewrite (N.div_mod x 10) at 3 by lia. lia.
Qed.

Lemma read_number_pretty (n : nat) (rest : string) :
  read_number (pretty n +:+ rest) 0 = read_number rest (N.of_nat n).
Proof.
  unfold pretty, pretty_nat, pretty, pretty_N.
  destruct (decide (N.of_nat n = 0)%N) as [->|Hn]; [reflexivity|].
  by rewrite pretty_N_go_app, read_number_pretty_go.
Qed.

Lemma read_number_zeros k s : read_number (zeros k +:+ s) 0 = read_number s 0.
Proof.
  induction k; [done|]. cbn [zeros]. rewrite string_app_cons. exact IHk.
Qed.

Lemma read_number_pad0 w n rest :
  read_number (pad0 w n +:+ rest) 0 = read_number rest (N.of_nat n).
Proof.
  unfold pad0. by rewrite string_app_assoc, read_number_zeros, read_number_pretty.
Qed.

Lemma decode_str_date dt :
  decode_date (str_date dt) =
    (N.of_nat (year dt), N.of_nat (month dt), N.of_nat (day dt)).
Proof.
  unfold decode_date, str_date.
  rewrite read_number_pad0, string_app_cons, string_app_nil_l.
  cbn [read_number]. change (is_digit "-") with false. cbv iota.
  rewrite read_number_pad0, string_app_cons, string_app_nil_l.
  cbn [read_number]. change (is_digit "-") with false. cbv iota.
  rewrite <- (string_app_nil_r (pad0 2 (day dt))), read_number_pad0.
  reflexivity.
Qed.

(** Two dates print alike only when they are the same day. *)
Lemma str_date_inj dt1 dt2 :
  str_date dt1 = str_date dt2 → date_of dt1 = date_of dt2.
Proof.
  intros Heq. pose proof (decode_str_date dt1) as H1.
  rewrite Heq, decode_str_date in H1. unfold date_of.
  injection H1 as Hy Hm Hd. apply Nat2N.inj in Hy, Hm, Hd. congruence.
Qed.

Lemma str_date_eqb dt1 dt2 :
  String.eqb (str_date dt1) (str_date dt2) = bool_decide (date_of dt2 = date_of dt1).
Proof.
  destruct (String.eqb_spec (str_date dt1) (str_date dt2)) as [Heq|Hne].
  - symmetry. apply bool_decide_eq_true_2. symmetry. by apply str_date_inj.
  - symmetry. apply bool_decide_eq_false_2. intros Hd. apply Hne.
    unfold date_of in Hd. unfold str_date. congruence.
Qed.

(** ** One thread on its own computes [NewsObject.__init__] *)

Lemma run_checkers_app l1 l2 tag instance_flag st :
  run_checkers (l1 ++ l2)%list tag instance_flag st =
    match run_checkers l1 tag instance_flag st with
    | (Ok true, st') => run_checkers l2 tag instance_flag st'
    | other => other
    end.
Proof.
  revert st. induction l1 as [|c l1 IH]; intros st; [reflexivity|].
  cbn [app run_checkers]. unfold bind.
  destruct (check c tag instance_flag st) as [[[]|e] st']; auto.
Qed.

Lemma get_img_data_steps `{World} tag instance_flag page_url st :
  get_img_data tag instance_flag page_url st =
    match run_checkers checkers_before_duplicates tag instance_flag st with
    | (Raise e, st') => (Raise e, st')
    | (Ok false, st') => (Ok (None, None), st')
    | (Ok true, st') =>
        let '(duplicate, st'') :=
          dup_test_add (tag_get tag "src") (dup_reset instance_flag st') in
        if duplicate then (Ok (None, None), st'')
        else after_duplicates tag instance_flag page_url st''
    end.
Proof.
  unfold get_img_data, html_data_checker, html_image_checker, after_duplicates.
  change classes_to_check with
    (checkers_before_duplicates ++ ImageDuplicateChecker :: checkers_after_duplicates)%list.
  unfold bind at 1 2. rewrite run_checkers_app.
  destruct (run_checkers checkers_before_duplicates tag instance_flag st)
    as [[[]|e] st']; try reflexivity.
  cbn [run_checkers check]. unfold bind at 1, ImageDuplicateChecker_check.
  destruct (dup_test_add (tag_get tag "src") (dup_reset instance_flag st'))
    as [[] st'']; [reflexivity|].
  unfold bind.
  destruct (run_checkers checkers_after_duplicates tag instance_flag st'')
    as [[[]|e] st3]; try reflexivity.
  cbn [negb]. unfold html_caption_checker, ret.
  destruct (negb (CaptionHrefChecker_check tag)); reflexivity.
Qed.

Lemma scanning_alone `{World} id title parser item tags images st :
  ∃ n, thread_steps id title n (Scanning parser item tags images, st) =
         (Finished (finish_scan title parser item
                      (fst (collect_img_loop parser tags images st))),
          snd (collect_img_loop parser tags images st)).
Proof.
  revert images st. induction tags as [|tag rest IH]; intros images st.
  - exists 1. reflexivity.
  - cbn [collect_img_loop]. unfold bind. rewrite get_img_data_steps.
    destruct (run_checkers checkers_before_duplicates tag (self_id parser) st)
      as [[[]|e] st'] eqn:Hbefore.
    + destruct (dup_test_add (tag_get tag "src") (dup_reset (self_id parser) st'))
        as [[] st''] eqn:Hdup.
      * destruct (IH images st'') as [n Hn]. exists (S (S n)).
        cbn [thread_steps thread_step fst snd]. rewrite Hbefore.
        cbn [thread_steps thread_step fst snd]. rewrite Hdup. exact Hn.
      * destruct (after_duplicates tag (self_id parser) (url parser) st'')
          as [[d|e] st3] eqn:Hafter.
        -- destruct (IH (append_img images d) st3) as [n Hn]. exists (S (S n)).
           cbn [thread_steps thread_step fst snd]. rewrite Hbefore.
           cbn [thread_steps thread_step fst snd]. rewrite Hdup, Hafter. exact Hn.
        -- exists 2. cbn [thread_steps thread_step fst snd]. rewrite Hbefore.
           cbn [thread_steps thread_step fst snd]. rewrite Hdup, Hafter. reflexivity.
    + destruct (IH images st') as [n Hn]. exists (S n).
      cbn [thread_steps thread_step fst snd]. rewrite Hbefore. exact Hn.
    + exists 1. cbn [thread_steps thread_step fst snd]. rewrite Hbefore. reflexivity.
Qed.

(** A worker left alone ends in the object that the constructor builds. *)
Lemma submitted_alone `{World} id title item st :
  ∃ n, thread_steps id title n (Submitted item, st) =
         (Finished (fst (NewsObject_init id title item st)),
          snd (NewsObject_init id title item st)).
Proof.
  unfold NewsObject_init.
  destruct (dot_string (item_link item)) as [html_url|e] eqn:Hlink.
  - unfold bind at 1, lift.
    destruct (WebParser_init id html_url) as [parser|e] eqn:Hparser.
    + destruct (scanning_alone id title parser item (findAll (soup parser) "img") [] st)
        as [n Hn].
      exists (S n). cbn [thread_steps thread_step fst snd]. rewrite Hlink, Hparser.
      rewrite Hn. unfold form_img_data, _collect_img_tag_images, bind, ret.
      assert (html_url = Some (url parser) ∧ self_id parser = id) as [Hu Hid].
      { unfold WebParser_init in Hparser. destruct html_url as [u|]; simpl in Hparser.
        - destruct (requests_get u); simpl in Hparser; [|discriminate].
          injection Hparser as <-. done.
        - discriminate. }
      destruct (collect_img_loop parser (findAll (soup parser) "img") [] st)
        as [[imgs|e] st']; cbn [fst snd finish_scan res_bind]; [|reflexivity].
      by rewrite Hu.
    + exists 1. cbn [thread_steps thread_step fst snd]. by rewrite Hlink, Hparser.
  - exists 1. cbn [thread_steps thread_step fst snd]. by rewrite Hlink.
Qed.

Lemma thread_terminates `{World} id title th st :
  ∃ n r st', thread_steps id title n (th, st) = (Finished r, st').
Proof.
  destruct th as [item|parser item tags images|parser item tag tags images|r].
  - destruct (submitted_alone id title item st) as [n Hn]. eauto.
  - destruct (scanning_alone id title parser item tags images st) as [n Hn]. eauto.
  - destruct (thread_step id title (Checking parser item tag tags images) st)
      as [th' st'] eqn:Hstep.
    assert (∃ n r st'', thread_steps id title n (th', st') = (Finished r, st''))
      as (n & r & st'' & Hn).
    { cbn [thread_step] in Hstep.
      destruct (dup_test_add (tag_get tag "src") st) as [[] st1].
      - injection Hstep as <- <-.
        destruct (scanning_alone id title parser item tags images st1) as [n Hn]. eauto.
      - destruct (after_duplicates tag (self_id parser) (url parser) st1)
          as [[d|e] st2]; injection Hstep as <- <-.
        + destruct (scanning_alone id title parser item tags (append_img images d) st2)
            as [n Hn]. eauto.
        + exists 0. eauto. }
    exists (S n), r, st''. cbn [thread_steps fst snd]. by rewrite Hstep.
  - exists 0. eauto.
Qed.

(** ** The pool under a schedule *)

Lemma run_pool_cons `{World} title k schedule p :
  run_pool title (k :: schedule) p = run_pool title schedule (pool_step title k p).
Proof. reflexivity. Qed.

Lemma run_pool_app `{World} title s1 s2 p :
  run_pool title (s1 ++ s2)%list p = run_pool title s2 (run_pool title s1 p).
Proof. apply foldl_app. Qed.

Lemma pool_step_length `{World} title k p :
  length (fst (pool_step title k p)) = length (fst p).
Proof.
  unfold pool_step. destruct (fst p !! k) as [th|]; [|done].
  destruct (thread_step k title th (snd p)). cbn [fst]. apply length_insert.
Qed.

Lemma run_pool_length `{World} title schedule p :
  length (fst (run_pool title schedule p)) = length (fst p).
Proof.
  revert p. induction schedule as [|k schedule IH]; intros p; [done|].
  rewrite run_pool_cons, IH. apply pool_step_length.
Qed.

(** Thread [k] running [n] steps in a row. *)
Lemma run_pool_replicate `{World} title k n threads st th :
  threads !! k = Some th →
  run_pool title (replicate n k) (threads, st) =
    (<[k := fst (thread_steps k title n (th, st))]> threads,
     snd (thread_steps k title n (th, st))).
Proof.
  revert threads st th. induction n as [|n IH]; intros threads st th Hk.
  - cbn. by rewrite list_insert_id.
  - cbn [replicate]. rewrite run_pool_cons. unfold pool_step. cbn [fst snd].
    rewrite Hk. destruct (thread_step k title th st) as [th' st'] eqn:Hstep.
    rewrite (IH _ st' th').
    + cbn [thread_steps fst snd]. rewrite Hstep. by rewrite list_insert_insert_eq.
    + apply list_lookup_insert_eq. by eapply lookup_lt_Some.
Qed.

Lemma finish_first `{World} title threads st m :
  (m ≤ length threads)%nat →
  ∃ schedule,
    ∀ j th, (j < m)%nat → fst (run_pool title schedule (threads, st)) !! j = Some th →
            is_Some (future_result th).
Proof.
  induction m as [|m IH]; intros Hm.
  - exists []. intros j th Hj. lia.
  - destruct IH as [schedule Hdone]; [lia|].
    destruct (run_pool title schedule (threads, st)) as [threads' st'] eqn:Hrun.
    assert (length threads' = length threads) as Hlen.
    { change threads' with (fst (threads', st')). rewrite <- Hrun.
      apply run_pool_length. }
    destruct (lookup_lt_is_Some_2 threads' m) as [th Hth]; [lia|].
    destruct (thread_terminates m title th st') as (n & r & st'' & Hn).
    exists (schedule ++ replicate n m)%list.
    rewrite run_pool_app, Hrun, (run_pool_replicate _ _ _ _ _ _ Hth), Hn.
    cbn [fst snd]. intros j th' Hj Hlook.
    destruct (decide (j = m)) as [->|Hne].
    + rewrite list_lookup_insert_eq in Hlook by lia. injection Hlook as <-. by eexists.
    + rewrite list_lookup_insert_ne in Hlook by done.
      apply (Hdone j); [lia|done].
Qed.

(** Some schedule lets every worker finish, so that the executor returns. *)
Lemma pool_completes `{World} title threads st :
  ∃ schedule,
    is_Some (mapM future_result (fst (run_pool title schedule (threads, st)))).
Proof.
  destruct (finish_first title threads st (length threads)) as [schedule Hdone]; [done|].
  exists schedule.
  pose proof (run_pool_length title schedule (threads, st)) as Hlen. cbn [fst] in Hlen.
  revert Hdone Hlen. generalize (fst (run_pool title schedule (threads, st))).
  intros l Hdone Hlen.
  assert (Forall (λ th, is_Some (future_result th)) l) as Hall.
  { apply Forall_lookup. intros j th Hj. apply (Hdone j); [|done].
    rewrite <- Hlen. by eapply lookup_lt_Some. }
  clear Hdone Hlen. induction Hall as [|th l [r Hr] _ [rs Hrs]]; [by eexists|].
  exists (r :: rs). cbn. rewrite Hr. cbn. by rewrite Hrs.
Qed.

Lemma thread_step_for `{World} id title item th st :
  thread_for title item th → thread_for title item (fst (thread_step id title th st)).
Proof.
  destruct th as [it|parser it tags images|parser it tag tags images|r];
    cbn [thread_for thread_step].
  - intros ->. destruct (dot_string (item_link item)) as [html_url|e]; [|done].
    by destruct (WebParser_init id html_url).
  - intros ->. destruct tags as [|tag rest]; [done|].
    by destruct (run_checkers checkers_before_duplicates tag (self_id parser) st)
      as [[[]|e] st'].
  - intros ->. destruct (dup_test_add (tag_get tag "src") st) as [[] st']; [done|].
    by destruct (after_duplicates tag (self_id parser) (url parser) st') as [[d|e] st''].
  - done.
Qed.

Lemma pool_step_for `{World} title k items p :
  Forall2 (thread_for title) items (fst p) →
  Forall2 (thread_for title) items (fst (pool_step title k p)).
Proof.
  intros Hfor. unfold pool_step. destruct (fst p !! k) as [th|] eqn:Hth; [|done].
  destruct (thread_step k title th (snd p)) as [th' st'] eqn:Hstep. cbn [fst].
  destruct (Forall2_lookup_r _ _ _ _ _ Hfor Hth) as (item & Hitem & Hthis).
  rewrite <- (list_insert_id items k item Hitem).
  apply Forall2_insert; [done|].
  change th' with (fst (th', st')). rewrite <- Hstep. by apply thread_step_for.
Qed.

Lemma run_pool_for `{World} title schedule items p :
  Forall2 (thread_for title) items (fst p) →
  Forall2 (thread_for title) items (fst (run_pool title schedule p)).
Proof.
  revert p. induction schedule as [|k schedule IH]; intros p Hfor; [done|].
  rewrite run_pool_cons. by apply IH, pool_step_for.
Qed.

Lemma submitted_for title items :
  Forall2 (thread_for title) items (Submitted <$> items).
Proof. apply Forall2_fmap_r, Forall_Forall2_diag, Forall_forall. by intros. Qed.

Lemma gather_ok `{World} results news_storage out :
  gather results news_storage = Ok out →
  ∃ rs, out = (news_storage ++ rs)%list ∧
        Forall2 (λ res r, ∃ news_object,
                   res = Ok news_object ∧ NewsObject_form_news news_object = Ok r)
                results rs.
Proof.
  revert news_storage. induction results as [|[news_object|e] rest IH];
    intros news_storage; cbn [gather].
  - intros [= <-]. exists []. by rewrite app_nil_r.
  - destruct (NewsObject_form_news news_object) as [r|e] eqn:Hform; [|done].
    cbn [res_bind]. intros (rs & -> & Hrs)%IH.
    exists (r :: rs). split; [by rewrite <- app_assoc|].
    constructor; [by eexists|done].
  - done.
Qed.

(** A failed future makes the loop raise. *)
Lemma gather_failed `{World} results news_storage i e :
  results !! i = Some (Raise e) → ∃ e', gather results news_storage = Raise e'.
Proof.
  revert news_storage i. induction results as [|[news_object|e0] rest IH];
    intros news_storage i; cbn [gather].
  - done.
  - destruct i as [|i]; [done|]. cbn. intros Hi.
    destruct (NewsObject_form_news news_object) as [r|e1]; [|by eexists].
    cbn [res_bind]. by eapply IH.
  - by eexists.
Qed.

(** ** The selection *)

Lemma slice_to_length {A} (lst : list A) (stop : Z) :
  (0 ≤ stop)%Z → length (slice_to lst stop) = Z.to_nat (Z.min stop (Z.of_nat (length lst))).
Proof.
  intros Hstop. unfold slice_to.
  destruct (Z.leb_spec 0 stop); [|lia]. rewrite length_take. lia.
Qed.

Lemma limited_length (self : ParserNewsFormer) (news : list Item) :
  (∀ l, _news_limit self = Some l → (0 ≤ l)%Z) →
  length (slice_to news (_form_news_limit self news)) =
    match _news_limit self with
    | Some limit => Z.to_nat (Z.min limit (Z.of_nat (length news)))
    | None => length news
    end.
Proof.
  intros Hlimit. unfold _form_news_limit.
  destruct (_news_limit self) as [l|].
  - specialize (Hlimit l eq_refl).
    destruct (Z.gtb_spec l (Z.of_nat (length news))); rewrite slice_to_length; lia.
  - rewrite slice_to_length; lia.
Qed.

Lemma publication_date_ok `{World} news d :
  publication_date news = Ok d →
  ∃ s dt, item_pubDate news = Some (Some s) ∧ dateutil_parse s = Some dt ∧
          d = str_date dt.
Proof.
  unfold publication_date, dot_string, parse_date.
  destruct (item_pubDate news) as [[s|]|]; cbn [res_bind]; try done.
  destruct (dateutil_parse s) as [dt|] eqn:Hparse; cbn [res_bind]; [|done].
  intros [= <-]. eauto.
Qed.

Lemma publication_date_on `{World} target news d :
  publication_date news = Ok d →
  String.eqb (str_date target) d = published_on target news.
Proof.
  intros (s & dt & Hpub & Hparse & ->)%publication_date_ok.
  unfold published_on. rewrite Hpub, Hparse. apply str_date_eqb.
Qed.

Lemma suitable_date_loop_filter `{World} target news dates :
  map_res publication_date news = Ok dates →
  suitable_date_loop (str_date target) dates news = List.filter (published_on target) news ∧
  existsb (String.eqb (str_date target)) dates = existsb (published_on target) news.
Proof.
  revert dates. induction news as [|item rest IH]; intros dates; cbn [map_res].
  - intros [= <-]. done.
  - destruct (publication_date item) as [d|e] eqn:Hd; [|done]. cbn [res_bind].
    destruct (map_res publication_date rest) as [ds|e]; [|done]. cbn [res_bind].
    intros [= <-]. destruct (IH ds eq_refl) as [IH1 IH2].
    cbn [suitable_date_loop List.filter existsb].
    rewrite (publication_date_on target item d Hd), IH1, IH2.
    by destruct (published_on target item).
Qed.

Lemma _form_news_list_length `{World} (self : ParserNewsFormer) selection :
  (∀ l, _news_limit self = Some l → (0 ≤ l)%Z) →
  _form_news_list self = Ok selection →
  length selection = selection_size self.
Proof.
  intros Hlimit. unfold _form_news_list, selection_size, count_after_date_filter.
  destruct (_news_date self) as [news_date|].
  - unfold _form_news_list_by_date, parse_date.
    destruct (dateutil_parse news_date) as [target|]; [|done]. cbn [res_bind].
    destruct (map_res publication_date (_rss_items self)) as [dates|e] eqn:Hdates;
      [|done].
    cbn [res_bind].
    destruct (suitable_date_loop_filter target _ _ Hdates) as [-> _].
    destruct (existsb _ dates); [|done]. intros [= <-].
    by apply limited_length.
  - intros [= <-]. by apply limited_length.
Qed.

(** With dates that parse and no item of the target day the selection
    raises. *)
Lemma _form_news_list_no_news `{World} (self : ParserNewsFormer) news_date target :
  _news_date self = Some news_date →
  dateutil_parse news_date = Some target →
  Forall (λ news, ∃ s dt, item_pubDate news = Some (Some s) ∧
                          dateutil_parse s = Some dt ∧
                          date_of dt ≠ date_of target) (_rss_items self) →
  _form_news_list self = Raise no_news_for_date.
Proof.
  intros Hdate Htarget Hnone.
  unfold _form_news_list, _form_news_list_by_date, parse_date.
  rewrite Hdate, Htarget. cbn [res_bind].
  assert (∃ dates, map_res publication_date (_rss_items self) = Ok dates ∧
                   existsb (published_on target) (_rss_items self) = false)
    as (dates & Hdates & Hex).
  { induction Hnone as [|news rest (s & dt & Hpub & Hparse & Hne) _ (ds & Hds & Hex)].
    - by exists [].
    - exists (str_date dt :: ds). cbn [map_res existsb].
      unfold publication_date at 1, published_on at 1, dot_string, parse_date.
      rewrite Hpub, Hds, Hex. cbn [res_bind]. rewrite !Hparse. cbn [res_bind].
      by rewrite bool_decide_eq_false_2. }
  rewrite Hdates. cbn [res_bind].
  destruct (suitable_date_loop_filter target _ _ Hdates) as [_ ->].
  by rewrite Hex.
Qed.

(** ** The batch former *)

Lemma form_news_header_title `{World} news_object r :
  NewsObject_form_news news_object = Ok r →
  dot_string (item_title (_certain_rss_news news_object)) = Ok (title r) ∧
  feed r = _title news_object +:+ newline.
Proof.
  unfold NewsObject_form_news, _form_header.
  destruct (dot_string (item_title (_certain_rss_news news_object))) as [t|e];
    [|done].
  cbn [res_bind]. destruct (NewsObject_date news_object); [|done]. cbn [res_bind].
  destruct (match _img_data_container news_object with
            | Some _ => dot_string (item_link (_certain_rss_news news_object))
            | None => Ok (Some no_link_sentinel)
            end) as [l|]; [|done].
  cbn [res_bind]. destruct (str_add l newline); [|done]. cbn [res_bind].
  destruct (_form_description news_object); [|done]. cbn [res_bind].
  destruct (_form_links news_object); [|done]. cbn [res_bind].
  by intros [= <-].
Qed.

Lemma form_news_unfold `{World} self schedule res :
  form_news self schedule = Some res →
  (∃ e, _form_news_list self = Raise e ∧ res = Raise e) ∨
  ∃ selection results,
    _form_news_list self = Ok selection ∧
    mapM future_result
      (fst (run_pool (_former_title self) schedule (Submitted <$> selection, dup_initial)))
      = Some results ∧
    res = gather results [].
Proof.
  unfold form_news. destruct (_form_news_list self) as [selection|e].
  - cbv zeta.
    destruct (run_pool (_former_title self) schedule (Submitted <$> selection, dup_initial))
      as [threads st] eqn:Hrun.
    destruct (mapM future_result threads) as [results|] eqn:Hres; [|done].
    intros [= <-]. right. exists selection, results. by rewrite Hrun.
  - intros [= <-]. left. by exists e.
Qed.

(** Position by position, the output is formed from the objects of the
    workers, and each worker's object carries the item it was submitted
    with. *)
Lemma form_news_positions `{World} (self : ParserNewsFormer) schedule out :
  form_news self schedule = Some (Ok out) →
  ∃ selection,
    _form_news_list self = Ok selection ∧
    length out = length selection ∧
    ∀ i item,
      selection !! i = Some item →
      ∃ news_object r,
        fst (run_pool (_former_title self) schedule
               (Submitted <$> selection, dup_initial)) !! i
          = Some (Finished (Ok news_object)) ∧
        _certain_rss_news news_object = item ∧
        _title news_object = _former_title self ∧
        NewsObject_form_news news_object = Ok r ∧
        out !! i = Some r ∧
        dot_string (item_title item) = Ok (title r).
Proof.
  intros Hout.
  apply form_news_unfold in Hout as [(e & _ & [=])|(selection & results & Hsel & Hres & Hg)].
  symmetry in Hg. apply gather_ok in Hg as (rs & -> & Hrs). cbn [app].
  apply mapM_Some_1 in Hres.
  pose proof (run_pool_for (_former_title self) schedule selection
                (Submitted <$> selection, dup_initial)
                (submitted_for _ selection)) as Hfor.
  exists selection. split; [done|]. split.
  { rewrite <- (Forall2_length _ _ _ Hrs), <- (Forall2_length _ _ _ Hres).
    symmetry. by eapply Forall2_length. }
  intros i item Hi.
  destruct (Forall2_lookup_l _ _ _ _ _ Hfor Hi) as (th & Hth & Hthis).
  destruct (Forall2_lookup_l _ _ _ _ _ Hres Hth) as (res & Hr & Hfut).
  destruct (Forall2_lookup_l _ _ _ _ _ Hrs Hr) as (r & Hout & news_object & -> & Hform).
  destruct th as [| | |r']; try done. injection Hfut as ->.
  destruct Hthis as [Hitem Htitle].
  exists news_object, r. repeat split; try done.
  rewrite <- Hitem. by apply form_news_header_title.
Qed.

Lemma form_news_returns `{World} (self : ParserNewsFormer) :
  ∃ schedule, is_Some (form_news self schedule).
Proof.
  unfold form_news. destruct (_form_news_list self) as [selection|e];
    [|exists []; by eexists].
  destruct (pool_completes (_former_title self) (Submitted <$> selection) dup_initial)
    as [schedule [results Hres]].
  exists schedule. cbv zeta.
  destruct (run_pool (_former_title self) schedule (Submitted <$> selection, dup_initial))
    as [threads st].
  cbn [fst] in Hres. rewrite Hres. by eexists.
Qed.

(** C1. Whatever the order in which the workers run and finish, the output
    has one record per selected item, and the record at position [i] is
    formed from the object that the worker of the item at position [i] of
    the selection built: it carries that item, its title and the feed
    title. Some schedule lets all workers finish, so the call returns. *)
Theorem C1_output_in_selection_order `{World} (self : ParserNewsFormer) :
  (∃ schedule, is_Some (form_news self schedule)) ∧
  ∀ schedule out,
    form_news self schedule = Some (Ok out) →
    ∃ selection,
      _form_news_list self = Ok selection ∧
      length out = length selection ∧
      ∀ i item,
        selection !! i = Some item →
        ∃ news_object r,
          fst (run_pool (_former_title self) schedule
                 (Submitted <$> selection, dup_initial)) !! i
            = Some (Finished (Ok news_object)) ∧
          _certain_rss_news news_object = item ∧
          _title news_object = _former_title self ∧
          NewsObject_form_news news_object = Ok r ∧
          out !! i = Some r ∧
          dot_string (item_title item) = Ok (title r).
Proof.
  split; [apply form_news_returns|]. intros schedule out. apply form_news_positions.
Qed.

(** C3. In a run that returns, the number of records is the size of the
    selection: the count of the items left by the date filter, capped by
    the limit when there is one; a limit above that count is no error. *)
Theorem C3_output_count `{World} (self : ParserNewsFormer) schedule out :
  (∀ l, _news_limit self = Some l → (0 ≤ l)%Z) →
  form_news self schedule = Some (Ok out) →
  length out = selection_size self.
Proof.
  intros Hlimit Hout.
  destruct (form_news_positions self schedule out Hout) as (selection & Hsel & -> & _).
  by apply _form_news_list_length.
Qed.

(** C8. With a target date and a feed whose publication dates all parse,
    none of them on the day of the target (time of day and zone set aside),
    the batch former raises "no news for the specified date" before any
    worker starts, and returns no records. *)
Theorem C8_no_news_for_date `{World} (self : ParserNewsFormer) news_date target schedule :
  _news_date self = Some news_date →
  dateutil_parse news_date = Some target →
  Forall (λ news, ∃ s dt, item_pubDate news = Some (Some s) ∧
                          dateutil_parse s = Some dt ∧
                          date_of dt ≠ date_of target) (_rss_items self) →
  form_news self schedule = Some (Raise no_news_for_date).
Proof.
  intros Hdate Htarget Hnone. unfold form_news.
  by rewrite (_form_news_list_no_news self news_date target Hdate Htarget Hnone).
Qed.

(** ** A page that cannot be fetched *)

Lemma failing_thread_step `{World} id title item u e th st :
  item_link item = Some u →
  requests_get_opt u = Raise e →
  th = Submitted item ∨ th = Finished (Raise e) →
  fst (thread_step id title th st) = Finished (Raise e).
Proof.
  intros Hlink Hget [->| ->]; [|done].
  cbn [thread_step]. unfold dot_string, WebParser_init. by rewrite Hlink, Hget.
Qed.

Lemma failing_pool `{World} title schedule item u e i p :
  item_link item = Some u →
  requests_get_opt u = Raise e →
  fst p !! i = Some (Submitted item) ∨ fst p !! i = Some (Finished (Raise e)) →
  fst (run_pool title schedule p) !! i = Some (Submitted item) ∨
  fst (run_pool title schedule p) !! i = Some (Finished (Raise e)).
Proof.
  intros Hlink Hget. revert p. induction schedule as [|k schedule IH]; intros p Hi;
    [done|].
  rewrite run_pool_cons. apply IH. unfold pool_step.
  destruct (fst p !! k) as [th|] eqn:Hk; [|done].
  destruct (thread_step k title th (snd p)) as [th' st'] eqn:Hstep. cbn [fst].
  destruct (decide (k = i)) as [->|Hne].
  - right. rewrite list_lookup_insert_eq by (by eapply lookup_lt_Some).
    f_equal. change th' with (fst (th', st')). rewrite <- Hstep.
    apply (failing_thread_step _ _ item u e); [done..|].
    destruct Hi as [Hi|Hi]; rewrite Hi in Hk; injection Hk as <-; auto.
  - by rewrite list_lookup_insert_ne.
Qed.

(** The loop over the futures stops at the first position that fails. *)
Lemma gather_raises_first `{World} results news_storage i e :
  results !! i = Some (Raise e) →
  Forall (λ result, ∃ news_object record,
            result = Ok news_object ∧ NewsObject_form_news news_object = Ok record)
         (take i results) →
  gather results news_storage = Raise e.
Proof.
  revert news_storage i. induction results as [|result rest IH];
    intros news_storage i Hi Hbefore; [done|].
  destruct i as [|i].
  - cbn in Hi. injection Hi as ->. done.
  - cbn [take] in Hbefore. apply Forall_cons in Hbefore as [Hfirst Hbefore].
    destruct Hfirst as (news_object & record & -> & Hrecord).
    cbn [gather]. rewrite Hrecord. cbn [res_bind]. cbn in Hi. by apply (IH _ i).
Qed.

(** The error of the loop is the error of position [i] or that of a
    position before it. *)
Lemma gather_raises_before `{World} results news_storage i e e' :
  results !! i = Some (Raise e) →
  gather results news_storage = Raise e' →
  e' = e ∨
  ∃ j, (j < i)%nat ∧
       (results !! j = Some (Raise e') ∨
        ∃ news_object, results !! j = Some (Ok news_object) ∧
                       NewsObject_form_news news_object = Raise e').
Proof.
  revert news_storage i. induction results as [|result rest IH];
    intros news_storage i Hi Hraise; [done|].
  destruct i as [|i].
  - cbn in Hi. injection Hi as ->. cbn in Hraise. left. congruence.
  - destruct result as [news_object|e0]; cbn [gather] in Hraise.
    + destruct (NewsObject_form_news news_object) as [record|e1] eqn:Hrecord;
        cbn [res_bind] in Hraise.
      * cbn in Hi. destruct (IH _ i Hi Hraise) as [->|(j & Hj & Hwhere)]; [by left|].
        right. exists (S j). split; [lia|done].
      * right. exists 0. split; [lia|]. right. exists news_object.
        split; [done|]. congruence.
    + right. exists 0. split; [lia|]. left. cbn. congruence.
Qed.

(** C4, as the code has it. The fetch of an item's own page is not guarded:
    when it raises, the worker's future holds the exception, [result()]
    raises it again in [form_news], and once the workers are done the call
    has raised, with no record for any item of the batch. The call raises
    the error of the fetch when the futures and the records of the items
    before this one are in order; otherwise it raises the error of one of
    those, which the loop over the futures meets first. Some schedule lets
    the workers finish, so that the call does end. *)
Theorem C4_page_fetch_failure_aborts `{World} (self : ParserNewsFormer) schedule
    selection i item u e :
  _form_news_list self = Ok selection →
  selection !! i = Some item →
  item_link item = Some u →
  requests_get_opt u = Raise e →
  (∃ schedule', is_Some (form_news self schedule')) ∧
  ∀ res,
    form_news self schedule = Some res →
    ∃ results,
      mapM future_result
        (fst (run_pool (_former_title self) schedule
                (Submitted <$> selection, dup_initial))) = Some results ∧
      results !! i = Some (Raise e) ∧
      (∃ e', res = Raise e' ∧
             (e' = e ∨
              ∃ j, (j < i)%nat ∧
                   (results !! j = Some (Raise e') ∨
                    ∃ news_object, results !! j = Some (Ok news_object) ∧
                                   NewsObject_form_news news_object = Raise e'))) ∧
      (Forall (λ result, ∃ news_object record,
                 result = Ok news_object ∧ NewsObject_form_news news_object = Ok record)
              (take i results) →
       res = Raise e).
Proof.
  intros Hsel Hi Hlink Hget. split; [apply form_news_returns|].
  intros res Hres.
  apply form_news_unfold in Hres
    as [(e' & Hraise & _)|(selection' & results & Hsel' & Hresults & ->)];
    [congruence|].
  rewrite Hsel in Hsel'. injection Hsel' as <-.
  exists results. split; [done|].
  apply mapM_Some_1 in Hresults.
  assert (results !! i = Some (Raise e)) as Hr.
  { destruct (failing_pool (_former_title self) schedule item u e i
                (Submitted <$> selection, dup_initial) Hlink Hget) as [Hth|Hth].
    { left. cbn [fst]. by rewrite list_lookup_fmap, Hi. }
    - destruct (Forall2_lookup_l _ _ _ _ _ Hresults Hth) as (r & _ & [=]).
    - by destruct (Forall2_lookup_l _ _ _ _ _ Hresults Hth) as (r & Hr & [= <-]). }
  split; [done|]. split.
  - destruct (gather_failed results [] i e Hr) as [e' He']. exists e'.
    split; [done|]. by apply (gather_raises_before results [] i e e').
  - by apply gather_raises_first.
Qed.

(** ** Scan sessions and the shared seen-set *)

Lemma before_duplicates_stateless tag instance_flag st :
  run_checkers checkers_before_duplicates tag instance_flag st =
    (fst (run_checkers checkers_before_duplicates tag 0 dup_initial), st).
Proof.
  cbn [run_checkers checkers_before_duplicates check]. unfold bind, ret, lift.
  destruct (NoImageExistenceChecker_check tag); [reflexivity|].
  destruct (ImageExtensionChecker_check tag) as [[]|]; try reflexivity.
  destruct (NewsPageLogoChecker_check tag); reflexivity.
Qed.

Lemma after_duplicates_stateless `{World} tag instance_flag page_url st :
  after_duplicates tag instance_flag page_url st =
    (fst (after_duplicates tag 0 page_url dup_initial), st).
Proof.
  unfold after_duplicates.
  cbn [run_checkers checkers_after_duplicates check].
  unfold bind, ret, lift, html_caption_checker, ret.
  destruct (ImageDoubleColon_check tag) as [[]|]; try reflexivity.
  destruct (ImageBBCComNotSrc_check tag) as [[]|]; try reflexivity.
  destruct (StatsResearchLinks_check tag) as [[]|]; try reflexivity.
  destruct (Icons_check tag) as [[]|]; try reflexivity.
  cbn [negb]. destruct (negb (CaptionHrefChecker_check tag)); [reflexivity|].
  cbn [negb]. destruct (probe_img_data tag page_url); reflexivity.
Qed.

(** A check with a flag other than the stored one first empties the set. *)
Lemma dup_reset_other_flag instance_flag st :
  instance st ≠ Some instance_flag →
  dup_reset instance_flag st = {| instance := Some instance_flag; duplicates := ∅ |}.
Proof. intros Hne. unfold dup_reset. by rewrite bool_decide_eq_false_2. Qed.

Lemma dup_reset_same_flag instance_flag st :
  instance st = Some instance_flag → dup_reset instance_flag st = st.
Proof. intros He. unfold dup_reset. by rewrite bool_decide_eq_true_2. Qed.

Lemma duplicate_check_session f1 f2 st1 st2 image :
  same_session f1 f2 st1 st2 →
  fst (dup_test_add image (dup_reset f1 st1)) = fst (dup_test_add image (dup_reset f2 st2)) ∧
  same_session f1 f2 (snd (dup_test_add image (dup_reset f1 st1)))
                     (snd (dup_test_add image (dup_reset f2 st2))).
Proof.
  intros [[H1 H2]|(H1 & H2 & Hd)].
  - rewrite (dup_reset_other_flag _ _ H1), (dup_reset_other_flag _ _ H2).
    unfold dup_test_add. cbn [duplicates instance].
    rewrite bool_decide_eq_false_2 by set_solver. cbn [fst snd].
    split; [done|]. by right.
  - rewrite (dup_reset_same_flag _ _ H1), (dup_reset_same_flag _ _ H2).
    unfold dup_test_add. rewrite Hd.
    destruct (bool_decide (image ∈ duplicates st2)); cbn [fst snd].
    + split; [done|]. by right.
    + split; [done|]. by right.
Qed.

Lemma get_img_data_session `{World} f1 f2 st1 st2 tag page_url :
  same_session f1 f2 st1 st2 →
  fst (get_img_data tag f1 page_url st1) = fst (get_img_data tag f2 page_url st2) ∧
  same_session f1 f2 (snd (get_img_data tag f1 page_url st1))
                     (snd (get_img_data tag f2 page_url st2)).
Proof.
  intros Hsame. rewrite !get_img_data_steps.
  rewrite (before_duplicates_stateless tag f1 st1), (before_duplicates_stateless tag f2 st2).
  destruct (fst (run_checkers checkers_before_duplicates tag 0 dup_initial))
    as [[]|e]; [|done..].
  destruct (duplicate_check_session f1 f2 st1 st2 (tag_get tag "src") Hsame)
    as [Hfst Hsnd].
  destruct (dup_test_add (tag_get tag "src") (dup_reset f1 st1)) as [d1 st1'].
  destruct (dup_test_add (tag_get tag "src") (dup_reset f2 st2)) as [d2 st2'].
  cbn [fst snd] in Hfst, Hsnd. subst d2. destruct d1; [done|].
  by rewrite (after_duplicates_stateless tag f1), (after_duplicates_stateless tag f2).
Qed.

Lemma collect_img_loop_session `{World} (p1 p2 : WebParser) tags images st1 st2 :
  url p1 = url p2 →
  same_session (self_id p1) (self_id p2) st1 st2 →
  fst (collect_img_loop p1 tags images st1) = fst (collect_img_loop p2 tags images st2) ∧
  same_session (self_id p1) (self_id p2)
    (snd (collect_img_loop p1 tags images st1))
    (snd (collect_img_loop p2 tags images st2)).
Proof.
  intros Hurl. revert images st1 st2.
  induction tags as [|tag rest IH]; intros images st1 st2 Hsame; [done|].
  cbn [collect_img_loop]. unfold bind. rewrite <- Hurl.
  destruct (get_img_data_session _ _ _ _ tag (url p1) Hsame) as [Hfst Hsnd].
  destruct (get_img_data tag (self_id p1) (url p1) st1) as [r1 st1'].
  destruct (get_img_data tag (self_id p2) (url p1) st2) as [r2 st2'].
  cbn [fst snd] in Hfst, Hsnd. subst r2. destruct r1 as [d|e]; [|done].
  by apply IH.
Qed.

Lemma form_img_data_session `{World} (p1 p2 : WebParser) st1 st2 :
  url p1 = url p2 →
  soup p1 = soup p2 →
  same_session (self_id p1) (self_id p2) st1 st2 →
  fst (form_img_data p1 st1) = fst (form_img_data p2 st2) ∧
  same_session (self_id p1) (self_id p2)
    (snd (form_img_data p1 st1)) (snd (form_img_data p2 st2)).
Proof.
  intros Hurl Hsoup Hsame.
  unfold form_img_data, _collect_img_tag_images, _collect_a_href_tag_images, bind, ret.
  rewrite <- Hsoup.
  destruct (collect_img_loop_session p1 p2 (findAll (soup p1) "img") [] st1 st2 Hurl Hsame)
    as [Hfst Hsnd].
  destruct (collect_img_loop p1 (findAll (soup p1) "img") [] st1) as [r1 st1'].
  destruct (collect_img_loop p2 (findAll (soup p1) "img") [] st2) as [r2 st2'].
  cbn [fst snd] in Hfst, Hsnd. subst r2. by destruct r1.
Qed.

(** A scan leaves the stored flag as it was or sets it to its own. *)
Lemma get_img_data_instance `{World} tag instance_flag page_url st :
  instance (snd (get_img_data tag instance_flag page_url st)) = instance st ∨
  instance (snd (get_img_data tag instance_flag page_url st)) = Some instance_flag.
Proof.
  rewrite get_img_data_steps, before_duplicates_stateless.
  destruct (fst (run_checkers checkers_before_duplicates tag 0 dup_initial))
    as [[]|e]; [|by left..].
  assert (instance (snd (dup_test_add (tag_get tag "src") (dup_reset instance_flag st)))
          = Some instance_flag) as Hinst.
  { unfold dup_test_add, dup_reset.
    destruct (decide (instance st = Some instance_flag)) as [Hi|Hi].
    - rewrite (bool_decide_eq_true_2 _ Hi). by destruct (bool_decide _).
    - rewrite (bool_decide_eq_false_2 _ Hi). by destruct (bool_decide _). }
  destruct (dup_test_add (tag_get tag "src") (dup_reset instance_flag st)) as [[] st'];
    cbn [snd] in Hinst; [by right|].
  rewrite after_duplicates_stateless. by right.
Qed.

Lemma collect_img_loop_instance `{World} (p : WebParser) tags images st :
  instance (snd (collect_img_loop p tags images st)) = instance st ∨
  instance (snd (collect_img_loop p tags images st)) = Some (self_id p).
Proof.
  revert images st. induction tags as [|tag rest IH]; intros images st; [by left|].
  cbn [collect_img_loop]. unfold bind.
  pose proof (get_img_data_instance tag (self_id p) (url p) st) as Hstep.
  destruct (get_img_data tag (self_id p) (url p) st) as [[d|e] st']; cbn [snd] in *;
    [|done].
  destruct (IH (append_img images d) st') as [Hi|Hi]; [|by right].
  rewrite Hi. done.
Qed.

Lemma form_img_data_instance `{World} (p : WebParser) st :
  instance (snd (form_img_data p st)) = instance st ∨
  instance (snd (form_img_data p st)) = Some (self_id p).
Proof.
  unfold form_img_data, _collect_img_tag_images, bind, ret.
  pose proof (collect_img_loop_instance p (findAll (soup p) "img") [] st) as Hloop.
  by destruct (collect_img_loop p (findAll (soup p) "img") [] st) as [[imgs|e] st'].
Qed.

(** C2, as the code has it. The seen-set and the flag of the scan that owns
    it are attributes of the class, shared by every scan; a duplicate check
    that arrives with a flag other than the stored one first empties the
    set. So a scan not interleaved with another scan behaves as if it had
    started from an empty seen-set, and resolving the same page in two
    sessions one after the other yields the same images both times. *)
Theorem C2_sessions_one_after_the_other `{World} (p1 p2 : WebParser) (st : DupState) :
  url p1 = url p2 →
  soup p1 = soup p2 →
  self_id p1 ≠ self_id p2 →
  instance st ≠ Some (self_id p1) →
  instance st ≠ Some (self_id p2) →
  duplicates (dup_reset (self_id p1) st) = ∅ ∧
  fst (form_img_data p1 st) = fst (form_img_data p1 dup_initial) ∧
  fst (form_img_data p2 (snd (form_img_data p1 st))) = fst (form_img_data p1 st).
Proof.
  intros Hurl Hsoup Hids H1 H2.
  split; [by rewrite dup_reset_other_flag|].
  assert (fst (form_img_data p1 st) = fst (form_img_data p1 dup_initial)) as Hfresh.
  { apply form_img_data_session; [done..|]. left. by split. }
  split; [done|]. rewrite Hfresh. symmetry.
  apply form_img_data_session; [done..|]. left. split; [done|].
  destruct (form_img_data_instance p1 st) as [-> | ->]; [done|]. congruence.
Qed.

(** ** The fields of a record *)

Lemma image_marker_text counter caption :
  image_marker counter caption = marker_text counter caption.
Proof.
  unfold image_marker, marker_text, reference_label.
  destruct caption as [[|c t]|]; cbn [truthy default];
    by rewrite ?string_app_assoc.
Qed.

Lemma description_loop_markers images description counter :
  description_loop images description counter =
    description +:+ join (imap (λ i img, marker_text (counter + i) (snd img)) images).
Proof.
  revert description counter.
  induction images as [|[image_url caption] rest IH]; intros description counter.
  - cbn. by rewrite string_app_nil_r.
  - cbn [description_loop]. rewrite IH, imap_cons. cbn [join foldr snd].
    rewrite image_marker_text, string_app_assoc, Nat.add_0_r.
    do 3 f_equal. apply imap_ext. intros i img _. cbn. do 2 f_equal. lia.
Qed.






Lemma _form_description_text `{World} (news_object : NewsObject) d :
  _form_description news_object = Ok d →
  ∃ body,
    d = soup_get_text
          (match _img_data_container news_object with
           | Some images => caption_markers images
           | None => ""
           end +:+ body +:+ newline) ∧
    match item_description (_certain_rss_news news_object) with
    | Some (Some rss_description) => body = re_sub_tags rss_description
    | _ => ∃ parser, _parser news_object = Some parser ∧
                     form_description parser = Ok (Some body)
    end.
Proof.
  unfold _form_description.
  assert (∀ tail, parser_description news_object = Ok tail →
            ∃ body parser, tail = body +:+ newline ∧ _parser news_object = Some parser ∧
                           form_description parser = Ok (Some body)) as Hfallback.
  { intros tail. unfold parser_description.
    destruct (_parser news_object) as [parser|]; [|done].
    destruct (form_description parser) as [[body|]|e] eqn:Hfd; cbn [res_bind str_add];
      [|done..].
    intros [= <-]. by exists body, parser. }
  assert (match _img_data_container news_object with
          | Some images => description_loop images "" 2
          | None => ""
          end = match _img_data_container news_object with
                | Some images => caption_markers images
                | None => ""
                end) as ->.
  { destruct (_img_data_container news_object); [|done].
    by rewrite description_loop_markers. }
  destruct (item_description (_certain_rss_news news_object)) as [[rss|]|];
    cbn [dot_string].
  - cbn [res_bind]. intros [= <-]. by exists (re_sub_tags rss).
  - destruct (parser_description news_object) as [tail|e] eqn:Htail; [|done].
    cbn [res_bind]. intros [= <-].
    destruct (Hfallback tail eq_refl) as (body & parser & -> & Hp & Hd).
    exists body. split; [done|]. by exists parser.
  - destruct (parser_description news_object) as [tail|e] eqn:Htail; [|done].
    cbn [res_bind]. intros [= <-].
    destruct (Hfallback tail eq_refl) as (body & parser & -> & Hp & Hd).
    exists body. split; [done|]. by exists parser.
Qed.

Lemma form_news_fields `{World} (news_object : NewsObject) r :
  NewsObject_form_news news_object = Ok r →
  ∃ h, _form_header news_object = Ok h ∧
       _form_description news_object = Ok (description r) ∧
       _form_links news_object = Ok (links r) ∧
       feed r = h_feed h ∧ title r = h_title h ∧ date r = h_date h ∧ link r = h_link h.
Proof.
  unfold NewsObject_form_news.
  destruct (_form_header news_object) as [h|]; [|done]. cbn [res_bind].
  destruct (_form_description news_object) as [d|]; [|done]. cbn [res_bind].
  destruct (_form_links news_object) as [l|]; [|done]. cbn [res_bind].
  intros [= <-]. by exists h.
Qed.



(** ** What removing the tags leaves *)

Lemma scan_tag_shorter s rest :
  scan_tag s = Some rest → (String.length rest < String.length s)%nat.
Proof.
  revert rest. induction s as [|c s IH]; intros rest; cbn [scan_tag String.length];
    [done|].
  destruct (Ascii.eqb c ">").
  - intros [= ->]. lia.
  - destruct (Ascii.eqb c (ascii_of_nat 10)); [done|].
    intros Hrest%IH. lia.
Qed.

(** Removing tags from a line that has no [">"] leaves it without one. *)
Lemma scan_tag_re_sub fuel s :
  scan_tag s = None → scan_tag (re_sub_tags_fuel fuel s) = None.
Proof.
  revert s. induction fuel as [|fuel IH]; intros s; [done|].
  destruct s as [|c t]; [done|]. cbn [scan_tag re_sub_tags_fuel].
  destruct (Ascii.eqb_spec c ">") as [->|Hgt]; [done|].
  destruct (Ascii.eqb_spec c (ascii_of_nat 10)) as [->|Hnl].
  - intros _. cbn [Ascii.eqb scan_tag]. done.
  - intros Hnone. rewrite Hnone.
    assert (scan_tag (String c (re_sub_tags_fuel fuel t)) = None) as Hkeep.
    { cbn [scan_tag].
      destruct (Ascii.eqb_spec c ">") as [?|_]; [done|].
      destruct (Ascii.eqb_spec c (ascii_of_nat 10)) as [?|_]; [done|].
      by apply IH. }
    by destruct (Ascii.eqb c "<").
Qed.

Lemma re_sub_tags_fuel_no_tag fuel s :
  (String.length s ≤ fuel)%nat → has_tag (re_sub_tags_fuel fuel s) = false.
Proof.
  revert s. induction fuel as [|fuel IH]; intros s Hlen.
  - destruct s; [done|]. cbn in Hlen. lia.
  - destruct s as [|c t]; [done|]. cbn [String.length] in Hlen.
    cbn [re_sub_tags_fuel].
    destruct (Ascii.eqb_spec c "<") as [->|Hlt].
    + destruct (scan_tag t) as [rest|] eqn:Hscan.
      * apply IH. apply scan_tag_shorter in Hscan. lia.
      * cbn [has_tag]. rewrite (scan_tag_re_sub fuel t Hscan).
        rewrite andb_false_r. apply IH. lia.
    + cbn [has_tag]. destruct (Ascii.eqb_spec c "<") as [?|_]; [done|].
      apply IH. lia.
Qed.

Lemma re_sub_tags_fuel_id fuel s :
  has_tag s = false → re_sub_tags_fuel fuel s = s.
Proof.
  revert s. induction fuel as [|fuel IH]; intros s; [done|].
  destruct s as [|c t]; [done|]. cbn [has_tag re_sub_tags_fuel].
  intros [Hhere Hrest]%orb_false_iff.
  destruct (Ascii.eqb c "<"); cbn [andb] in Hhere.
  - destruct (scan_tag t); [done|]. by rewrite IH.
  - by rewrite IH.
Qed.

Lemma re_sub_tags_fuel_length fuel s :
  (String.length (re_sub_tags_fuel fuel s) ≤ String.length s)%nat.
Proof.
  revert s. induction (lt_wf fuel) as [fuel _ IH]; intros s.
  destruct fuel as [|fuel]; [done|]. destruct s as [|c t]; [done|].
  cbn [re_sub_tags_fuel].
  assert (String.length (String c (re_sub_tags_fuel fuel t))
          ≤ String.length (String c t))%nat as Hkeep.
  { cbn [String.length]. specialize (IH fuel (Nat.lt_succ_diag_r fuel) t). lia. }
  destruct (Ascii.eqb c "<"); [|done].
  destruct (scan_tag t) as [rest|] eqn:Hscan; [|done].
  apply scan_tag_shorter in Hscan.
  specialize (IH fuel (Nat.lt_succ_diag_r fuel) rest). cbn [String.length]. lia.
Qed.


(** ** Which fields end in a line break *)

Lemma endswith_newline_cons c s :
  s ≠ "" → endswith newline (String c s) = endswith newline s.
Proof.
  intros Hs. cbn [endswith]. destruct s as [|c' s]; [done|].
  unfold newline at 1. cbn [String.eqb]. by destruct (Ascii.eqb c _).
Qed.

Lemma endswith_newline_app s t :
  t ≠ "" → endswith newline (s +:+ t) = endswith newline t.
Proof.
  intros Ht. induction s as [|c s IH]; [done|].
  rewrite string_app_cons, endswith_newline_cons; [done|].
  destruct s; [done|]. by rewrite string_app_cons.
Qed.

Lemma pretty_N_go_last x s :
  s ≠ "" →
  pretty_N_go x s ≠ "" ∧ endswith newline (pretty_N_go x s) = endswith newline s.
Proof.
  revert s. induction (N.lt_wf_0 x) as [x _ IH]; intros s Hs.
  destruct (decide (x = 0)%N) as [->|Hx]; [by rewrite pretty_N_go_0|].
  rewrite pretty_N_go_step by lia.
  destruct (IH (x `div` 10)%N) with (s := String (pretty_N_char (x `mod` 10)) s)
    as [Hne Hlast]; [apply N.div_lt; lia|done|].
  split; [done|]. rewrite Hlast. by apply endswith_newline_cons.
Qed.

Lemma pretty_nat_last (n : nat) :
  pretty n ≠ "" ∧ endswith newline (pretty n) = false.
Proof.
  unfold pretty, pretty_nat, pretty, pretty_N.
  destruct (decide (N.of_nat n = 0)%N) as [_|Hn]; [done|].
  rewrite pretty_N_go_step by lia.
  destruct (pretty_N_go_last (N.of_nat n `div` 10)
              (String (pretty_N_char (N.of_nat n `mod` 10)) "")) as [Hne ->]; [done|].
  split; [done|].
  destruct (is_digit_pretty_N_char (N.of_nat n `mod` 10)%N) as [Hdigit _];
    [apply N.mod_lt; lia|].
  cbn [endswith]. rewrite orb_false_r. unfold newline. cbn [String.eqb].
  destruct (Ascii.eqb_spec (pretty_N_char (N.of_nat n `mod` 10)) (ascii_of_nat 10))
    as [Heq|]; [|done].
  rewrite Heq in Hdigit. by vm_compute in Hdigit.
Qed.

Lemma pad0_last w n : pad0 w n ≠ "" ∧ endswith newline (pad0 w n) = false.
Proof.
  destruct (pretty_nat_last n) as [Hne Hlast]. unfold pad0. split.
  - destruct (zeros _); [done|]. by rewrite string_app_cons.
  - by rewrite endswith_newline_app.
Qed.

Lemma app_not_empty_r (s t : string) : t ≠ "" → s +:+ t ≠ "".
Proof. intros Ht. destruct s; [done|]. by rewrite string_app_cons. Qed.

(** [str(datetime)] ends in a digit. *)
Lemma str_datetime_last dt : endswith newline (str_datetime dt) = false.
Proof.
  unfold str_datetime.
  destruct (pad0_last 2 (second dt)) as [Hs1 Hs2].
  destruct (pad0_last 6 (microsecond dt)) as [Hm1 Hm2].
  assert (∀ tail, (tail = "" ∨ (tail ≠ "" ∧ endswith newline tail = false)) →
            pad0 2 (second dt) +:+ tail ≠ "" ∧
            endswith newline (pad0 2 (second dt) +:+ tail) = false) as Hsec.
  { intros tail [->|[Hne Hlast]].
    - by rewrite string_app_nil_r.
    - split; [by apply app_not_empty_r|]. by rewrite endswith_newline_app. }
  destruct (Hsec (if bool_decide (microsecond dt = 0) then ""
                  else "." +:+ pad0 6 (microsecond dt))) as [Hne Hlast].
  { destruct (bool_decide (microsecond dt = 0)); [by left|right].
    split; [done|]. by rewrite endswith_newline_app. }
  rewrite endswith_newline_app by (do 5 apply app_not_empty_r; exact Hne).
  rewrite endswith_newline_app by (do 4 apply app_not_empty_r; exact Hne).
  rewrite endswith_newline_app by (do 3 apply app_not_empty_r; exact Hne).
  rewrite endswith_newline_app by (do 2 apply app_not_empty_r; exact Hne).
  rewrite endswith_newline_app by (apply app_not_empty_r; exact Hne).
  rewrite endswith_newline_app by exact Hne.
  exact Hlast.
Qed.

Lemma _form_header_fields `{World} (news_object : NewsObject) h :
  _form_header news_object = Ok h →
  h_feed h = _title news_object +:+ newline ∧
  (∃ news_link,
     h_link h = news_link +:+ newline ∧
     match _img_data_container news_object with
     | Some _ => item_link (_certain_rss_news news_object) = Some (Some news_link)
     | None => news_link = no_link_sentinel
     end) ∧
  item_title (_certain_rss_news news_object) = Some (h_title h) ∧
  ∃ s dt, item_pubDate (_certain_rss_news news_object) = Some (Some s) ∧
          dateutil_parse s = Some dt ∧ h_date h = str_datetime dt.
Proof.
  unfold _form_header, NewsObject_date, dot_string, parse_date.
  destruct (item_title (_certain_rss_news news_object)) as [t|]; [|done].
  cbn [res_bind].
  destruct (item_pubDate (_certain_rss_news news_object)) as [[s|]|]; [|done..].
  cbn [res_bind]. destruct (dateutil_parse s) as [dt|] eqn:Hdt; [|done].
  cbn [res_bind].
  destruct (_img_data_container news_object) as [images|].
  - destruct (item_link (_certain_rss_news news_object)) as [[l|]|]; [|done..].
    cbn [res_bind str_add]. intros [= <-]. cbn.
    repeat split; try done; eauto.
  - cbn [res_bind str_add]. intros [= <-]. cbn.
    repeat split; try done; eauto.
Qed.

(** C9, as the code has it. The feed field is the feed title with one line
    break appended, and the link field has one appended in the same way,
    to the link of the item or to the sentinel; the title is the title of
    the item as it stands; the date is the printed date and time and does
    not end in a line break; the description is the text extracted from a
    string that ends in a line break. *)
Theorem C9_fields_and_line_breaks `{World} (news_object : NewsObject) r :
  NewsObject_form_news news_object = Ok r →
  feed r = _title news_object +:+ newline ∧
  (∃ news_link,
     link r = news_link +:+ newline ∧
     match _img_data_container news_object with
     | Some _ => item_link (_certain_rss_news news_object) = Some (Some news_link)
     | None => news_link = no_link_sentinel
     end) ∧
  item_title (_certain_rss_news news_object) = Some (title r) ∧
  (∃ s dt, item_pubDate (_certain_rss_news news_object) = Some (Some s) ∧
           dateutil_parse s = Some dt ∧ date r = str_datetime dt) ∧
  endswith newline (date r) = false ∧
  ∃ text, description r = soup_get_text (text +:+ newline).
Proof.
  intros (h & Hh & Hd & _ & -> & -> & -> & ->)%form_news_fields.
  apply _form_header_fields in Hh as (Hfeed & Hlink & Htitle & s & dt & Hpub & Hdt & Hdate).
  repeat split; try done.
  - by exists s, dt.
  - rewrite Hdate. apply str_datetime_last.
  - apply _form_description_text in Hd as (body & Hd & _).
    rewrite Hd, <- string_app_assoc. by eexists.
Qed.

(** Without a parser there is no description to fall back on. *)
Lemma _form_description_no_parser `{World} (news_object : NewsObject) :
  _parser news_object = None →
  (item_description (_certain_rss_news news_object) = None ∨
   item_description (_certain_rss_news news_object) = Some None) →
  _form_description news_object = Raise AttributeError.
Proof.
  intros Hp Hd. unfold _form_description, parser_description. rewrite Hp.
  by destruct Hd as [-> | ->].
Qed.

(** What an item without a link gives when it has a description. *)
Lemma no_link_record `{World} id title item st r :
  item_link item = None →
  res_bind (fst (NewsObject_init id title item st)) NewsObject_form_news = Ok r →
  snd (NewsObject_init id title item st) = st ∧
  link r = no_link_sentinel +:+ newline ∧
  links r = [("[1]", no_link_sentinel)] ∧
  ∃ rss_description,
    item_description item = Some (Some rss_description) ∧
    description r = soup_get_text (re_sub_tags rss_description +:+ newline).
Proof.
  intros Hlink. unfold NewsObject_init. rewrite Hlink. cbn [dot_string ret fst snd res_bind].
  intros (h & Hh & Hd & Hl & _ & _ & _ & ->)%form_news_fields.
  split; [done|].
  apply _form_header_fields in Hh as (_ & (l & -> & Hsent) & _).
  cbn in Hsent. subst l. split; [done|].
  cbn in Hl. injection Hl as <-. split; [done|].
  destruct (item_description item) as [[rss|]|] eqn:Hdescr.
  - exists rss. split; [done|].
    apply _form_description_text in Hd as (body & Hd & Hbody). cbn in Hd, Hbody.
    rewrite Hdescr in Hbody. by subst body.
  - rewrite _form_description_no_parser in Hd; [done..|]. cbn. auto.
  - rewrite _form_description_no_parser in Hd; [done..|]. cbn. auto.
Qed.

(** ** Images behind hyperlinks *)

Lemma a_href_collected (self : WebParser) link a_href :
  link ∈ soup_tags (soup self) →
  tag_name link = "a" →
  tag_get link "href" = Some a_href →
  endswith_any [".jpg"; ".png"] a_href = true →
  (a_href, Some "") ∈ _collect_a_href_tag_images self.
Proof.
  intros Hin Hname Hhref Hends. unfold _collect_a_href_tag_images.
  apply list_elem_of_omap. exists link. split.
  - unfold findAll. by apply list_elem_of_filter.
  - rewrite Hhref, Hends. destruct a_href; [done|]. done.
Qed.

Lemma form_img_data_parts `{World} (self : WebParser) st :
  form_img_data self st =
    (res_bind (fst (_collect_img_tag_images self st))
       (λ images, Ok (images ++ _collect_a_href_tag_images self)%list),
     snd (_collect_img_tag_images self st)).
Proof.
  unfold form_img_data, bind, ret.
  by destruct (_collect_img_tag_images self st) as [[images|e] st'].
Qed.

(** C10. The images behind hyperlinks are collected by a function of the
    page alone, with no checker and no seen-set in it, from every <a>
    whose href ends in ".jpg" or ".png", with an empty caption, and they
    are appended after the images of the <img> tags; so there is a page on
    which the scan of the <img> tags accepts a url that is also the target
    of such a hyperlink, and the final list holds that url twice. *)
Theorem C10_hyperlink_images_unfiltered :
  (∀ (W : World) (self : WebParser) st images,
     fst (_collect_img_tag_images self st) = Ok images →
     fst (form_img_data self st) = Ok (images ++ _collect_a_href_tag_images self)%list) ∧
  (∀ (self : WebParser) link a_href,
     link ∈ soup_tags (soup self) →
     tag_name link = "a" →
     tag_get link "href" = Some a_href →
     endswith_any [".jpg"; ".png"] a_href = true →
     (a_href, Some "") ∈ _collect_a_href_tag_images self) ∧
  (∃ (W : World) (self : WebParser) image_url caption images,
     fst (_collect_img_tag_images self dup_initial) = Ok [(image_url, caption)] ∧
     (image_url, Some "") ∈ _collect_a_href_tag_images self ∧
     fst (form_img_data self dup_initial) = Ok images ∧
     length (filter (λ img, fst img = image_url) images) = 2).
Proof.
  split; [|split].
  - intros W self st images Himg. by rewrite form_img_data_parts, Himg.
  - apply a_href_collected.
  - exists demo_world, (demo_parser 0), "http://img.example/photo.jpg", (Some "a photo").
    eexists. split; [by vm_compute|]. split.
    + apply (a_href_collected (demo_parser 0)
               (mk_tag "a" "div" [("href", "http://img.example/photo.jpg")]));
        [|done|done|done].
      cbn. set_solver.
    + split; [by vm_compute|]. by vm_compute.
Qed.

(** ** Where the specification and the code part ways *)

(** Two workers scan the same page at the same time. The first resets the
    shared seen-set and is preempted before its membership test; the second
    resets it again, accepts the image and leaves it in the set; the first
    then finds the image there and drops it as a duplicate. The two
    sessions of one page end with different images, and a session run alone
    accepts the image. *)
Lemma C2_counterexample :
  images_of <$>
    fst (@run_pool demo_world "Demo feed" [0; 0; 1; 1; 1; 0; 0; 1]
           (Submitted <$> [item_with_chart; item_with_chart], dup_initial))
    = [Some []; Some [("http://img.example/chart.png", Some "chart")]] ∧
  fst (@form_img_data demo_world (chart_parser 0) dup_initial)
    = Ok [("http://img.example/chart.png", Some "chart")].
Proof. split; by vm_compute. Qed.

(** The second item has a link and a description of its own, its page
    cannot be fetched, and the whole batch raises: no record comes out,
    not even for the first item. *)
Lemma C4_counterexample :
  item_link item_with_dead_link = Some (Some "http://down.example/x") ∧
  @requests_get demo_world "http://down.example/x" = Raise ConnectionError ∧
  @form_news demo_world (demo_former [item_with_page; item_with_dead_link] None None)
    [0; 0; 0; 0; 0; 0; 1] = Some (Raise ConnectionError).
Proof. repeat split; by vm_compute. Qed.

(** The link field of both records ends in a line break. *)
Lemma C9_counterexample :
  @form_news demo_world demo_batch demo_schedule = Some (Ok demo_records) ∧
  (λ r, endswith newline (link r)) <$> demo_records = [true; true].
Proof. split; by vm_compute. Qed.


(** An image tag without a source. In the order of the code the existence
    check comes first and the filter rejects; with the extension check
    moved to the front the same eight checks raise, so that the outcome
    does depend on the order. *)
Lemma C7_counterexample :
  extension_first ≡ₚ classes_to_check ∧
  tag_get sourceless_tag "src" = None ∧
  fst (html_image_checker sourceless_tag 0 dup_initial) = Ok false ∧
  fst (run_checkers extension_first sourceless_tag 0 dup_initial) = Raise AttributeError.
Proof.
  split; [apply Permutation_swap|]. repeat split; by vm_compute.
Qed.

(** The size pattern of the icons with digits of another script: an
    Arabic-Indic three, for which [\d] stands as well. *)
Lemma re_search_icons_other_script :
  re_search_icons
    (String (ascii_of_nat 217) (String (ascii_of_nat 163) "0x10")) = true ∧
  re_search_icons "a0x10" = false.
Proof. split; by vm_compute. Qed.

(** C5. An item with neither a link nor a description: the specification
    asks for a record with the "no description" sentinel; the code reads
    [self._parser], which was never set, and raises. *)
Theorem C5_no_link_no_description_raises :
  item_link item_without_link_and_description = None ∧
  item_description item_without_link_and_description = None ∧
  @form_news demo_world (demo_former [item_without_link_and_description] None None) [0]
    = Some (Raise AttributeError).
Proof. repeat split; by vm_compute. Qed.

(** ** The theorems at concrete inputs *)

Lemma C1_witness :
  @form_news demo_world demo_batch demo_schedule = Some (Ok demo_records) ∧
  ∃ selection,
    @_form_news_list demo_world demo_batch = Ok selection ∧
    length demo_records = length selection ∧
    ∀ i item,
      selection !! i = Some item →
      ∃ news_object r,
        fst (@run_pool demo_world (_former_title demo_batch) demo_schedule
               (Submitted <$> selection, dup_initial)) !! i
          = Some (Finished (Ok news_object)) ∧
        _certain_rss_news news_object = item ∧
        _title news_object = _former_title demo_batch ∧
        @NewsObject_form_news demo_world news_object = Ok r ∧
        demo_records !! i = Some r ∧
        dot_string (item_title item) = Ok (title r).
Proof.
  split; [by vm_compute|].
  apply (proj2 (@C1_output_in_selection_order demo_world demo_batch)
           demo_schedule demo_records).
  by vm_compute.
Defined.

Lemma C2_witness :
  duplicates (dup_reset (self_id (chart_parser 1)) stale_state) = ∅ ∧
  fst (@form_img_data demo_world (chart_parser 1) stale_state)
    = fst (@form_img_data demo_world (chart_parser 1) dup_initial) ∧
  fst (@form_img_data demo_world (chart_parser 2)
         (snd (@form_img_data demo_world (chart_parser 1) stale_state)))
    = fst (@form_img_data demo_world (chart_parser 1) stale_state).
Proof.
  apply (@C2_sessions_one_after_the_other demo_world (chart_parser 1) (chart_parser 2)
           stale_state); [reflexivity|reflexivity|..]; cbn; intros [=].
Defined.

Lemma C3_witness :
  @form_news demo_world dated_batch dated_schedule = Some (Ok dated_records) ∧
  length dated_records = @selection_size demo_world dated_batch.
Proof.
  split; [by vm_compute|].
  apply (@C3_output_count demo_world dated_batch dated_schedule dated_records).
  - intros l [= <-]. lia.
  - by vm_compute.
Defined.

Lemma C4_witness :
  @form_news demo_world (demo_former [item_with_page; item_with_dead_link] None None)
    [0; 0; 0; 0; 0; 0; 1] = Some (Raise ConnectionError).
Proof.
  destruct (@form_news demo_world
              (demo_former [item_with_page; item_with_dead_link] None None)
              [0; 0; 0; 0; 0; 0; 1]) as [res|] eqn:Hres; [|by vm_compute in Hres].
  destruct (proj2 (@C4_page_fetch_failure_aborts demo_world
                     (demo_former [item_with_page; item_with_dead_link] None None)
                     [0; 0; 0; 0; 0; 0; 1] [item_with_page; item_with_dead_link] 1
                     item_with_dead_link (Some "http://down.example/x") ConnectionError
                     eq_refl eq_refl eq_refl eq_refl) res Hres)
    as (results & Hresults & _ & _ & Hfirst).
  f_equal. apply Hfirst.
  vm_compute in Hresults. injection Hresults as <-.
  repeat constructor. eexists _, _. split; [reflexivity|]. by vm_compute.
Defined.


Lemma C7_witness :
  fst (html_image_checker (mk_tag "img" "div" [("src", "http://img.example/anim.gif")])
         0 dup_initial) = Ok false ∧
  fst (html_image_checker
         (mk_tag "img" "div" [("src", "http://img.example/200x200/logo.png")])
         0 dup_initial) = Ok false.
Proof.
  split.
  - apply (proj1 (proj2 (proj2 (proj2 (proj2 (C7_acceptance_filter
             (mk_tag "img" "div" [("src", "http://img.example/anim.gif")]) 0 dup_initial)))))
           "http://img.example/anim.gif"); by vm_compute.
  - apply (proj2 (proj2 (proj2 (proj2 (proj2 (C7_acceptance_filter
             (mk_tag "img" "div" [("src", "http://img.example/200x200/logo.png")])
             0 dup_initial)))))
           "http://img.example/200x200/logo.png"); by vm_compute.
Defined.

Lemma C8_witness :
  @form_news demo_world
    (demo_former [item_with_page; item_without_link] (Some 1%Z) (Some "2021-03-05"))
    [0; 1] = Some (Raise no_news_for_date).
Proof.
  apply (@C8_no_news_for_date demo_world _ "2021-03-05"
           {| year := 2021; month := 3; day := 5; hour := 0; minute := 0; second := 0;
              microsecond := 0 |}).
  - reflexivity.
  - reflexivity.
  - repeat constructor.
    + exists "Mon, 01 Mar 2021 10:05:00 +0300",
        {| year := 2021; month := 3; day := 1; hour := 10; minute := 5; second := 0;
           microsecond := 0 |}.
      repeat split; [reflexivity..|]. intros [=].
    + exists "Tue, 02 Mar 2021 23:59:59 GMT",
        {| year := 2021; month := 3; day := 2; hour := 23; minute := 59; second := 59;
           microsecond := 0 |}.
      repeat split; [reflexivity..|]. intros [=].
Defined.

Lemma C9_witness :
  ∃ r,
    demo_object_record = Some r ∧
    feed r = "Demo feed" +:+ newline ∧
    (∃ news_link,
       link r = news_link +:+ newline ∧
       item_link item_with_page = Some (Some news_link)) ∧
    item_title item_with_page = Some (title r) ∧
    (∃ s dt, item_pubDate item_with_page = Some (Some s) ∧
             @dateutil_parse demo_world s = Some dt ∧ date r = str_datetime dt) ∧
    endswith newline (date r) = false ∧
    ∃ text, description r = @soup_get_text demo_world (text +:+ newline).
Proof.
  destruct demo_object_record as [r|] eqn:Hr; [|by vm_compute in Hr].
  exists r. split; [done|].
  assert (@NewsObject_form_news demo_world demo_object = Ok r) as Hform.
  { vm_compute in Hr. injection Hr as <-. by vm_compute. }
  exact (@C9_fields_and_line_breaks demo_world demo_object r Hform).
Defined.

Lemma C10_witness :
  ("http://img.example/photo.jpg", Some "") ∈ _collect_a_href_tag_images (demo_parser 0).
Proof.
  apply (proj1 (proj2 C10_hyperlink_images_unfiltered) (demo_parser 0)
           (mk_tag "a" "div" [("href", "http://img.example/photo.jpg")])).
  - cbn. do 3 (apply elem_of_cons; right). apply elem_of_cons. by left.
  - reflexivity.
  - reflexivity.
  - reflexivity.
Defined.

(** * Further properties of the code *)

(** ** The seen-set within one session *)

Lemma get_img_data_state `{World} tag instance_flag page_url st :
  snd (get_img_data tag instance_flag page_url st) =
    snd (html_image_checker tag instance_flag st).
Proof.
  unfold get_img_data, html_data_checker, html_caption_checker, bind, ret, lift.
  destruct (html_image_checker tag instance_flag st) as [[[]|e] st']; cbn [negb snd];
    try reflexivity.
  destruct (negb (negb (CaptionHrefChecker_check tag))); cbn [snd]; [reflexivity|].
  by destruct (probe_img_data tag page_url).
Qed.

Lemma checkers_after_duplicates_stateless tag instance_flag st :
  run_checkers checkers_after_duplicates tag instance_flag st =
    (fst (run_checkers checkers_after_duplicates tag 0 dup_initial), st).
Proof.
  cbn [run_checkers checkers_after_duplicates check]. unfold bind, ret, lift.
  destruct (ImageDoubleColon_check tag) as [[]|]; try reflexivity.
  destruct (ImageBBCComNotSrc_check tag) as [[]|]; try reflexivity.
  destruct (StatsResearchLinks_check tag) as [[]|]; try reflexivity.
  by destruct (Icons_check tag) as [[]|].
Qed.

Lemma html_image_checker_steps tag instance_flag st :
  html_image_checker tag instance_flag st =
    match fst (run_checkers checkers_before_duplicates tag 0 dup_initial) with
    | Ok true =>
        let '(duplicate, st') :=
          dup_test_add (tag_get tag "src") (dup_reset instance_flag st) in
        if duplicate then (Ok false, st')
        else (fst (run_checkers checkers_after_duplicates tag 0 dup_initial), st')
    | other => (other, st)
    end.
Proof.
  unfold html_image_checker.
  change classes_to_check with
    (checkers_before_duplicates ++ ImageDuplicateChecker :: checkers_after_duplicates)%list.
  rewrite run_checkers_app, before_duplicates_stateless.
  destruct (fst (run_checkers checkers_before_duplicates tag 0 dup_initial))
    as [[]|e]; [|done..].
  cbn [run_checkers check]. unfold bind at 1, ImageDuplicateChecker_check.
  destruct (dup_test_add (tag_get tag "src") (dup_reset instance_flag st))
    as [[] st']; [done|].
  apply checkers_after_duplicates_stateless.
Qed.

Lemma html_image_checker_state tag instance_flag st :
  snd (html_image_checker tag instance_flag st) = st ∨
  snd (html_image_checker tag instance_flag st) =
    snd (dup_test_add (tag_get tag "src") (dup_reset instance_flag st)).
Proof.
  rewrite html_image_checker_steps.
  destruct (fst (run_checkers checkers_before_duplicates tag 0 dup_initial))
    as [[]|e]; [|by left..].
  right. by destruct (dup_test_add (tag_get tag "src") (dup_reset instance_flag st))
    as [[] st'].
Qed.

(** Within a session the seen-set only grows. *)
Lemma seen_stays `{World} tag instance_flag page_url st x :
  instance st = Some instance_flag →
  x ∈ duplicates st →
  instance (snd (get_img_data tag instance_flag page_url st)) = Some instance_flag ∧
  x ∈ duplicates (snd (get_img_data tag instance_flag page_url st)).
Proof.
  intros Hi Hx. rewrite get_img_data_state.
  destruct (html_image_checker_state tag instance_flag st) as [-> | ->]; [done|].
  rewrite (dup_reset_same_flag _ _ Hi). unfold dup_test_add.
  destruct (bool_decide (tag_get tag "src" ∈ duplicates st)); cbn [snd instance duplicates];
    [done|].
  split; [done|]. set_solver.
Qed.

Lemma seen_stays_after_tags `{World} instance_flag page_url tags st x :
  instance st = Some instance_flag →
  x ∈ duplicates st →
  instance (after_tags instance_flag page_url tags st) = Some instance_flag ∧
  x ∈ duplicates (after_tags instance_flag page_url tags st).
Proof.
  revert st. induction tags as [|tag rest IH]; intros st Hi Hx; [done|].
  cbn [after_tags foldl].
  destruct (seen_stays tag instance_flag page_url st x Hi Hx) as [Hi' Hx'].
  by apply IH.
Qed.

(** An accepted source is in the seen-set of its session. *)
Lemma accepted_is_seen tag instance_flag st :
  fst (html_image_checker tag instance_flag st) = Ok true →
  instance (snd (html_image_checker tag instance_flag st)) = Some instance_flag ∧
  tag_get tag "src" ∈ duplicates (snd (html_image_checker tag instance_flag st)).
Proof.
  intros Hacc.
  rewrite html_image_checker_steps in Hacc |- *.
  destruct (fst (run_checkers checkers_before_duplicates tag 0 dup_initial))
    as [[]|e]; [|done..].
  revert Hacc. unfold dup_test_add, dup_reset.
  destruct (decide (instance st = Some instance_flag)) as [Hi|Hi].
  - rewrite (bool_decide_eq_true_2 _ Hi).
    destruct (decide (tag_get tag "src" ∈ duplicates st)) as [Hd|Hd].
    + by rewrite (bool_decide_eq_true_2 _ Hd).
    + rewrite (bool_decide_eq_false_2 _ Hd). cbn. intros _. split; [done|]. set_solver.
  - rewrite (bool_decide_eq_false_2 _ Hi). cbn [duplicates instance].
    rewrite bool_decide_eq_false_2 by set_solver. cbn. intros _. split; [done|]. set_solver.
Qed.

Lemma seen_is_rejected `{World} tag instance_flag page_url st :
  instance st = Some instance_flag →
  tag_get tag "src" ∈ duplicates st →
  fst (get_img_data tag instance_flag page_url st) = Ok (None, None).
Proof.
  intros Hi Hx. unfold get_img_data, html_data_checker, bind.
  pose proof (html_image_checker_rules tag instance_flag st) as Hrules.
  destruct (html_image_checker tag instance_flag st) as [r st'].
  cbn [fst] in Hrules. subst r.
  assert (existsb (λ c, rejection_rule c tag instance_flag st) classes_to_check = true)
    as ->; [|done].
  apply existsb_exists. exists ImageDuplicateChecker. split.
  - apply list_elem_of_In. unfold classes_to_check. set_solver.
  - cbn. by apply bool_decide_eq_true_2.
Qed.

Lemma dropped_after_accepted `{World} instance_flag page_url
    (first : Tag) (between : list Tag) (second : Tag) st :
  fst (html_image_checker first instance_flag st) = Ok true →
  tag_get second "src" = tag_get first "src" →
  fst (get_img_data second instance_flag page_url
         (after_tags instance_flag page_url between
            (snd (get_img_data first instance_flag page_url st))))
    = Ok (None, None).
Proof.
  intros Hacc Hsrc. rewrite get_img_data_state.
  destruct (accepted_is_seen first instance_flag st Hacc) as [Hi Hx].
  destruct (seen_stays_after_tags instance_flag page_url between _ _ Hi Hx) as [Hi' Hx'].
  apply seen_is_rejected; [done|]. by rewrite Hsrc.
Qed.

(** X1. Once a tag has passed the image filter in a scan session, every
    later tag of that session with the same source is dropped, whichever
    tags the session handled in between. *)
Theorem X1_duplicate_dropped_in_session `{World} instance_flag page_url
    (first : Tag) (between : list Tag) (second : Tag) st :
  fst (html_image_checker first instance_flag st) = Ok true →
  tag_get second "src" = tag_get first "src" →
  fst (get_img_data second instance_flag page_url
         (after_tags instance_flag page_url between
            (snd (get_img_data first instance_flag page_url st))))
    = Ok (None, None).
Proof. apply dropped_after_accepted. Qed.

(** X2. A tag that arrives with a flag other than the stored one is judged
    as by a scan that has seen nothing, and afterwards the seen-set holds
    at most the source of that tag: what earlier sessions saw is gone. *)
Theorem X2_new_flag_forgets `{World} instance_flag page_url (tag : Tag) st :
  instance st ≠ Some instance_flag →
  fst (get_img_data tag instance_flag page_url st) =
    fst (get_img_data tag instance_flag page_url dup_initial) ∧
  (snd (get_img_data tag instance_flag page_url st) = st ∨
   (instance (snd (get_img_data tag instance_flag page_url st)) = Some instance_flag ∧
    duplicates (snd (get_img_data tag instance_flag page_url st))
      = {[ tag_get tag "src" ]})).
Proof.
  intros Hne. split.
  - apply get_img_data_session. left. by split.
  - rewrite get_img_data_state.
    destruct (html_image_checker_state tag instance_flag st) as [-> | ->]; [by left|].
    right. rewrite (dup_reset_other_flag _ _ Hne). unfold dup_test_add.
    cbn [duplicates instance]. rewrite bool_decide_eq_false_2 by apply not_elem_of_empty.
    cbn. split; [done|]. apply (right_id_L ∅ (∪)).
Qed.

(** X3. A tag whose alt text contains "href" is dropped without any request
    being made, yet when its image passed the image filter its source has
    entered the seen-set: a later tag of the session with the same source
    is dropped as a duplicate, whatever its own alt text. *)
Theorem X3_bad_caption_blocks_source `{World} instance_flag page_url
    (first second : Tag) st :
  CaptionHrefChecker_check first = true →
  fst (get_img_data first instance_flag page_url st) = Ok (None, None) ∧
  (fst (html_image_checker first instance_flag st) = Ok true →
   tag_get second "src" = tag_get first "src" →
   fst (get_img_data second instance_flag page_url
          (snd (get_img_data first instance_flag page_url st))) = Ok (None, None)).
Proof.
  intros Hcap. split.
  - unfold get_img_data, html_data_checker, html_caption_checker, bind, ret.
    pose proof (html_image_checker_rules first instance_flag st) as Hrules.
    destruct (html_image_checker first instance_flag st) as [r st'].
    cbn [fst] in Hrules. subst r.
    destruct (negb (existsb _ classes_to_check)); cbn [negb]; [|done].
    by rewrite Hcap.
  - intros Hacc Hsrc.
    by apply (dropped_after_accepted instance_flag page_url first [] second st).
Qed.

(** ** What the resolver returns *)

Lemma get_nested_url_src `{World} tag page_url src :
  tag_get tag "src" = Some src →
  get_nested_url tag page_url =
    res_bind (requests_get (nested_url_of page_url src)) (λ resp,
      Ok (if bool_decide (status_code resp = 404) then None
          else Some (nested_url_of page_url src))).
Proof.
  intros Hsrc. unfold get_nested_url, nested_url_of. rewrite Hsrc.
  by destruct (urlparse page_url).
Qed.

(** An accepted tag: no rule holds of it, its alt text is clean, and the
    url returned answered the probe. *)
Lemma get_img_data_accepted `{World} tag instance_flag page_url st u caption :
  fst (get_img_data tag instance_flag page_url st) = Ok (Some u, caption) →
  caption = tag_get tag "alt" ∧
  CaptionHrefChecker_check tag = false ∧
  (∀ c, c ∈ classes_to_check → rejection_rule c tag instance_flag st = false) ∧
  (∃ resp, requests_get u = Ok resp) ∧
  ∃ src, tag_get tag "src" = Some src ∧ src ≠ "" ∧
         (u = src ∨
          (u = nested_url_of page_url src ∧ endswith_any ["jpg"; "png"] u = true ∧
           ∃ resp, requests_get u = Ok resp ∧ status_code resp ≠ 404)).
Proof.
  unfold get_img_data, html_data_checker, html_caption_checker, bind, ret, lift.
  pose proof (html_image_checker_rules tag instance_flag st) as Hrules.
  destruct (html_image_checker tag instance_flag st) as [r st'].
  cbn [fst] in Hrules. subst r.
  destruct (existsb (λ c, rejection_rule c tag instance_flag st) classes_to_check)
    eqn:Hex; cbn [negb]; [done|].
  destruct (CaptionHrefChecker_check tag) eqn:Hcap; cbn [negb]; [done|].
  assert (∀ c, c ∈ classes_to_check → rejection_rule c tag instance_flag st = false)
    as Hnone.
  { intros c Hc. destruct (rejection_rule c tag instance_flag st) eqn:Hr; [|done].
    assert (existsb (λ c, rejection_rule c tag instance_flag st) classes_to_check = true)
      as Htrue; [|congruence].
    apply existsb_exists. exists c. split; [by apply list_elem_of_In|done]. }
  assert (∃ src, tag_get tag "src" = Some src ∧ src ≠ "") as (src & Hsrc & Hne).
  { pose proof (Hnone NoImageExistenceChecker) as H1. cbn in H1.
    destruct (tag_get tag "src") as [src|]; [|discriminate H1; set_solver].
    exists src. split; [done|]. intros ->.
    discriminate H1. unfold classes_to_check. apply elem_of_cons. by left. }
  unfold probe_img_data. rewrite (get_nested_url_src tag page_url src Hsrc), Hsrc.
  destruct (requests_get (nested_url_of page_url src)) as [resp|e] eqn:Hnested;
    cbn [res_bind fst]; [|done].
  set (image_url := match (if bool_decide (status_code resp = 404) then None
                           else Some (nested_url_of page_url src)) with
                    | Some n => if endswith_any ["jpg"; "png"] n then Some n else Some src
                    | None => Some src
                    end).
  assert (image_url = Some src ∨
          (image_url = Some (nested_url_of page_url src) ∧
           endswith_any ["jpg"; "png"] (nested_url_of page_url src) = true ∧
           status_code resp ≠ 404)) as Himage.
  { unfold image_url. destruct (decide (status_code resp = 404)) as [H404|H404].
    - rewrite (bool_decide_eq_true_2 _ H404). by left.
    - rewrite (bool_decide_eq_false_2 _ H404).
      destruct (endswith_any ["jpg"; "png"] (nested_url_of page_url src)); [right|left];
        done. }
  clearbody image_url.
  destruct (requests_get_opt image_url) as [resp'|e] eqn:Hprobe.
  - intros [= -> <-]. repeat split; try done.
    + exists resp'. by rewrite <- Hprobe.
    + exists src. split; [done|]. split; [done|].
      destruct Himage as [[= ->]|([= ->] & Hends & H404)]; [by left|right].
      split; [done|]. split; [done|]. by exists resp.
  - by destruct e.
Qed.

Lemma append_img_elem images d x :
  x ∈ append_img images d → x ∈ images ∨ ∃ c u, d = (Some (String c u), snd x) ∧ fst x = String c u.
Proof.
  destruct d as [[[|c u]|] caption]; cbn [append_img]; auto.
  rewrite elem_of_app, list_elem_of_singleton. intros [Hx| ->]; [by left|right].
  by exists c, u.
Qed.

Lemma collect_img_loop_elem `{World} (self : WebParser) tags images st out x :
  fst (collect_img_loop self tags images st) = Ok out →
  x ∈ out →
  x ∈ images ∨
  ∃ tag st', tag ∈ tags ∧
    fst (get_img_data tag (self_id self) (url self) st') = Ok (Some (fst x), snd x).
Proof.
  revert images st. induction tags as [|tag rest IH]; intros images st.
  - cbn. intros [= <-] Hx. by left.
  - cbn [collect_img_loop]. unfold bind.
    destruct (get_img_data tag (self_id self) (url self) st) as [[d|e] st'] eqn:Hd;
      [|done].
    intros Hout Hx. destruct (IH _ _ Hout Hx) as [Hin|(tag' & st'' & Hin & Hget)].
    + apply append_img_elem in Hin as [Hin|(c & u & -> & Hfst)]; [by left|].
      right. exists tag, st. split; [apply elem_of_cons; by left|].
      by rewrite Hd, Hfst.
    + right. exists tag', st''. split; [apply elem_of_cons; by right|done].
Qed.

(** X4. Every image that the scan of the <img> tags returns comes from an
    <img> tag of the page whose alt text it carries as caption and does not
    contain "href"; none of the state-free rejection rules holds of that
    tag; the url is not empty, is the source of the tag or the page origin
    put before it (then it ends in "jpg" or "png" and did not answer 404),
    and answered the probe request. *)
Theorem X4_collected_images_were_probed `{World} (self : WebParser) st images u caption :
  fst (_collect_img_tag_images self st) = Ok images →
  (u, caption) ∈ images →
  ∃ tag src,
    tag ∈ soup_tags (soup self) ∧ tag_name tag = "img" ∧
    caption = tag_get tag "alt" ∧
    CaptionHrefChecker_check tag = false ∧
    (∀ c, c ∈ classes_to_check → c ≠ ImageDuplicateChecker →
          rejection_rule c tag (self_id self) dup_initial = false) ∧
    tag_get tag "src" = Some src ∧ src ≠ "" ∧ u ≠ "" ∧
    (u = src ∨
     (u = nested_url_of (url self) src ∧ endswith_any ["jpg"; "png"] u = true ∧
      ∃ resp, requests_get u = Ok resp ∧ status_code resp ≠ 404)) ∧
    ∃ resp, requests_get u = Ok resp.
Proof.
  intros Hout Hin. unfold _collect_img_tag_images in Hout.
  destruct (collect_img_loop_elem self _ [] st images (u, caption) Hout Hin)
    as [Hnil|(tag & st' & Htag & Hget)]; [by apply elem_of_nil in Hnil|].
  cbn [fst snd] in Hget.
  apply get_img_data_accepted in Hget
    as (Hcap & Hhref & Hrules & Hprobe & src & Hsrc & Hne & Hu).
  apply list_elem_of_filter in Htag as [Hname Htag].
  exists tag, src. repeat split; try done.
  - intros c Hc Hdup. rewrite <- (Hrules c Hc). by apply rejection_rule_state.
  - destruct Hu as [->|(-> & _ & _)]; [done|].
    unfold nested_url_of. destruct (urlparse (url self)) as [scheme netloc].
    destruct scheme; [|done]. done.
Qed.

(** X5. The images behind hyperlinks are exactly the targets of the <a>
    tags of the page that end in ".jpg" or ".png", each with the empty
    caption. *)
Theorem X5_hyperlink_images (self : WebParser) u caption :
  (u, caption) ∈ _collect_a_href_tag_images self ↔
  caption = Some "" ∧
  ∃ link, link ∈ soup_tags (soup self) ∧ tag_name link = "a" ∧
          tag_get link "href" = Some u ∧ endswith_any [".jpg"; ".png"] u = true.
Proof.
  unfold _collect_a_href_tag_images. rewrite list_elem_of_omap. split.
  - intros (link & Hin & Hsome). apply list_elem_of_filter in Hin as [Hname Hin].
    destruct (tag_get link "href") as [a_href|] eqn:Hhref; [|done].
    destruct (truthy (Some a_href) && endswith_any [".jpg"; ".png"] a_href) eqn:Hok;
      [|done].
    injection Hsome as <- <-. apply andb_true_iff in Hok as [_ Hends].
    split; [done|]. by exists link.
  - intros (-> & link & Hin & Hname & Hhref & Hends). exists link. split.
    + unfold findAll. by apply list_elem_of_filter.
    + rewrite Hhref, Hends. by destruct u.
Qed.

(** ** The description found on the page *)

Lemma first_description_Some formers sp d :
  first_description formers sp = Some d →
  d ≠ "" ∧
  ∃ i former, formers !! i = Some former ∧ former sp = Some d ∧
    ∀ j earlier, (j < i)%nat → formers !! j = Some earlier → truthy (earlier sp) = false.
Proof.
  induction formers as [|f rest IH]; [done|]. cbn [first_description].
  destruct (truthy (f sp)) eqn:Htruthy.
  - intros Hd. split; [destruct (f sp) as [[|]|]; by simplify_eq|].
    exists 0, f. split; [done|]. split; [done|]. intros j earlier Hj. lia.
  - intros (Hne & i & former & Hi & Hd & Hearlier)%IH. split; [done|].
    exists (S i), former. split; [done|]. split; [done|].
    intros [|j] earlier Hj Hlook.
    + by injection Hlook as <-.
    + apply (Hearlier j); [lia|done].
Qed.

Lemma first_description_None formers sp :
  first_description formers sp = None →
  ∀ former, former ∈ formers → truthy (former sp) = false.
Proof.
  induction formers as [|f rest IH]; [by intros _ former Hin%elem_of_nil|].
  cbn [first_description]. destruct (truthy (f sp)) eqn:Htruthy.
  - intros Hnone. rewrite Hnone in Htruthy. done.
  - intros Hnone former [->|Hin]%elem_of_cons; [done|]. by apply IH.
Qed.

Lemma form_description_last_resort (self : WebParser) :
  first_description description_formers (soup self) = None →
  form_description self = Ok None ∨
  form_description self = Ok (Some "") ∨
  form_description self = Raise AttributeError.
Proof.
  intros Hfirst. unfold form_description. rewrite Hfirst.
  assert (truthy (description_title (soup self)) = false) as Hfalsy.
  { apply (first_description_None _ _ Hfirst description_title).
    unfold description_formers. do 3 (apply elem_of_cons; right).
    apply elem_of_cons. by left. }
  unfold description_title in Hfalsy.
  destruct (find (soup self) "title" (λ _, true)) as [t|]; cbn in Hfalsy.
  - destruct (tag_string t) as [[|c text]|]; [right; by left|done|by left].
  - right. by right.
Qed.

(** X6. When [form_description] returns a text that is not empty, it is the
    text of the first of the five extractors, in their fixed order, that
    found a non-empty text. When none of the five finds one, the final
    read of the page title cannot find one either, the title extractor
    having been among the five: the result is [None], the empty string, or
    an [AttributeError]. *)
Theorem X6_page_description (self : WebParser) :
  (∀ d, form_description self = Ok (Some d) → d ≠ "" →
        ∃ i former,
          description_formers !! i = Some former ∧ former (soup self) = Some d ∧
          ∀ j earlier, (j < i)%nat → description_formers !! j = Some earlier →
                       truthy (earlier (soup self)) = false) ∧
  (first_description description_formers (soup self) = None →
   form_description self = Ok None ∨
   form_description self = Ok (Some "") ∨
   form_description self = Raise AttributeError).
Proof.
  split; [|apply form_description_last_resort].
  intros d Hd Hne.
  destruct (first_description description_formers (soup self)) as [d0|] eqn:Hfirst.
  - unfold form_description in Hd. rewrite Hfirst in Hd. injection Hd as ->.
    by apply first_description_Some in Hfirst as [_ Hfirst].
  - destruct (form_description_last_resort self Hfirst) as [H1|[H1|H1]];
      rewrite H1 in Hd; by simplify_eq.
Qed.

(** X7. An item with a link and without a usable description of its own,
    on a page where none of the five extractors finds a text: forming the
    description raises, or the body after the markers is empty. *)
Theorem X7_no_description_anywhere `{World} (news_object : NewsObject) parser images :
  _parser news_object = Some parser →
  _img_data_container news_object = Some images →
  (item_description (_certain_rss_news news_object) = None ∨
   item_description (_certain_rss_news news_object) = Some None) →
  first_description description_formers (soup parser) = None →
  _form_description news_object = Raise AttributeError ∨
  _form_description news_object = Raise TypeError ∨
  _form_description news_object = Ok (soup_get_text (caption_markers images +:+ newline)).
Proof.
  intros Hparser Himages Hdescr Hnone.
  unfold _form_description, parser_description. rewrite Hparser, Himages.
  rewrite description_loop_markers. cbn [String.app].
  assert (∀ tail : Res string,
            match dot_string (item_description (_certain_rss_news news_object)) with
            | Ok (Some rss_description) => Ok (re_sub_tags rss_description +:+ newline)
            | Ok None => tail
            | Raise _ => tail
            end = tail) as ->.
  { intros tail. by destruct Hdescr as [-> | ->]. }
  destruct (form_description_last_resort parser Hnone) as [-> |[-> | ->]];
    cbn [res_bind str_add]; auto.
Qed.

(** ** Requests that raise during a scan *)

Lemma get_img_data_checked `{World} tag instance_flag page_url st :
  fst (html_data_checker tag instance_flag st) = Ok true →
  fst (get_img_data tag instance_flag page_url st) = probe_img_data tag page_url.
Proof.
  unfold get_img_data, bind, lift.
  destruct (html_data_checker tag instance_flag st) as [[[]|e] st']; cbn [fst]; done.
Qed.

(** X8. For a tag that passed the checks, the two requests of
    [get_img_data] are guarded differently. Whatever the request for the
    nested url raises, a connection error included, leaves [get_img_data].
    When that request answers 404, the request for the source itself
    decides: a missing schema, an invalid schema or a connection error drop
    the image, any other exception leaves [get_img_data], and an answer
    returns the source with the alt text. *)
Theorem X8_probe_errors `{World} tag instance_flag page_url st src :
  fst (html_data_checker tag instance_flag st) = Ok true →
  tag_get tag "src" = Some src →
  (∀ e, requests_get (nested_url_of page_url src) = Raise e →
        fst (get_img_data tag instance_flag page_url st) = Raise e) ∧
  (∀ resp, requests_get (nested_url_of page_url src) = Ok resp →
           status_code resp = 404 →
           fst (get_img_data tag instance_flag page_url st) =
             match requests_get src with
             | Ok _ => Ok (Some src, tag_get tag "alt")
             | Raise MissingSchema | Raise InvalidSchema | Raise ConnectionError =>
                 Ok (None, None)
             | Raise e => Raise e
             end).
Proof.
  intros Hchecked Hsrc.
  rewrite (get_img_data_checked tag instance_flag page_url st Hchecked).
  unfold probe_img_data. rewrite (get_nested_url_src tag page_url src Hsrc), Hsrc.
  split.
  - intros e ->. done.
  - intros resp -> H404. cbn [res_bind]. rewrite (bool_decide_eq_true_2 _ H404).
    cbn [requests_get_opt]. by destruct (requests_get src) as [resp'|[]].
Qed.

(** ** Markup removal *)

(** X9. After [re.sub("<.*?>", "", s)] no tag is left: no ["<"] of the
    result is followed on its line by a [">"]. A text without a tag comes
    back unchanged, so removing twice is removing once, and the result is
    never longer than the text. *)
Theorem X9_markup_removed (s : string) :
  has_tag (re_sub_tags s) = false ∧
  (has_tag s = false → re_sub_tags s = s) ∧
  re_sub_tags (re_sub_tags s) = re_sub_tags s ∧
  (String.length (re_sub_tags s) ≤ String.length s)%nat.
Proof.
  assert (has_tag (re_sub_tags s) = false) as Hnone.
  { unfold re_sub_tags. by apply re_sub_tags_fuel_no_tag. }
  split; [done|]. split; [apply re_sub_tags_fuel_id|]. split.
  - unfold re_sub_tags at 1. by apply re_sub_tags_fuel_id.
  - apply re_sub_tags_fuel_length.
Qed.

(** ** An item without a link *)

(** X10. An item that has no link but has a title tag, a publication date
    that parses and a description: the constructor makes no request and
    leaves the shared state alone, and the record is formed with the
    feed title, the title and the printed date of the item, the sentinel as
    link, the description with its markup removed, and one entry [1]
    holding the sentinel. *)
Theorem X10_record_without_link `{World} id feed_title (item : Item) st
    item_title_string pub dt rss_description :
  item_link item = None →
  item_title item = Some item_title_string →
  item_pubDate item = Some (Some pub) →
  dateutil_parse pub = Some dt →
  item_description item = Some (Some rss_description) →
  ∃ news_object,
    NewsObject_init id feed_title item st = (Ok news_object, st) ∧
    NewsObject_form_news news_object =
      Ok {| feed := feed_title +:+ newline;
            title := item_title_string;
            date := str_datetime dt;
            link := no_link_sentinel +:+ newline;
            description := soup_get_text (re_sub_tags rss_description +:+ newline);
            links := [("[1]", no_link_sentinel)] |}.
Proof.
  intros Hlink Htitle Hpub Hdt Hdescr. eexists. split.
  - unfold NewsObject_init. rewrite Hlink. reflexivity.
  - unfold NewsObject_form_news, _form_header, NewsObject_date, _form_description,
      _form_links, dot_string, parse_date.
    cbn [_title _certain_rss_news _img_data_container _html_url _parser].
    rewrite Htitle, Hpub, Hdescr. cbn [res_bind]. rewrite Hdt. reflexivity.
Qed.

(** ** The selection, item by item *)

Lemma limited_prefix (self : ParserNewsFormer) (news : list Item) :
  (∀ l, _news_limit self = Some l → (0 ≤ l)%Z) →
  slice_to news (_form_news_limit self news) =
    take (match _news_limit self with
          | Some limit => Z.to_nat (Z.min limit (Z.of_nat (length news)))
          | None => length news
          end) news.
Proof.
  intros Hlimit. unfold _form_news_limit, slice_to.
  destruct (_news_limit self) as [l|].
  - specialize (Hlimit l eq_refl).
    destruct (Z.gtb_spec l (Z.of_nat (length news))).
    + destruct (Z.leb_spec 0 (Z.of_nat (length news))); [|lia]. f_equal. lia.
    + destruct (Z.leb_spec 0 l); [|lia]. f_equal. lia.
  - destruct (Z.leb_spec 0 (Z.of_nat (length news))); [|lia]. f_equal. lia.
Qed.

Lemma _form_news_list_prefix `{World} (self : ParserNewsFormer) selection :
  (∀ l, _news_limit self = Some l → (0 ≤ l)%Z) →
  _form_news_list self = Ok selection →
  selection = take (selection_size self) (candidates self) ∧
  (∀ news_date, _news_date self = Some news_date → candidates self ≠ []).
Proof.
  intros Hlimit. unfold _form_news_list, selection_size, count_after_date_filter, candidates.
  destruct (_news_date self) as [news_date|].
  - unfold _form_news_list_by_date, parse_date.
    destruct (dateutil_parse news_date) as [target|]; [|done]. cbn [res_bind].
    destruct (map_res publication_date (_rss_items self)) as [dates|e] eqn:Hdates;
      [|done].
    cbn [res_bind].
    destruct (suitable_date_loop_filter target _ _ Hdates) as [-> Hex].
    rewrite Hex.
    destruct (existsb (published_on target) (_rss_items self)) eqn:Hsome; [|done].
    intros [= <-]. split; [by apply limited_prefix|].
    intros _ _ Hnil. apply existsb_exists in Hsome as (item & Hin & Hon).
    assert (In item (List.filter (published_on target) (_rss_items self))) as Hfil.
    { apply filter_In. by split. }
    rewrite Hnil in Hfil. done.
  - intros [= <-]. split; [by apply limited_prefix|]. done.
Qed.

(** X11. The selection is the first [selection_size] items, in feed order,
    of the items that the date filter leaves (of all items when there is no
    date), for a limit that is absent or not negative. *)
Theorem X11_selection_is_prefix `{World} (self : ParserNewsFormer) selection :
  (∀ l, _news_limit self = Some l → (0 ≤ l)%Z) →
  _form_news_list self = Ok selection →
  selection = take (selection_size self) (candidates self).
Proof. intros Hlimit Hsel. by apply _form_news_list_prefix. Qed.

(** X12. With a target date and a limit that is absent or positive, a run
    that returns has at least one record: a date without news raises, and
    nothing else can empty the selection. *)
Theorem X12_dated_run_is_not_empty `{World} (self : ParserNewsFormer) news_date
    schedule out :
  (∀ l, _news_limit self = Some l → (0 < l)%Z) →
  _news_date self = Some news_date →
  form_news self schedule = Some (Ok out) →
  out ≠ [].
Proof.
  intros Hlimit Hdate Hout.
  destruct (form_news_positions self schedule out Hout) as (selection & Hsel & Hlen & _).
  assert (∀ l, _news_limit self = Some l → (0 ≤ l)%Z) as Hlimit'.
  { intros l Hl. specialize (Hlimit l Hl). lia. }
  destruct (_form_news_list_prefix self selection Hlimit' Hsel) as [Hprefix Hcand].
  specialize (Hcand news_date Hdate).
  assert (length selection ≠ 0) as Hne; [|destruct out; [done|done]].
  rewrite Hprefix, length_take. unfold selection_size, count_after_date_filter.
  assert (length (candidates self) ≠ 0) as Hc.
  { destruct (candidates self); [done|]. cbn. lia. }
  assert (count_after_date_filter self = length (candidates self)) as Hcount.
  { unfold count_after_date_filter, candidates. rewrite Hdate.
    by destruct (dateutil_parse news_date). }
  unfold count_after_date_filter in Hcount. rewrite Hcount.
  destruct (_news_limit self) as [l|] eqn:Hl; [|lia].
  specialize (Hlimit l eq_refl). lia.
Qed.

(** X13. In a dated run every publication date of the feed is parsed
    before the selection is made: one item whose date does not parse makes
    the run raise the parser's error, whatever the limit and whether or not
    other items fall on the target date. *)
Theorem X13_dated_run_parses_every_date `{World} (self : ParserNewsFormer) news_date
    target schedule :
  _news_date self = Some news_date →
  dateutil_parse news_date = Some target →
  Forall (λ news, ∃ s, item_pubDate news = Some (Some s)) (_rss_items self) →
  Exists (λ news, ∃ s, item_pubDate news = Some (Some s) ∧ dateutil_parse s = None)
    (_rss_items self) →
  form_news self schedule = Some (Raise ParserError).
Proof.
  intros Hdate Htarget Hall Hbad.
  assert (map_res publication_date (_rss_items self) = Raise ParserError) as Hdates.
  { induction Hall as [|news rest [s Hs] Hall IH]; [by apply Exists_nil in Hbad|].
    cbn [map_res]. unfold publication_date at 1, dot_string, parse_date.
    rewrite Hs. cbn [res_bind].
    destruct (dateutil_parse s) as [dt|] eqn:Hparse; cbn [res_bind]; [|done].
    rewrite IH; [done|].
    apply Exists_cons in Hbad as [(s' & Hs' & Hnone)|Hbad]; [|done].
    rewrite Hs in Hs'. injection Hs' as <-. congruence. }
  unfold form_news, _form_news_list, _form_news_list_by_date, parse_date.
  by rewrite Hdate, Htarget, Hdates.
Qed.

(** ** What the schedule cannot change *)

Lemma thread_step_linked `{World} id title th st :
  thread_linked th → thread_linked (fst (thread_step id title th st)).
Proof.
  destruct th as [item|parser item tags images|parser item tag tags images|r];
    cbn [thread_linked thread_step].
  - intros _. unfold dot_string.
    destruct (item_link item) as [html_url|] eqn:Hlink; cbn [fst thread_linked].
    + destruct (WebParser_init id html_url); cbn [fst thread_linked]; [|done].
      by rewrite Hlink.
    + cbn. by rewrite Hlink.
  - intros Hlink. destruct tags as [|tag rest]; cbn [fst thread_linked].
    + cbn. split; [done|]. intros Hnone. by rewrite Hnone in Hlink.
    + by destruct (run_checkers checkers_before_duplicates tag (self_id parser) st)
        as [[[]|e] st'].
  - intros Hlink. destruct (dup_test_add (tag_get tag "src") st) as [[] st']; [done|].
    by destruct (after_duplicates tag (self_id parser) (url parser) st') as [[d|e] st''].
  - done.
Qed.

Lemma run_pool_linked `{World} title schedule p :
  Forall thread_linked (fst p) →
  Forall thread_linked (fst (run_pool title schedule p)).
Proof.
  revert p. induction schedule as [|k schedule IH]; intros p Hall; [done|].
  rewrite run_pool_cons. apply IH. unfold pool_step.
  destruct (fst p !! k) as [th|] eqn:Hth; [|done].
  destruct (thread_step k title th (snd p)) as [th' st'] eqn:Hstep. cbn [fst].
  apply Forall_insert; [done|].
  change th' with (fst (th', st')). rewrite <- Hstep. apply thread_step_linked.
  by eapply Forall_lookup_1.
Qed.

Lemma header_of_object `{World} (o1 o2 : NewsObject) r1 r2 :
  _certain_rss_news o1 = _certain_rss_news o2 →
  _title o1 = _title o2 →
  thread_linked (Finished (Ok o1)) →
  thread_linked (Finished (Ok o2)) →
  NewsObject_form_news o1 = Ok r1 →
  NewsObject_form_news o2 = Ok r2 →
  header_of r1 = header_of r2.
Proof.
  cbn [thread_linked]. intros Hitem Htitle Hl1 Hl2 Hr1 Hr2.
  apply form_news_fields in Hr1 as (h1 & Hh1 & _ & _ & Hf1 & Ht1 & Hd1 & Hk1).
  apply form_news_fields in Hr2 as (h2 & Hh2 & _ & _ & Hf2 & Ht2 & Hd2 & Hk2).
  apply _form_header_fields in Hh1
    as (Hfeed1 & (l1 & Hlink1 & Hcase1) & Htit1 & s1 & dt1 & Hs1 & Hdt1 & Hdate1).
  apply _form_header_fields in Hh2
    as (Hfeed2 & (l2 & Hlink2 & Hcase2) & Htit2 & s2 & dt2 & Hs2 & Hdt2 & Hdate2).
  rewrite <- Hitem in *. unfold header_of.
  rewrite Hf1, Hf2, Ht1, Ht2, Hd1, Hd2, Hk1, Hk2.
  rewrite Hfeed1, Hfeed2, Htitle, Hdate1, Hdate2, Hlink1, Hlink2.
  assert (h_title h1 = h_title h2) as -> by congruence.
  assert (dt1 = dt2) as -> by congruence.
  assert (l1 = l2) as ->; [|done].
  destruct (_img_data_container o1) as [images1|],
           (_img_data_container o2) as [images2|].
  - congruence.
  - destruct Hl2 as [Hnone _]. rewrite Hnone in Hcase1; done.
  - destruct Hl1 as [Hnone _]. rewrite Hnone in Hcase2; done.
  - congruence.
Qed.

(** X14. The feed, title, date and link of every record are the same under
    every schedule of the workers that lets the call return: only the
    images, and with them the description and the list of links, depend on
    the order in which the workers run. *)
Theorem X14_header_fields_under_any_schedule `{World} (self : ParserNewsFormer)
    schedule1 schedule2 out1 out2 :
  form_news self schedule1 = Some (Ok out1) →
  form_news self schedule2 = Some (Ok out2) →
  header_of <$> out1 = header_of <$> out2.
Proof.
  intros Hout1 Hout2.
  destruct (form_news_positions self schedule1 out1 Hout1) as (sel1 & Hsel1 & Hlen1 & Hpos1).
  destruct (form_news_positions self schedule2 out2 Hout2) as (sel2 & Hsel2 & Hlen2 & Hpos2).
  assert (sel2 = sel1) as -> by congruence.
  assert (Forall thread_linked (Submitted <$> sel1)) as Hstart.
  { apply Forall_fmap, Forall_forall. by intros. }
  pose proof (run_pool_linked (_former_title self) schedule1 (_, dup_initial) Hstart) as Hall1.
  pose proof (run_pool_linked (_former_title self) schedule2 (_, dup_initial) Hstart) as Hall2.
  apply list_eq. intros i. rewrite !list_lookup_fmap.
  destruct (sel1 !! i) as [item|] eqn:Hi.
  - destruct (Hpos1 i item Hi) as (o1 & r1 & Hth1 & Hitem1 & Htitle1 & Hform1 & Hr1 & _).
    destruct (Hpos2 i item Hi) as (o2 & r2 & Hth2 & Hitem2 & Htitle2 & Hform2 & Hr2 & _).
    rewrite Hr1, Hr2. cbn. f_equal.
    apply (header_of_object o1 o2); try done; try congruence.
    + by apply (Forall_lookup_1 _ _ _ _ Hall1 Hth1).
    + by apply (Forall_lookup_1 _ _ _ _ Hall2 Hth2).
  - apply lookup_ge_None in Hi.
    rewrite (lookup_ge_None_2 out1), (lookup_ge_None_2 out2) by lia. done.
Qed.

(** ** Workers that run one after another *)

Lemma thread_steps_finished `{World} id title n r st :
  thread_steps id title n (Finished r, st) = (Finished r, st).
Proof. induction n as [|n IH]; [done|]. cbn [thread_steps thread_step fst snd]. exact IH. Qed.

Lemma thread_steps_add `{World} id title n m p :
  thread_steps id title (n + m) p = thread_steps id title m (thread_steps id title n p).
Proof. revert p. induction n as [|n IH]; intros p; [done|]. cbn [Nat.add thread_steps]. apply IH. Qed.

Lemma thread_steps_result `{World} id title n m p r r' st st' :
  thread_steps id title n p = (Finished r, st) →
  thread_steps id title m p = (Finished r', st') →
  r = r'.
Proof.
  intros Hn Hm. destruct (Nat.le_ge_cases n m) as [Hle|Hle].
  - replace m with (n + (m - n)) in Hm by lia.
    rewrite thread_steps_add, Hn, thread_steps_finished in Hm. congruence.
  - replace n with (m + (n - m)) in Hn by lia.
    rewrite thread_steps_add, Hm, thread_steps_finished in Hn. congruence.
Qed.

Lemma thread_step_owner `{World} id title th st :
  thread_owner id th →
  thread_owner id (fst (thread_step id title th st)) ∧
  (instance (snd (thread_step id title th st)) = instance st ∨
   instance (snd (thread_step id title th st)) = Some id).
Proof.
  destruct th as [item|parser item tags images|parser item tag tags images|r];
    cbn [thread_owner thread_step].
  - intros _. destruct (dot_string (item_link item)) as [html_url|e]; [|by split; [|left]].
    unfold WebParser_init.
    destruct (requests_get_opt html_url) as [page|e]; cbn [res_bind fst snd thread_owner];
      by split; [|left].
  - intros Hid. destruct tags as [|tag rest]; [by split; [|left]|].
    rewrite before_duplicates_stateless.
    destruct (fst (run_checkers checkers_before_duplicates tag 0 dup_initial))
      as [[]|e]; cbn [fst snd thread_owner]; [|by split; [|left]..].
    split; [done|]. unfold dup_reset. rewrite Hid.
    destruct (bool_decide (instance st = Some id)); [by left|by right].
  - intros Hid. unfold dup_test_add.
    destruct (bool_decide (tag_get tag "src" ∈ duplicates st)); [by split; [|left]|].
    rewrite after_duplicates_stateless.
    destruct (fst (after_duplicates tag 0 (url parser) dup_initial)) as [d|e];
      cbn [fst snd thread_owner instance]; by split; [|left].
  - intros _. by split; [|left].
Qed.

Lemma thread_steps_owner `{World} id title n th st :
  thread_owner id th →
  instance (snd (thread_steps id title n (th, st))) = instance st ∨
  instance (snd (thread_steps id title n (th, st))) = Some id.
Proof.
  revert th st. induction n as [|n IH]; intros th st Hown; [by left|].
  cbn [thread_steps fst snd].
  destruct (thread_step_owner id title th st Hown) as [Hown' Hinst].
  destruct (thread_step id title th st) as [th' st']. cbn [fst snd] in *.
  destruct (IH th' st' Hown') as [Hi|Hi]; [|by right].
  rewrite Hi. exact Hinst.
Qed.

(** The constructor builds the same object from every state whose flag is
    not the flag of its own parser. *)
Lemma NewsObject_init_fresh `{World} id title item st :
  instance st ≠ Some id →
  fst (NewsObject_init id title item st) = fst (NewsObject_init id title item dup_initial).
Proof.
  intros Hfresh. unfold NewsObject_init.
  destruct (dot_string (item_link item)) as [html_url|e]; [|done].
  unfold bind at 1 3, lift.
  destruct (WebParser_init id html_url) as [parser|e] eqn:Hparser; [|done].
  assert (self_id parser = id) as Hid.
  { unfold WebParser_init in Hparser.
    destruct (requests_get_opt html_url); cbn [res_bind] in Hparser; [|done].
    by injection Hparser as <-. }
  destruct (form_img_data_session parser parser st dup_initial eq_refl eq_refl)
    as [Hfst _].
  { left. rewrite Hid. done. }
  unfold bind, ret.
  destruct (form_img_data parser st) as [r1 st1], (form_img_data parser dup_initial)
    as [r2 st2].
  cbn [fst] in Hfst. subst r2. by destruct r1.
Qed.

Lemma run_pool_idle `{World} title k n threads st :
  threads !! k = None →
  run_pool title (replicate n k) (threads, st) = (threads, st).
Proof.
  intros Hk. induction n as [|n IH]; [done|].
  cbn [replicate]. rewrite run_pool_cons. unfold pool_step. cbn [fst snd].
  by rewrite Hk.
Qed.

Lemma serial_schedule_cons k n blocks :
  serial_schedule ((k, n) :: blocks) = (replicate n k ++ serial_schedule blocks)%list.
Proof. reflexivity. Qed.

Lemma serial_run `{World} title (selection : list Item) blocks :
  ∀ (done : list nat) threads st,
    length threads = length selection →
    (∀ i item, selection !! i = Some item → i ∉ done →
               threads !! i = Some (Submitted item)) →
    (∀ i item r, selection !! i = Some item → threads !! i = Some (Finished r) →
                 r = fst (NewsObject_init i title item dup_initial)) →
    (instance st = None ∨ ∃ k, k ∈ done ∧ instance st = Some k) →
    NoDup blocks.*1 →
    (∀ k, k ∈ blocks.*1 → k ∉ done) →
    ∀ i item r,
      selection !! i = Some item →
      fst (run_pool title (serial_schedule blocks) (threads, st)) !! i = Some (Finished r) →
      r = fst (NewsObject_init i title item dup_initial).
Proof.
  induction blocks as [|[k n] blocks IH];
    intros done threads st Hlen Hwait Hdone Hflag Hnodup Hnew i item r Hi Hr.
  - by apply (Hdone i item r).
  - rewrite serial_schedule_cons, run_pool_app in Hr.
    cbn [fmap list_fmap fst] in Hnodup, Hnew.
    apply NoDup_cons in Hnodup as [Hk Hnodup].
    assert (k ∉ done) as Hkdone by (apply Hnew, elem_of_cons; by left).
    assert (∀ k', k' ∈ blocks.*1 → k' ∉ k :: done) as Hnew'.
    { intros k' Hk' [->|Hin]%elem_of_cons; [done|].
      apply (Hnew k'); [apply elem_of_cons; by right|done]. }
    destruct (threads !! k) as [th|] eqn:Hth.
    + destruct (lookup_lt_is_Some_2 selection k) as [item_k Hitem_k].
      { rewrite <- Hlen. by eapply lookup_lt_Some. }
      rewrite (Hwait k item_k Hitem_k Hkdone) in Hth. injection Hth as <-.
      rewrite (run_pool_replicate title k n threads st (Submitted item_k)) in Hr
        by by apply Hwait.
      assert (instance st ≠ Some k) as Hfresh.
      { destruct Hflag as [->|(j & Hj & ->)]; [done|]. intros [= ->]. done. }
      refine (IH (k :: done) _ _ _ _ _ _ Hnodup Hnew' i item r Hi Hr).
      * by rewrite length_insert.
      * intros j item_j Hj Hnot. rewrite list_lookup_insert_ne.
        -- apply Hwait; [done|]. intros Hin. apply Hnot, elem_of_cons. by right.
        -- intros ->. apply Hnot, elem_of_cons. by left.
      * intros j item_j r_j Hj Hlook. destruct (decide (j = k)) as [->|Hne].
        -- rewrite list_lookup_insert_eq in Hlook by (rewrite Hlen; by eapply lookup_lt_Some).
           injection Hlook as Hlook.
           assert (item_j = item_k) as -> by congruence.
           destruct (submitted_alone k title item_k st) as [m Hm].
           destruct (thread_steps k title n (Submitted item_k, st)) as [th' st'] eqn:Hn.
           cbn [fst] in Hlook. subst th'.
           rewrite <- (NewsObject_init_fresh k title item_k st Hfresh).
           symmetry. by eapply thread_steps_result.
        -- rewrite list_lookup_insert_ne in Hlook by done. by eapply Hdone.
      * destruct (thread_steps_owner k title n (Submitted item_k) st I) as [Hsame|Hown].
        -- rewrite Hsame. destruct Hflag as [Hnone|(j & Hj & Hsome)]; [by left|].
           right. exists j. split; [apply elem_of_cons; by right|done].
        -- right. exists k. split; [apply elem_of_cons; by left|done].
    + rewrite (run_pool_idle title k n threads st Hth) in Hr.
      refine (IH (k :: done) _ _ Hlen _ Hdone _ Hnodup Hnew' i item r Hi Hr).
      * intros j item_j Hj Hnot. apply Hwait; [done|].
        intros Hin. apply Hnot, elem_of_cons. by right.
      * destruct Hflag as [Hnone|(j & Hj & Hsome)]; [by left|].
        right. exists j. split; [apply elem_of_cons; by right|done].
Qed.

(** X15. When the workers run one after another, each to the end before
    the next starts and in whatever order, the call returns what the loop
    over the futures makes of the objects that the constructor builds for
    each selected item on its own, from a state that no other scan has
    touched: no worker loses an image to another. *)
Theorem X15_workers_one_after_another `{World} (self : ParserNewsFormer) selection
    blocks res :
  _form_news_list self = Ok selection →
  NoDup blocks.*1 →
  form_news self (serial_schedule blocks) = Some res →
  res = gather (constructed_alone (_former_title self) selection) [].
Proof.
  intros Hsel Hnodup Hres.
  apply form_news_unfold in Hres
    as [(e & Hraise & _)|(selection' & results & Hsel' & Hresults & ->)]; [congruence|].
  assert (selection' = selection) as -> by congruence.
  f_equal. apply mapM_Some_1 in Hresults.
  pose proof (run_pool_length (_former_title self) (serial_schedule blocks)
                (Submitted <$> selection, dup_initial)) as Hlen.
  cbn [fst] in Hlen. rewrite length_fmap in Hlen.
  apply list_eq. intros i. unfold constructed_alone. rewrite list_lookup_imap.
  destruct (selection !! i) as [item|] eqn:Hi; cbn.
  - destruct (lookup_lt_is_Some_2
                (fst (run_pool (_former_title self) (serial_schedule blocks)
                        (Submitted <$> selection, dup_initial))) i) as [th Hth].
    { rewrite Hlen. by eapply lookup_lt_Some. }
    destruct (Forall2_lookup_l _ _ _ _ _ Hresults Hth) as (r & Hr & Hfut).
    destruct th as [| | |r']; try done. injection Hfut as ->.
    rewrite Hr. f_equal.
    apply (serial_run (_former_title self) selection blocks [] (Submitted <$> selection)
             dup_initial); try done.
    + by rewrite length_fmap.
    + intros j item_j Hj _. by rewrite list_lookup_fmap, Hj.
    + intros j item_j r_j Hj. rewrite list_lookup_fmap, Hj. done.
    + by left.
    + intros k _. apply not_elem_of_nil.
  - apply lookup_ge_None in Hi. apply lookup_ge_None_2.
    rewrite <- (Forall2_length _ _ _ Hresults), Hlen. done.
Qed.

(** ** The storage *)

Lemma insert_by_date_perm x l : insert_by_date x l ≡ₚ x :: l.
Proof.
  induction l as [|y rest IH]; [done|]. cbn [insert_by_date].
  destruct (String.leb (date x) (date y)); [done|].
  rewrite IH. apply Permutation_swap.
Qed.

Lemma sorted_by_date_perm news : sorted_by_date news ≡ₚ news.
Proof.
  induction news as [|x rest IH]; [done|]. cbn [sorted_by_date foldr].
  rewrite insert_by_date_perm. by constructor.
Qed.

Lemma insert_by_date_sorted x l :
  Sorted date_le l → Sorted date_le (insert_by_date x l).
Proof.
  induction l as [|y rest IH]; intros Hsorted; cbn [insert_by_date].
  - by repeat constructor.
  - destruct (String.leb (date x) (date y)) eqn:Hle.
    + constructor; [done|]. by constructor.
    + apply Sorted_inv in Hsorted as [Hrest Hhd]. constructor; [by apply IH|].
      destruct rest as [|z rest']; cbn [insert_by_date].
      * constructor. unfold date_le.
        destruct (String.leb_total (date x) (date y)) as [H1|H1]; [congruence|done].
      * destruct (String.leb (date x) (date z)).
        -- constructor. unfold date_le.
           destruct (String.leb_total (date x) (date y)) as [H1|H1]; [congruence|done].
        -- constructor. by apply HdRel_inv in Hhd.
Qed.

Lemma sorted_by_date_sorted news : Sorted date_le (sorted_by_date news).
Proof.
  induction news as [|x rest IH]; [constructor|].
  cbn [sorted_by_date foldr]. by apply insert_by_date_sorted.
Qed.

Lemma insert_by_date_stable d x l :
  filter (λ r, date r = d) (insert_by_date x l) = filter (λ r, date r = d) (x :: l).
Proof.
  induction l as [|y rest IH]; [done|]. cbn [insert_by_date].
  destruct (String.leb (date x) (date y)) eqn:Hle; [done|].
  rewrite filter_cons, IH, !filter_cons.
  destruct (decide (date y = d)) as [Hy|Hy], (decide (date x = d)) as [Hx|Hx]; try done.
  exfalso. rewrite Hx, <- Hy in Hle.
  destruct (String.leb_total (date y) (date y)); congruence.
Qed.

Lemma sorted_by_date_stable d news :
  filter (λ r, date r = d) (sorted_by_date news) = filter (λ r, date r = d) news.
Proof.
  induction news as [|x rest IH]; [done|]. cbn [sorted_by_date foldr].
  rewrite insert_by_date_stable, !filter_cons.
  unfold sorted_by_date in IH. rewrite IH. done.
Qed.

Lemma map_res_Forall2 {A B} (f : A → Res B) xs ys :
  map_res f xs = Ok ys ↔ Forall2 (λ x y, f x = Ok y) xs ys.
Proof.
  revert ys. induction xs as [|x rest IH]; intros ys; cbn [map_res].
  - split; [by intros [= <-]|]. by intros ->%Forall2_nil_inv_l.
  - split.
    + destruct (f x) as [y|] eqn:Hx; [|done]. cbn [res_bind].
      destruct (map_res f rest) as [ys'|]; [|done]. cbn [res_bind].
      intros [= <-]. constructor; [done|]. by apply IH.
    + intros (y & ys' & Hx & Hrest & ->)%Forall2_cons_inv_l.
      rewrite Hx. cbn [res_bind]. apply IH in Hrest. by rewrite Hrest.
Qed.

Lemma map_res_raises {A B} (f : A → Res B) xs :
  (∃ e, map_res f xs = Raise e) ↔ Exists (λ x, ∃ e, f x = Raise e) xs.
Proof.
  induction xs as [|x rest IH]; cbn [map_res].
  - split; [by intros [e ?]|]. by intros ?%Exists_nil.
  - rewrite Exists_cons, <- IH. destruct (f x) as [y|e]; cbn [res_bind].
    + destruct (map_res f rest) as [ys|e]; cbn [res_bind].
      * split; [by intros [e ?]|]. by intros [[e ?]|[e ?]].
      * split; [intros _; right; by eexists|intros _; by eexists].
    + split; [intros _; left; by eexists|intros _; by eexists].
Qed.

Lemma groupby_concat keyed : concat (groupby keyed).*2 = keyed.*2.
Proof.
  induction keyed as [|[k x] rest IH]; [done|]. cbn [groupby].
  destruct (groupby rest) as [|[k' group] groups]; cbn in *.
  - by rewrite <- IH.
  - destruct (String.eqb k k'); cbn; by rewrite <- IH.
Qed.

(** Every group is a run of the keyed list: it is not empty and each of
    its records was paired with the key of the group. *)
Lemma groupby_groups keyed :
  Forall (λ kg : string * list ArticleRecord,
            kg.2 ≠ [] ∧ Forall (λ x, (kg.1, x) ∈ keyed) kg.2) (groupby keyed).
Proof.
  induction keyed as [|[k x] rest IH]; [constructor|]. cbn [groupby].
  assert (Forall (λ kg : string * list ArticleRecord,
                    kg.2 ≠ [] ∧ Forall (λ y, (kg.1, y) ∈ (k, x) :: rest) kg.2)
            (groupby rest)) as IH'.
  { eapply Forall_impl; [exact IH|]. intros [k' g] [Hne Hall]. split; [done|].
    eapply Forall_impl; [exact Hall|]. intros y Hy. apply elem_of_cons. by right. }
  assert ((k, x) ∈ (k, x) :: rest) as Hhere by (apply elem_of_cons; by left).
  destruct (groupby rest) as [|[k' group] groups].
  - constructor; [|constructor]. split; [done|]. cbn. by repeat constructor.
  - destruct (String.eqb_spec k k') as [->|Hne].
    + apply Forall_cons in IH' as [[_ Hgroup] Hgroups].
      constructor; [|done]. split; [done|]. cbn in *. by constructor.
    + constructor; [|done]. split; [done|]. cbn. by repeat constructor.
Qed.

(** Two groups next to each other have different keys. *)
Lemma groupby_adjacent keyed i k1 g1 k2 g2 :
  groupby keyed !! i = Some (k1, g1) →
  groupby keyed !! S i = Some (k2, g2) →
  k1 ≠ k2.
Proof.
  revert i k1 g1 k2 g2.
  induction keyed as [|[k x] rest IH]; intros i k1 g1 k2 g2; [done|]. cbn [groupby].
  destruct (groupby rest) as [|[k' group] groups] eqn:Hrest; [by destruct i|].
  destruct (String.eqb_spec k k') as [->|Hne].
  - destruct i as [|i]; cbn.
    + intros [= <- <-] Hnext. by apply (IH 0 k' group k2 g2).
    + intros Hi Hnext. by apply (IH (S i) k1 g1 k2 g2).
  - destruct i as [|i]; cbn.
    + by intros [= <- <-] [= <- <-].
    + intros Hi Hnext. by apply (IH i k1 g1 k2 g2).
Qed.

Lemma get_all_news_single groups :
  _get_all_news ((λ group : string * list ArticleRecord, [group]) <$> groups) =
    concat groups.*2.
Proof.
  unfold _get_all_news. induction groups as [|[k g] groups IH]; [done|].
  cbn [fmap list_fmap flat_map concat snd] in *. rewrite IH. cbn.
  by rewrite app_nil_r.
Qed.

Lemma _group_news_by_date_unfold `{Strptime} news data :
  _group_news_by_date news = Ok data →
  ∃ keys,
    Forall2 (λ r key, _get_reformatted_date (date r) = Ok key) (sorted_by_date news) keys ∧
    data = (λ group : string * list ArticleRecord, [group]) <$>
             groupby (zip keys (sorted_by_date news)) ∧
    _get_all_news data = sorted_by_date news.
Proof.
  unfold _group_news_by_date.
  destruct (map_res (λ r, _get_reformatted_date (date r)) (sorted_by_date news))
    as [keys|e] eqn:Hkeys; [|done].
  cbn [res_bind]. intros [= <-]. apply map_res_Forall2 in Hkeys.
  exists keys. split; [done|]. split; [done|].
  rewrite get_all_news_single, groupby_concat. apply snd_zip.
  by rewrite (Forall2_length _ _ _ Hkeys).
Qed.

(** X16. The news are saved exactly when the date of every one of them can
    be reformatted; otherwise the call raises and the file is left as it
    was. What is saved, read back in full, is the news that were given,
    none lost and none twice, in the order of their date strings, and news
    with the same date string keep the order in which they were given. *)
Theorem X16_saved_news_are_sorted `{Strptime} (self : NewsStorage)
    (news : list ArticleRecord) :
  ((∃ e, save_news_to_file self news = (Raise e, self)) ↔
   ∃ r e, r ∈ news ∧ _get_reformatted_date (date r) = Raise e) ∧
  ∀ self', save_news_to_file self news = (Ok (), self') →
    ∃ data, storage_file self' = Some data ∧
            storage_limit self' = storage_limit self ∧
            _get_all_news data ≡ₚ news ∧
            Sorted date_le (_get_all_news data) ∧
            ∀ d, filter (λ r, date r = d) (_get_all_news data) =
                 filter (λ r, date r = d) news.
Proof.
  unfold save_news_to_file. split.
  - assert ((∃ e, _group_news_by_date news = Raise e) ↔
            ∃ r e, r ∈ news ∧ _get_reformatted_date (date r) = Raise e) as Hiff.
    { unfold _group_news_by_date.
      destruct (map_res_raises (λ r, _get_reformatted_date (date r)) (sorted_by_date news))
        as [Hto Hfrom].
      split.
      - intros [e He].
        destruct (map_res (λ r, _get_reformatted_date (date r)) (sorted_by_date news))
          as [keys|e'] eqn:Hkeys; [done|].
        assert (Exists (λ r, ∃ e, _get_reformatted_date (date r) = Raise e)
                  (sorted_by_date news)) as Hex by (apply Hto; by eexists).
        apply Exists_exists in Hex as (r & Hr & e'' & Hbad).
        exists r, e''. split; [|done]. by rewrite <- (sorted_by_date_perm news).
      - intros (r & e & Hr & Hbad).
        destruct Hfrom as [e' He'].
        { apply Exists_exists. exists r. split; [|by eexists].
          by rewrite (sorted_by_date_perm news). }
        rewrite He'. by eexists. }
    rewrite <- Hiff. destruct (_group_news_by_date news) as [data|e].
    + split; [by intros [e [=]]|by intros [e [=]]].
    + split; intros _; by eexists.
  - intros self'. destruct (_group_news_by_date news) as [data|e] eqn:Hdata; [|done].
    intros [= <-]. exists data. cbn. split; [done|]. split; [done|].
    apply _group_news_by_date_unfold in Hdata as (keys & _ & _ & ->).
    split; [apply sorted_by_date_perm|]. split; [apply sorted_by_date_sorted|].
    intros d. apply sorted_by_date_stable.
Qed.

Lemma zip_keys_elem `{Strptime} (news : list ArticleRecord) keys key r :
  Forall2 (λ r key, _get_reformatted_date (date r) = Ok key) news keys →
  (key, r) ∈ zip keys news ↔
  ∃ i, news !! i = Some r ∧ keys !! i = Some key.
Proof.
  intros Hkeys. rewrite list_elem_of_lookup. split.
  - intros [i Hi]. apply lookup_zip_with_Some in Hi as (k & x & [= -> ->] & Hk & Hx).
    by exists i.
  - intros (i & Hr & Hk). exists i. apply lookup_zip_with_Some. by exists key, r.
Qed.

Lemma zip_keys_sound `{Strptime} (news : list ArticleRecord) keys key r :
  Forall2 (λ r key, _get_reformatted_date (date r) = Ok key) news keys →
  (key, r) ∈ zip keys news →
  r ∈ news ∧ _get_reformatted_date (date r) = Ok key.
Proof.
  intros Hkeys Hin. apply (zip_keys_elem news keys key r Hkeys) in Hin as (i & Hr & Hk).
  split; [by eapply list_elem_of_lookup_2|].
  by apply (Forall2_lookup_lr _ _ _ i r key Hkeys).
Qed.

(** Every keyed record is in a group of its key. *)
Lemma groupby_covers keyed k x :
  (k, x) ∈ keyed → ∃ group, (k, group) ∈ groupby keyed ∧ x ∈ group.
Proof.
  induction keyed as [|[k0 x0] rest IH]; [by intros ?%elem_of_nil|].
  intros [[= -> ->]|Hin]%elem_of_cons; cbn [groupby].
  - destruct (groupby rest) as [|[k' group] groups].
    + exists [x0]. split; apply elem_of_cons; by left.
    + destruct (String.eqb k0 k').
      * exists (x0 :: group). split; apply elem_of_cons; by left.
      * exists [x0]. split; apply elem_of_cons; by left.
  - destruct (IH Hin) as (group & Hgroup & Hx).
    destruct (groupby rest) as [|[k' group'] groups]; [by apply elem_of_nil in Hgroup|].
    destruct (String.eqb_spec k0 k') as [->|Hne].
    + apply elem_of_cons in Hgroup as [[= -> ->]|Hgroup].
      * exists (x0 :: group'). split; [apply elem_of_cons; by left|].
        apply elem_of_cons. by right.
      * exists group. split; [|done]. apply elem_of_cons. by right.
    + exists group. split; [|done]. apply elem_of_cons. by right.
Qed.

Lemma get_news_by_date_single groups d :
  Forall (λ kg : string * list ArticleRecord, kg.2 ≠ []) groups →
  match _get_news_by_date
          ((λ group : string * list ArticleRecord, [group]) <$> groups) d with
  | Ok found => (d, found) ∈ groups
  | Raise e => e = no_news_for_date ∧ ∀ group, (d, group) ∉ groups
  end.
Proof.
  induction groups as [|[k g] groups IH]; intros Hne.
  - cbn. split; [done|]. intros group. apply not_elem_of_nil.
  - apply Forall_cons in Hne as [Hg Hne]. specialize (IH Hne).
    cbn [fmap list_fmap _get_news_by_date dict_get] in *.
    destruct (String.eqb_spec k d) as [->|Hk].
    + destruct g as [|r found]; [done|]. apply elem_of_cons. by left.
    + destruct (_get_news_by_date _ d) as [found|e].
      * apply elem_of_cons. by right.
      * destruct IH as [-> Hnone]. split; [done|].
        intros group [Heq|Hin]%elem_of_cons; [congruence|]. by apply (Hnone group).
Qed.

(** What a lookup by date finds in grouped news. *)
Lemma get_news_by_date_grouped `{Strptime} news data d :
  _group_news_by_date news = Ok data →
  match _get_news_by_date data d with
  | Ok found =>
      found ≠ [] ∧
      ∀ r, r ∈ found → r ∈ news ∧ _get_reformatted_date (date r) = Ok d
  | Raise e =>
      e = no_news_for_date ∧
      ∀ r, r ∈ news → _get_reformatted_date (date r) ≠ Ok d
  end.
Proof.
  intros Hdata. apply _group_news_by_date_unfold in Hdata as (keys & Hkeys & -> & _).
  pose proof (groupby_groups (zip keys (sorted_by_date news))) as Hgroups.
  pose proof (get_news_by_date_single (groupby (zip keys (sorted_by_date news))) d) as Hget.
  assert (Forall (λ kg : string * list ArticleRecord, kg.2 ≠ [])
            (groupby (zip keys (sorted_by_date news)))) as Hfull.
  { eapply Forall_impl; [exact Hgroups|]. by intros ? []. }
  specialize (Hget Hfull).
  destruct (_get_news_by_date _ d) as [found|e].
  - destruct (proj1 (Forall_forall _ _) Hgroups _ Hget) as [Hne Hall]. cbn in *.
    split; [done|]. intros r Hr.
    destruct (zip_keys_sound _ keys d r Hkeys) as [Hsorted Hkey].
    { apply (proj1 (Forall_forall _ _) Hall r Hr). }
    split; [|done]. by rewrite <- (sorted_by_date_perm news).
  - destruct Hget as [-> Hnone].
    split; [done|]. intros r Hr Hkey.
    rewrite <- (sorted_by_date_perm news) in Hr.
    apply list_elem_of_lookup in Hr as [i Hi].
    destruct (Forall2_lookup_l _ _ _ i r Hkeys Hi) as (key & Hk & Hkey').
    assert (key = d) as -> by congruence.
    destruct (groupby_covers (zip keys (sorted_by_date news)) d r) as (group & Hgroup & _).
    { apply (zip_keys_elem _ keys d r Hkeys). by exists i. }
    by apply (Hnone group).
Qed.

(** X17. The file holds one dict for each run of news with the same
    reformatted date: a dict has a single key, the news under it are not
    empty, were all given, and all reformat to that key, and two dicts
    next to each other have different keys. *)
Theorem X17_one_dict_per_date_run `{Strptime} (news : list ArticleRecord) data :
  _group_news_by_date news = Ok data →
  Forall (λ dict : DateDict,
            ∃ key group,
              dict = [(key, group)] ∧ group ≠ [] ∧
              Forall (λ r, r ∈ news ∧ _get_reformatted_date (date r) = Ok key) group)
         data ∧
  ∀ i key1 group1 key2 group2,
    data !! i = Some [(key1, group1)] →
    data !! S i = Some [(key2, group2)] →
    key1 ≠ key2.
Proof.
  intros Hdata. apply _group_news_by_date_unfold in Hdata as (keys & Hkeys & -> & _).
  split.
  - apply Forall_fmap. eapply Forall_impl; [apply groupby_groups|].
    intros [key group] [Hne Hall]. cbn in *. exists key, group.
    split; [done|]. split; [done|].
    eapply Forall_impl; [exact Hall|]. intros r Hr. cbn in Hr.
    destruct (zip_keys_sound _ keys key r Hkeys Hr) as [Hsorted Hkey].
    split; [|done]. by rewrite <- (sorted_by_date_perm news).
  - intros i key1 group1 key2 group2. rewrite !list_lookup_fmap.
    destruct (groupby (zip keys (sorted_by_date news)) !! i) as [[k1 g1]|] eqn:H1; [|done].
    destruct (groupby (zip keys (sorted_by_date news)) !! S i) as [[k2 g2]|] eqn:H2;
      [|done].
    cbn. intros [= <- <-] [= <- <-]. by eapply groupby_adjacent.
Qed.

(** X18. Reading the news of one date from what was saved raises "no news
    for the specified date" exactly when no saved news reformats to that
    date; otherwise it returns news, at least one, each of them saved and
    each reformatting to the date asked for. *)
Theorem X18_news_of_one_date `{Strptime} (news : list ArticleRecord) data (d : string) :
  _group_news_by_date news = Ok data →
  (_get_news_by_date data d = Raise no_news_for_date ↔
   ∀ r, r ∈ news → _get_reformatted_date (date r) ≠ Ok d) ∧
  ∀ found,
    _get_news_by_date data d = Ok found →
    found ≠ [] ∧ ∀ r, r ∈ found → r ∈ news ∧ _get_reformatted_date (date r) = Ok d.
Proof.
  intros Hdata. pose proof (get_news_by_date_grouped news data d Hdata) as Hget.
  destruct (_get_news_by_date data d) as [found|e].
  - destruct Hget as [Hne Hall]. split.
    + split; [done|]. intros Hnone. destruct found as [|r found]; [done|].
      destruct (Hall r) as [Hr Hkey]; [apply elem_of_cons; by left|].
      by destruct (Hnone r Hr).
    + by intros ? [= <-].
  - destruct Hget as [-> Hnone]. split; [done|]. by intros.
Qed.

Lemma get_news_from_file_limited (self self' : NewsStorage) news_date news l :
  storage_limit self = Some l →
  (0 ≤ l)%Z →
  get_news_from_file self news_date = (Ok news, self') →
  (∃ data all,
     storage_file self = Some data ∧
     news_of_file data news_date = Ok all ∧
     news = take (Z.to_nat l) all) ∧
  storage_file self' = storage_file self ∧
  storage_limit self' = Some (Z.of_nat (length news)).
Proof.
  intros Hl Hpos. unfold get_news_from_file. rewrite Hl.
  destruct (storage_file self) as [data|]; [|done].
  destruct (news_of_file data news_date) as [all|e] eqn:Hall; [|done].
  assert (∀ n : Z, (0 ≤ n)%Z → slice_to all n = take (Z.to_nat n) all) as Hslice.
  { intros n Hn. unfold slice_to. by destruct (Z.leb_spec 0 n); [|lia]. }
  destruct (Z.eqb_spec l 0) as [->|Hne]; cbn [negb andb].
  - intros [= <- <-]. cbn [storage_file storage_limit].
    rewrite Hslice by lia. split; [by exists data, all|]. split; [done|].
    rewrite length_take. f_equal; lia.
  - destruct (Z.ltb_spec (Z.of_nat (length all)) l) as [Hlt|Hge]; intros [= <- <-];
      cbn [storage_file storage_limit]; rewrite Hslice by lia.
    + split.
      * exists data, all. split; [done|]. split; [done|].
        rewrite !take_ge; [done|lia..].
      * split; [done|]. rewrite length_take. f_equal; lia.
    + split; [by exists data, all|].
      split; [done|]. rewrite length_take. f_equal; lia.
Qed.

(** X19. With a limit that is not negative, a read returns the first
    [limit] news of those it found, and it leaves the number of news it
    returned as the limit of the storage: a later read of the same
    storage, for whatever date, never returns more news than this one. *)
Theorem X19_read_lowers_the_limit (self self' : NewsStorage) news_date news l :
  storage_limit self = Some l →
  (0 ≤ l)%Z →
  get_news_from_file self news_date = (Ok news, self') →
  (∃ data all,
     storage_file self = Some data ∧
     news_of_file data news_date = Ok all ∧
     news = take (Z.to_nat l) all) ∧
  storage_limit self' = Some (Z.of_nat (length news)) ∧
  ∀ later_date later_news self'',
    get_news_from_file self' later_date = (Ok later_news, self'') →
    (length later_news ≤ length news)%nat.
Proof.
  intros Hl Hpos Hread.
  destruct (get_news_from_file_limited self self' news_date news l Hl Hpos Hread)
    as (Hnews & Hfile & Hlimit).
  split; [done|]. split; [done|].
  intros later_date later_news self'' Hlater.
  destruct (get_news_from_file_limited self' self'' later_date later_news _ Hlimit
              ltac:(lia) Hlater) as ((data & all & _ & _ & ->) & _).
  rewrite length_take. lia.
Qed.

Lemma formed_news_within_limit `{World} (news_former : ParserNewsFormer) schedule formed l :
  _news_limit news_former = Some l →
  (0 ≤ l)%Z →
  form_news news_former schedule = Some (Ok formed) →
  (Z.of_nat (length formed) ≤ l)%Z.
Proof.
  intros Hl Hpos Hformed.
  destruct (form_news_positions news_former schedule formed Hformed)
    as (selection & Hsel & Hlen & _).
  rewrite Hlen, (_form_news_list_length news_former selection); [|congruence|done].
  unfold selection_size. rewrite Hl. lia.
Qed.

Lemma save_news_to_file_ok `{Strptime} (self : NewsStorage) news :
  (∀ r, r ∈ news → ∃ key, _get_reformatted_date (date r) = Ok key) →
  ∃ data, _group_news_by_date news = Ok data ∧
          save_news_to_file self news =
            (Ok (), {| storage_limit := storage_limit self; storage_file := Some data |}).
Proof.
  intros Hkeys. unfold save_news_to_file.
  destruct (_group_news_by_date news) as [data|e] eqn:Hdata; [by exists data|].
  exfalso. unfold _group_news_by_date in Hdata.
  destruct (map_res (λ r, _get_reformatted_date (date r)) (sorted_by_date news))
    as [keys|e'] eqn:Hmap; [done|].
  pose proof (proj1 (map_res_raises _ _) (ex_intro _ e' Hmap)) as Hex.
  apply Exists_exists in Hex as (r & Hr & e'' & Hbad).
  rewrite (sorted_by_date_perm news) in Hr.
  destruct (Hkeys r Hr) as [key Hkey]. congruence.
Qed.

(** X20. A run without a date gives every record it formed to the output,
    but not in the order of the feed: formed, saved and read back, the
    records come in the order of their date strings, records with the same
    date string in the order of the feed. The limit cuts nothing off on
    the way back, because no more records were formed than it allows. *)
Theorem X20_formed_news_come_back_sorted `{World} `{Strptime}
    (news_former : ParserNewsFormer) schedule (news_storage : NewsStorage) formed :
  _news_date news_former = None →
  storage_limit news_storage = _news_limit news_former →
  (∀ l, _news_limit news_former = Some l → (0 < l)%Z) →
  form_news news_former schedule = Some (Ok formed) →
  (∀ r, r ∈ formed → ∃ key, _get_reformatted_date (date r) = Ok key) →
  ∃ news news_storage',
    news_from_file news_former schedule news_storage = Some (Ok news, news_storage') ∧
    news ≡ₚ formed ∧
    Sorted date_le news ∧
    ∀ d, filter (λ r, date r = d) news = filter (λ r, date r = d) formed.
Proof.
  intros Hdate Hsame Hlimit Hformed Hkeys.
  destruct (save_news_to_file_ok news_storage formed Hkeys) as (data & Hdata & Hsave).
  apply _group_news_by_date_unfold in Hdata as (_ & _ & _ & Hall).
  unfold news_from_file. rewrite Hformed, Hsave, Hdate.
  unfold get_news_from_file, news_of_file. cbn [storage_file storage_limit].
  rewrite Hall, Hsame.
  assert (length (sorted_by_date formed) = length formed) as Hlen
    by by rewrite (sorted_by_date_perm formed).
  destruct (_news_limit news_former) as [l|] eqn:Hl.
  - specialize (Hlimit l eq_refl).
    pose proof (formed_news_within_limit news_former schedule formed l Hl ltac:(lia)
                  Hformed) as Hwithin.
    destruct (Z.eqb_spec l 0) as [->|_]; [lia|]. cbn [negb andb].
    eexists _, _. split; [reflexivity|].
    assert (∀ n, (Z.of_nat (length formed) ≤ n)%Z →
                 slice_to (sorted_by_date formed) n = sorted_by_date formed) as Hslice.
    { intros n Hn. unfold slice_to. destruct (Z.leb_spec 0 n); [|lia].
      apply take_ge. lia. }
    destruct (Z.ltb_spec (Z.of_nat (length (sorted_by_date formed))) l);
      rewrite Hslice by lia;
      (split; [apply sorted_by_date_perm|];
       split; [apply sorted_by_date_sorted|]; intros d; apply sorted_by_date_stable).
  - eexists _, _. split; [reflexivity|].
    split; [apply sorted_by_date_perm|].
    split; [apply sorted_by_date_sorted|]. intros d. apply sorted_by_date_stable.
Qed.

(** X21. A run for a date reads the saved news back under the date string
    as it was given. When none of the records formed for that date
    reformats to this very string, the run ends in "no news for the
    specified date" although records were formed, and they stay in the
    file. *)
Theorem X21_date_is_looked_up_verbatim `{World} `{Strptime}
    (news_former : ParserNewsFormer) schedule (news_storage : NewsStorage) formed d :
  _news_date news_former = Some d →
  form_news news_former schedule = Some (Ok formed) →
  (∀ r, r ∈ formed →
        ∃ key, _get_reformatted_date (date r) = Ok key ∧ key ≠ d) →
  ∃ data,
    news_from_file news_former schedule news_storage =
      Some (Raise no_news_for_date,
            {| storage_limit := storage_limit news_storage; storage_file := Some data |}) ∧
    _get_all_news data ≡ₚ formed.
Proof.
  intros Hdate Hformed Hkeys.
  destruct (save_news_to_file_ok news_storage formed) as (data & Hdata & Hsave).
  { intros r Hr. destruct (Hkeys r Hr) as (key & Hkey & _). by exists key. }
  exists data. unfold news_from_file. rewrite Hformed, Hsave, Hdate.
  unfold get_news_from_file, news_of_file. cbn [storage_file storage_limit].
  pose proof (get_news_by_date_grouped formed data d Hdata) as Hget.
  apply _group_news_by_date_unfold in Hdata as (_ & _ & _ & Hall).
  split; [|rewrite Hall; apply sorted_by_date_perm].
  destruct (_get_news_by_date data d) as [found|e].
  - destruct Hget as [Hne Hfound]. destruct found as [|r found]; [done|].
    destruct (Hfound r) as [Hr Hkey]; [apply elem_of_cons; by left|].
    destruct (Hkeys r Hr) as (key & Hkey' & Hdiff). congruence.
  - by destruct Hget as [-> _].
Qed.

(** ** The further properties at concrete inputs *)

Lemma X1_witness :
  fst (@get_img_data demo_world photo_tag 0 "http://news.example/a"
         (@after_tags demo_world 0 "http://news.example/a" [gif_tag]
            (snd (@get_img_data demo_world photo_tag 0 "http://news.example/a"
                    dup_initial))))
    = Ok (None, None).
Proof.
  apply (@X1_duplicate_dropped_in_session demo_world 0 "http://news.example/a"
           photo_tag [gif_tag] photo_tag dup_initial); [by vm_compute|reflexivity].
Defined.

Lemma X2_witness :
  fst (@get_img_data demo_world chart_tag 1 "http://news.example/b" stale_state) =
    fst (@get_img_data demo_world chart_tag 1 "http://news.example/b" dup_initial) ∧
  (snd (@get_img_data demo_world chart_tag 1 "http://news.example/b" stale_state)
     = stale_state ∨
   (instance (snd (@get_img_data demo_world chart_tag 1 "http://news.example/b"
                     stale_state)) = Some 1 ∧
    duplicates (snd (@get_img_data demo_world chart_tag 1 "http://news.example/b"
                       stale_state)) = {[ tag_get chart_tag "src" ]})).
Proof.
  apply (@X2_new_flag_forgets demo_world 1 "http://news.example/b" chart_tag stale_state).
  cbn. intros [=].
Defined.

Lemma X3_witness :
  fst (@get_img_data demo_world linked_caption_tag 0 "http://news.example/a" dup_initial)
    = Ok (None, None) ∧
  fst (@get_img_data demo_world photo_tag 0 "http://news.example/a"
         (snd (@get_img_data demo_world linked_caption_tag 0 "http://news.example/a"
                 dup_initial))) = Ok (None, None).
Proof.
  destruct (@X3_bad_caption_blocks_source demo_world 0 "http://news.example/a"
              linked_caption_tag photo_tag dup_initial) as [Hfirst Hsecond];
    [by vm_compute|].
  split; [exact Hfirst|]. apply Hsecond; [by vm_compute|reflexivity].
Defined.

Lemma X4_witness :
  ∃ tag src,
    tag ∈ soup_tags demo_page ∧ tag_name tag = "img" ∧
    Some "a photo" = tag_get tag "alt" ∧
    CaptionHrefChecker_check tag = false ∧
    (∀ c, c ∈ classes_to_check → c ≠ ImageDuplicateChecker →
          rejection_rule c tag 0 dup_initial = false) ∧
    tag_get tag "src" = Some src ∧ src ≠ "" ∧ "http://img.example/photo.jpg" ≠ "" ∧
    ("http://img.example/photo.jpg" = src ∨
     ("http://img.example/photo.jpg" = @nested_url_of demo_world "http://news.example/a" src ∧
      endswith_any ["jpg"; "png"] "http://img.example/photo.jpg" = true ∧
      ∃ resp, demo_get "http://img.example/photo.jpg" = Ok resp ∧ status_code resp ≠ 404)) ∧
    ∃ resp, demo_get "http://img.example/photo.jpg" = Ok resp.
Proof.
  apply (@X4_collected_images_were_probed demo_world (demo_parser 0) dup_initial
           [("http://img.example/photo.jpg", Some "a photo")]
           "http://img.example/photo.jpg" (Some "a photo")).
  - by vm_compute.
  - apply elem_of_cons. by left.
Defined.

Lemma X7_witness :
  @_form_description demo_world bare_object = Raise AttributeError ∨
  @_form_description demo_world bare_object = Raise TypeError ∨
  @_form_description demo_world bare_object =
    Ok (@soup_get_text demo_world (caption_markers [] +:+ newline)).
Proof.
  apply (@X7_no_description_anywhere demo_world bare_object
           {| self_id := 0; url := "http://img.example/page"; soup := empty_page |} []).
  - reflexivity.
  - reflexivity.
  - by left.
  - reflexivity.
Defined.

Lemma X8_witness :
  demo_get (@nested_url_of demo_world "http://news.example/a"
              "http://img.example/photo.jpg")
    = Ok {| status_code := 404; content := empty_page |} ∧
  fst (@get_img_data demo_world photo_tag 0 "http://news.example/a" dup_initial) =
    match demo_get "http://img.example/photo.jpg" with
    | Ok _ => Ok (Some "http://img.example/photo.jpg", tag_get photo_tag "alt")
    | Raise MissingSchema | Raise InvalidSchema | Raise ConnectionError =>
        Ok (None, None)
    | Raise e => Raise e
    end.
Proof.
  split; [reflexivity|].
  apply (proj2 (@X8_probe_errors demo_world photo_tag 0 "http://news.example/a"
                  dup_initial "http://img.example/photo.jpg" ltac:(by vm_compute)
                  eq_refl)
           {| status_code := 404; content := empty_page |}); reflexivity.
Defined.

Lemma X10_witness :
  ∃ news_object,
    @NewsObject_init demo_world 1 "Demo feed" item_without_link stale_state
      = (Ok news_object, stale_state) ∧
    @NewsObject_form_news demo_world news_object =
      Ok {| feed := "Demo feed" +:+ newline;
            title := Some "A title";
            date := str_datetime {| year := 2021; month := 3; day := 2; hour := 23;
                                    minute := 59; second := 59; microsecond := 0 |};
            link := no_link_sentinel +:+ newline;
            description :=
              @soup_get_text demo_world (re_sub_tags "plain <i>text</i>" +:+ newline);
            links := [("[1]", no_link_sentinel)] |}.
Proof.
  apply (@X10_record_without_link demo_world 1 "Demo feed" item_without_link stale_state
           (Some "A title") "Tue, 02 Mar 2021 23:59:59 GMT"); reflexivity.
Defined.

Lemma X11_witness :
  [item_with_page; item_with_chart] =
    take (@selection_size demo_world dated_batch) (@candidates demo_world dated_batch).
Proof.
  apply (@X11_selection_is_prefix demo_world dated_batch).
  - intros l [= <-]. lia.
  - by vm_compute.
Defined.

Lemma X12_witness :
  @form_news demo_world dated_batch dated_schedule = Some (Ok dated_records) ∧
  dated_records ≠ [].
Proof.
  split; [by vm_compute|].
  apply (@X12_dated_run_is_not_empty demo_world dated_batch "2021-03-01" dated_schedule).
  - intros l [= <-]. lia.
  - reflexivity.
  - by vm_compute.
Defined.

Lemma X13_witness :
  @form_news demo_world
    (demo_former [item_with_page; item_with_bad_date] (Some 1%Z) (Some "2021-03-01")) []
    = Some (Raise ParserError).
Proof.
  apply (@X13_dated_run_parses_every_date demo_world _ "2021-03-01"
           {| year := 2021; month := 3; day := 1; hour := 0; minute := 0; second := 0;
              microsecond := 0 |}).
  - reflexivity.
  - reflexivity.
  - repeat constructor; by eexists.
  - apply Exists_cons. right. apply Exists_cons. left.
    by exists "the day before yesterday".
Defined.

Lemma X14_witness :
  header_of <$> twin_records_serial = header_of <$> twin_records_interleaved.
Proof.
  apply (@X14_header_fields_under_any_schedule demo_world twin_batch
           (serial_schedule twin_blocks) twin_interleaved); by vm_compute.
Defined.

Lemma X15_witness :
  Ok twin_records_serial =
    @gather demo_world (@constructed_alone demo_world "Demo feed"
                          [item_with_page; item_with_page]) [].
Proof.
  apply (@X15_workers_one_after_another demo_world twin_batch
           [item_with_page; item_with_page] twin_blocks).
  - by vm_compute.
  - cbn. apply NoDup_cons. split; [|apply NoDup_singleton].
    intros [[=]|Hin]%elem_of_cons. by apply elem_of_nil in Hin.
  - by vm_compute.
Defined.

Lemma X17_witness :
  ∃ data,
    @_group_news_by_date demo_strptime demo_records = Ok data ∧
    Forall (λ dict : DateDict,
              ∃ key group,
                dict = [(key, group)] ∧ group ≠ [] ∧
                Forall (λ r, r ∈ demo_records ∧
                             @_get_reformatted_date demo_strptime (date r) = Ok key) group)
           data ∧
    ∀ i key1 group1 key2 group2,
      data !! i = Some [(key1, group1)] →
      data !! S i = Some [(key2, group2)] →
      key1 ≠ key2.
Proof.
  destruct (@_group_news_by_date demo_strptime demo_records) as [data|e] eqn:Hdata;
    [|by vm_compute in Hdata].
  exists data. split; [done|].
  exact (@X17_one_dict_per_date_run demo_strptime demo_records data Hdata).
Defined.

Lemma X18_witness :
  ∃ data,
    @_group_news_by_date demo_strptime demo_records = Ok data ∧
    (_get_news_by_date data "20210305" = Raise no_news_for_date ↔
     ∀ r, r ∈ demo_records →
          @_get_reformatted_date demo_strptime (date r) ≠ Ok "20210305") ∧
    ∀ found,
      _get_news_by_date data "20210305" = Ok found →
      found ≠ [] ∧
      ∀ r, r ∈ found →
           r ∈ demo_records ∧ @_get_reformatted_date demo_strptime (date r) = Ok "20210305".
Proof.
  destruct (@_group_news_by_date demo_strptime demo_records) as [data|e] eqn:Hdata;
    [|by vm_compute in Hdata].
  exists data. split; [done|].
  exact (@X18_news_of_one_date demo_strptime demo_records data "20210305" Hdata).
Defined.

Lemma X19_witness :
  ∃ news self',
    get_news_from_file demo_storage None = (Ok news, self') ∧
    (∃ data all,
       storage_file demo_storage = Some data ∧
       news_of_file data None = Ok all ∧
       news = take (Z.to_nat 5) all) ∧
    storage_limit self' = Some (Z.of_nat (length news)) ∧
    ∀ later_date later_news self'',
      get_news_from_file self' later_date = (Ok later_news, self'') →
      (length later_news ≤ length news)%nat.
Proof.
  destruct (get_news_from_file demo_storage None) as [[news|e] self'] eqn:Hread;
    [|by vm_compute in Hread].
  exists news, self'. split; [done|].
  apply (X19_read_lowers_the_limit demo_storage self' None news 5); [reflexivity|lia|done].
Defined.

Lemma X20_witness :
  ∃ news news_storage',
    @news_from_file demo_world demo_strptime demo_batch demo_schedule (empty_storage None)
      = Some (Ok news, news_storage') ∧
    news ≡ₚ demo_records ∧
    Sorted date_le news ∧
    ∀ d, filter (λ r, date r = d) news = filter (λ r, date r = d) demo_records.
Proof.
  apply (@X20_formed_news_come_back_sorted demo_world demo_strptime demo_batch
           demo_schedule (empty_storage None) demo_records).
  - reflexivity.
  - reflexivity.
  - intros l [=].
  - by vm_compute.
  - intros r Hr. unfold demo_records in Hr.
    apply elem_of_cons in Hr as [->|Hr]; [by exists "20210301"|].
    apply elem_of_cons in Hr as [->|Hr]; [by exists "20210302"|].
    by apply elem_of_nil in Hr.
Defined.

Lemma X21_witness :
  ∃ data,
    @news_from_file demo_world demo_strptime dated_batch dated_schedule
      (empty_storage (Some 5%Z)) =
      Some (Raise no_news_for_date,
            {| storage_limit := Some 5%Z; storage_file := Some data |}) ∧
    _get_all_news data ≡ₚ dated_records.
Proof.
  apply (@X21_date_is_looked_up_verbatim demo_world demo_strptime dated_batch
           dated_schedule (empty_storage (Some 5%Z)) dated_records "2021-03-01").
  - reflexivity.
  - by vm_compute.
  - intros r Hr. unfold dated_records in Hr.
    apply elem_of_cons in Hr as [->|Hr]; [by exists "20210301"|].
    apply elem_of_cons in Hr as [->|Hr]; [by exists "20210301"|].
    by apply elem_of_nil in Hr.
Defined.
